(** * Wordlist normalisation pipelines: a shallow embedding

    The repository holds four Python scripts that clean wordlists for a
    path fuzzer:

    - [clean_directory_wordlist.py] (the dot-variant-aware pipeline) and
      [clean-directory-wordlist.py] (its older, plain sibling);
    - [clean_api_wordlist.py] (endpoint normaliser);
    - [convert_files_into_directories.py] (filename to directory converter).

    Python strings are sequences of Unicode code points: a string is a
    [list N] here.  What the scripts take from CPython's Unicode database
    (NFKC, general categories, case mapping, white space, decimal digits,
    case-insensitive matching) is written out on ASCII and an interface,
    [PyUnicode], elsewhere.  Regular expressions are kept as
    syntax trees and run by a small backtracking matcher with the
    priorities of CPython's [re]. *)

From Stdlib Require Import NArith Ascii String.
From stdpp Require Import base decidable option list numbers countable gmap sorting.

Local Open Scope N_scope.
Local Open Scope list_scope.

(** ** Characters and strings *)

Abbreviation char := N (only parsing).
Abbreviation str := (list N) (only parsing).

Definition chr (a : ascii) : char := N_of_ascii a.
#[global] Arguments chr : simpl never.

(** [py "abc"] is the Python literal ['abc'] (ASCII literals only). *)
Definition py (s : string) : str := map chr (list_ascii_of_string s).

Definition is_char (a : ascii) (c : char) : bool := c =? chr a.

Definition in_range (lo hi : ascii) (c : char) : bool :=
  (chr lo <=? c) && (c <=? chr hi).

Definition is_ascii (c : char) : bool := c <? 128.

Definition ascii_upper_letter : char -> bool := in_range "A" "Z".
Definition ascii_lower_letter : char -> bool := in_range "a" "z".
Definition ascii_digit : char -> bool := in_range "0" "9".
Definition ascii_letter (c : char) : bool :=
  ascii_lower_letter c || ascii_upper_letter c.
Definition ascii_alnum (c : char) : bool := ascii_letter c || ascii_digit c.

Definition ascii_lower (c : char) : char :=
  if ascii_upper_letter c then c + 32 else c.
Definition ascii_upper (c : char) : char :=
  if ascii_lower_letter c then c - 32 else c.

(** White space among the ASCII characters, as [str.isspace] has it:
    TAB, LF, VT, FF, CR, FS, GS, RS, US and SPACE. *)
Definition ascii_space (c : char) : bool :=
  ((9 <=? c) && (c <=? 13)) || ((28 <=? c) && (c <=? 32)).

(** General category [Cc] among the ASCII characters. *)
Definition ascii_control (c : char) : bool := (c <? 32) || (c =? 127).

(** ** What the scripts use of CPython's Unicode support

    On ASCII the functions below are fixed, whatever the version of the
    Unicode database: they are written out.  What they do with other
    characters is left to the interface [PyUnicode]. *)

Class PyUnicode := {
  (** [str.isspace] on one character, which is also the class [\s] of
      [re]. *)
  uni_isspace : char -> bool;
  (** The class [\d] of [re] on [str] patterns (category [Nd]). *)
  uni_isdecimal : char -> bool;
  (** [str.lower()]. *)
  uni_lower : str -> str;
  (** [unicodedata.normalize("NFKC", s)]. *)
  uni_nfkc : str -> str;
  (** [unicodedata.category(ch).startswith('C')]. *)
  uni_category_C : char -> bool;
  (** A character against a set of ASCII characters of a pattern compiled
      with [re.IGNORECASE]. *)
  uni_ignorecase : (char -> bool) -> char -> bool;
  (** A character against a literal character of such a pattern. *)
  uni_ignorecase_lit : char -> char -> bool
}.

Section Unicode.
Context {U : PyUnicode}.

Definition py_isspace (c : char) : bool :=
  if is_ascii c then ascii_space c else uni_isspace c.

Definition py_isdecimal (c : char) : bool :=
  if is_ascii c then ascii_digit c else uni_isdecimal c.

Definition py_lower (s : str) : str :=
  if forallb is_ascii s then map ascii_lower s else uni_lower s.

Definition py_nfkc (s : str) : str :=
  if forallb is_ascii s then s else uni_nfkc s.

Definition py_category_C (c : char) : bool :=
  if is_ascii c then ascii_control c else uni_category_C c.

(** [re_ignorecase S c], for a set [S] of ASCII characters: an ASCII
    character matches when one of its two cases is in the set. *)
Definition re_ignorecase (S : char -> bool) (c : char) : bool :=
  if is_ascii c then S (ascii_lower c) || S (ascii_upper c)
  else uni_ignorecase S c.

(** [re_ignorecase_lit p c]: the literal [p] of the pattern against [c]. *)
Definition re_ignorecase_lit (p c : char) : bool :=
  if is_ascii p && is_ascii c then ascii_lower p =? ascii_lower c
  else uni_ignorecase_lit p c.

End Unicode.

(** A model of the interface, where the characters outside ASCII have no
    case, are no white space and no digits, and are never removed. *)
Definition ascii_only : PyUnicode := {|
  uni_isspace _ := false;
  uni_isdecimal _ := false;
  uni_lower s := map ascii_lower s;
  uni_nfkc s := s;
  uni_category_C _ := false;
  uni_ignorecase S c := S c;
  uni_ignorecase_lit p c := p =? c
|}.

(** ** Regular expressions

    The patterns of the scripts, as syntax.  [Cls p] is one character of a
    class; [Bol] is [^] (no [re.MULTILINE] anywhere in the scripts) and
    [Eol] is [$], which matches at the end of the string and just before a
    line feed that ends the string. *)

Inductive re : Type :=
| Eps
| Bol
| Eol
| Cls (p : char -> bool)
| Seq (r1 r2 : re)
| Alt (r1 r2 : re)
| Star (r : re).

Definition Lit (a : ascii) : re := Cls (is_char a).
Definition Plus (r : re) : re := Seq r (Star r).
Definition Opt (r : re) : re := Alt r Eps.

(** [r{n}] and the greedy [r{0,n}], [r{lo,hi}]. *)
Fixpoint Times (n : nat) (r : re) : re :=
  match n with
  | O => Eps
  | S n' => Seq r (Times n' r)
  end.

Fixpoint Upto (n : nat) (r : re) : re :=
  match n with
  | O => Eps
  | S n' => Opt (Seq r (Upto n' r))
  end.

Definition Between (lo hi : nat) (r : re) : re :=
  Seq (Times lo r) (Upto (hi - lo) r).

(** A sequence of literal characters. *)
Fixpoint Lits (cls : char -> char -> bool) (s : str) : re :=
  match s with
  | [] => Eps
  | c :: s' => Seq (Cls (cls c)) (Lits cls s')
  end.

(** An alternation, tried in the order of the list. *)
Fixpoint Alts (rs : list re) : re :=
  match rs with
  | [] => Cls (fun _ => false)
  | [r] => r
  | r :: rs' => Alt r (Alts rs')
  end.

Definition at_eol (s : str) : bool :=
  match s with
  | [] => true
  | [c] => is_char "010" c
  | _ => false
  end.

(** The backtracking matcher.  [rmatch r b s k] matches [r] at the front of
    [s]; [b] says whether this is the start of the whole string; the
    continuation [k] receives the flag and the rest of the string, and its
    failure makes the matcher try the next choice: the left branch of an
    alternative before the right one, one more round of a star before
    leaving it.  A round of a star has to consume a character (no starred
    sub-pattern of the scripts matches the empty string), so the length of
    the string bounds the number of rounds. *)
Fixpoint star_rounds {A : Type}
    (body : bool -> str -> (bool -> str -> option A) -> option A)
    (k : bool -> str -> option A) (n : nat) (b : bool) (s : str) : option A :=
  match n with
  | O => k b s
  | S n' =>
      match body b s
              (fun b' s' =>
                 if (length s' <? length s)%nat then star_rounds body k n' b' s'
                 else None)
      with
      | Some x => Some x
      | None => k b s
      end
  end.

Fixpoint rmatch {A : Type} (r : re) (b : bool) (s : str)
    (k : bool -> str -> option A) {struct r} : option A :=
  match r with
  | Eps => k b s
  | Bol => if b then k b s else None
  | Eol => if at_eol s then k b s else None
  | Cls p =>
      match s with
      | c :: s' => if p c then k false s' else None
      | [] => None
      end
  | Seq r1 r2 => rmatch r1 b s (fun b' s' => rmatch r2 b' s' k)
  | Alt r1 r2 =>
      match rmatch r1 b s k with
      | Some x => Some x
      | None => rmatch r2 b s k
      end
  | Star r1 => star_rounds (rmatch r1) k (length s) b s
  end.

(** The match of [r] at the front of [s], as the rest of the string after
    it. *)
Definition match_at (r : re) (b : bool) (s : str) : option str :=
  rmatch r b s (fun _ rest => Some rest).

(** [pattern.match(s)] as a truth value. *)
Definition re_match (r : re) (s : str) : bool :=
  bool_decide (is_Some (match_at r true s)).

(** [pattern.search(s)] as a truth value: the first position with a match. *)
Fixpoint search_from (r : re) (b : bool) (s : str) : bool :=
  match match_at r b s with
  | Some _ => true
  | None =>
      match s with
      | [] => false
      | _ :: s' => search_from r false s'
      end
  end.

Definition re_search (r : re) (s : str) : bool := search_from r true s.

(** [pattern.sub(repl, s)] for a replacement without group references.
    [skip] counts the characters of the current match still to pass over.
    A match is replaced and the scan goes on behind it; an empty match is
    replaced and the next character copied. *)
Fixpoint sub_from (r : re) (repl : str) (b : bool) (skip : nat) (s : str) : str :=
  match skip with
  | S n =>
      match s with
      | [] => []
      | _ :: s' => sub_from r repl false n s'
      end
  | O =>
      match match_at r b s with
      | Some rest =>
          match (length s - length rest)%nat, s with
          | S n, _ :: s' => repl ++ sub_from r repl false n s'
          | _, c :: s' => repl ++ c :: sub_from r repl false O s'
          | _, [] => repl
          end
      | None =>
          match s with
          | [] => []
          | c :: s' => c :: sub_from r repl false O s'
          end
      end
  end.

Definition re_sub (r : re) (repl : str) (s : str) : str := sub_from r repl true O s.

Fixpoint Seqs (rs : list re) : re :=
  match rs with
  | [] => Eps
  | [r] => r
  | r :: rs' => Seq r (Seqs rs')
  end.

(** ** Python string methods *)

Definition is_empty (s : str) : bool :=
  match s with
  | [] => true
  | _ => false
  end.

Fixpoint startswith (p s : str) : bool :=
  match p, s with
  | [], _ => true
  | a :: p', b :: s' => (a =? b) && startswith p' s'
  | _ :: _, [] => false
  end.

Definition endswith (p s : str) : bool := startswith (rev p) (rev s).

(** [p in s]. *)
Fixpoint contains (p s : str) : bool :=
  startswith p s ||
  match s with
  | [] => false
  | _ :: s' => contains p s'
  end.

(** [s.find(p)]; [None] stands for [-1]. *)
Fixpoint find (p s : str) : option nat :=
  if startswith p s then Some O
  else match s with
       | [] => None
       | _ :: s' => S <$> find p s'
       end.

(** [s.lstrip(chars)], [s.rstrip(chars)] with the set of characters as a
    predicate. *)
Fixpoint lstrip_by (f : char -> bool) (s : str) : str :=
  match s with
  | c :: s' => if f c then lstrip_by f s' else s
  | [] => []
  end.

Definition rstrip_by (f : char -> bool) (s : str) : str :=
  rev (lstrip_by f (rev s)).

Definition strip_by (f : char -> bool) (s : str) : str :=
  rstrip_by f (lstrip_by f s).

(** [s.split(sep)] for a separator of one character. *)
Fixpoint split (sep : char) (s : str) : list str :=
  match s with
  | [] => [[]]
  | c :: s' =>
      if c =? sep then [] :: split sep s'
      else match split sep s' with
           | seg :: segs => (c :: seg) :: segs
           | [] => [[c]]
           end
  end.

(** [sep.join(parts)]. *)
Fixpoint join (sep : str) (parts : list str) : str :=
  match parts with
  | [] => []
  | [p] => p
  | p :: ps => p ++ sep ++ join sep ps
  end.

(** ** [urllib.parse.quote]

    [quote(s, safe)] encodes [s] as UTF-8 and writes every byte that is not
    a letter, a digit, one of [_.-~] or in [safe] as [%XX] with upper-case
    hexadecimal digits.  (On a surrogate code point Python raises; the
    UTF-8 decoder that reads the input files yields none.) *)

Definition utf8_encode (c : char) : list N :=
  if c <? 128 then [c]
  else if c <? 2048 then [192 + c / 64; 128 + c mod 64]
  else if c <? 65536 then
    [224 + c / 4096; 128 + (c / 64) mod 64; 128 + c mod 64]
  else
    [240 + c / 262144; 128 + (c / 4096) mod 64; 128 + (c / 64) mod 64;
     128 + c mod 64].

Definition hex_digit (n : N) : char :=
  if n <? 10 then chr "0" + n else chr "A" + (n - 10).

Definition always_safe (c : char) : bool :=
  ascii_alnum c || is_char "_" c || is_char "." c || is_char "-" c || is_char "~" c.

Definition quote_byte (safe : char -> bool) (byte : N) : str :=
  if always_safe byte || (is_ascii byte && safe byte) then [byte]
  else [chr "%"; hex_digit (byte / 16); hex_digit (byte mod 16)].

Definition quote (safe : char -> bool) (s : str) : str :=
  flat_map (quote_byte safe) (flat_map utf8_encode s).

(** [safe="/-._~"]. *)
Definition safe_chars (c : char) : bool :=
  is_char "/" c || is_char "-" c || is_char "." c || is_char "_" c || is_char "~" c.

Definition percent_encode_keep_slash (s : str) : str := quote safe_chars s.

(** ** The accumulator of a run: the [seen] set and the [out_order] list *)

Record output := {
  seen : gset str;
  out_order : list str
}.

Definition empty_output : output := {| seen := ∅; out_order := [] |}.

(** [if v not in seen: seen.add(v); out_order.append(v)]. *)
Definition add_entry (v : str) (o : output) : output :=
  if decide (v ∈ seen o) then o
  else {| seen := {[v]} ∪ seen o; out_order := out_order o ++ [v] |}.

(** Python's order on [str] (code point by code point), and [sorted]. *)
Fixpoint str_leb (s t : str) : bool :=
  match s, t with
  | [], _ => true
  | _ :: _, [] => false
  | a :: s', b :: t' => (a <? b) || ((a =? b) && str_leb s' t')
  end.

Definition str_le (s t : str) : Prop := str_leb s t = true.

#[global] Instance str_le_dec : RelDecision str_le.
Proof. intros s t. unfold str_le. apply _. Defined.

Definition py_sorted (l : list str) : list str := merge_sort str_le l.

(** * [clean_directory_wordlist.py] *)

Module CleanDirectory.

(** The parsed command line. *)
Record args := {
  iis : bool;
  maxlen : Z;
  add_trailing_variant : bool;
  sorted : bool;
  verbose : bool;
  strip_dot_ext : bool;
  drop_leading_dot : bool
}.

Definition default_args : args := {|
  iis := false;
  maxlen := 200;
  add_trailing_variant := false;
  sorted := false;
  verbose := false;
  strip_dot_ext := true;
  drop_leading_dot := false
|}.

(** The lines printed to [sys.stderr] under [--verbose]. *)
Inductive diag : Type :=
| drop_dot_empty (line : str)
| drop_too_long_dotfile (len : nat) (line : str)
| drop_LFI (line : str)
| drop_file_like (line : str)
| drop_too_long (len : nat) (line : str).

(** The state of the main loop. *)
Record state := {
  out : output;
  stderr : list diag
}.

Definition initial : state := {| out := empty_output; stderr := [] |}.

Definition report (a : args) (d : diag) (st : state) : state :=
  if verbose a then {| out := out st; stderr := stderr st ++ [d] |} else st.

Definition emit (v : str) (st : state) : state :=
  {| out := add_entry v (out st); stderr := stderr st |}.

Definition HOMOGLYPH_MAP (c : char) : char :=
  if c =? 1072 then chr "a" else if c =? 1040 then chr "A"
  else if c =? 1077 then chr "e" else if c =? 1045 then chr "E"
  else if c =? 1086 then chr "o" else if c =? 1054 then chr "O"
  else if c =? 1089 then chr "c" else if c =? 1057 then chr "C"
  else if c =? 1088 then chr "p" else if c =? 1056 then chr "P"
  else if c =? 1093 then chr "x" else if c =? 1061 then chr "X"
  else if c =? 1110 then chr "i" else if c =? 1030 then chr "I"
  else if c =? 1085 then chr "n" else if c =? 1053 then chr "N"
  else c.

Definition not_slash (c : char) : bool := negb (is_char "/" c).
Definition not_newline (c : char) : bool := negb (is_char "010" c).

Definition scheme_char (c : char) : bool :=
  ascii_letter c || ascii_digit c || is_char "+" c || is_char "-" c || is_char "." c.

Definition alnum_or_hyphen (c : char) : bool := ascii_alnum c || is_char "-" c.

(** [QUERY_FRAGMENT_RE = [\?#].*$] *)
Definition QUERY_FRAGMENT_RE : re :=
  Seqs [Cls (fun c => is_char "?" c || is_char "#" c); Star (Cls not_newline); Eol].

(** [MULTI_SLASH_RE = /+] *)
Definition MULTI_SLASH_RE : re := Plus (Lit "/").

(** [FILE_LIKE_RE = (^|/)[^/]+\.[A-Za-z0-9]{1,6}$] *)
Definition FILE_LIKE_RE : re :=
  Seqs [Alt Bol (Lit "/"); Plus (Cls not_slash); Lit ".";
        Between 1 6 (Cls ascii_alnum); Eol].

(** [LFI_INDICATORS = (^|/)\.\.?($|/)] *)
Definition LFI_INDICATORS : re :=
  Seqs [Alt Bol (Lit "/"); Lit "."; Opt (Lit "."); Alt Eol (Lit "/")].

(** [DOT_EXT_RE = (?:\.[A-Za-z0-9\-]{1,63})+$] *)
Definition DOT_EXT_RE : re :=
  Seqs [Plus (Seq (Lit ".") (Between 1 63 (Cls alnum_or_hyphen))); Eol].

(** The patterns of the two [re.sub] calls that trim slashes: [^/+], [/+$]. *)
Definition LEADING_SLASHES : re := Seq Bol (Plus (Lit "/")).
Definition TRAILING_SLASHES : re := Seq (Plus (Lit "/")) Eol.

Definition collapse_slashes (s : str) : str := re_sub MULTI_SLASH_RE (py "/") s.

Section WithUnicode.
Context {U : PyUnicode}.

(** [URL_SCHEME_HOST_RE = ^[a-zA-Z][a-zA-Z0-9+\-.]*://[^/]+] with [re.I]: the
    two sets with letters match case-insensitively; [:], [/] and the
    negated set have no cased member and match exactly. *)
Definition URL_SCHEME_HOST_RE : re :=
  Seqs [Bol; Cls (re_ignorecase ascii_letter); Star (Cls (re_ignorecase scheme_char));
        Lit ":"; Lit "/"; Lit "/"; Plus (Cls not_slash)].

(** [COMMENT_RE = ^\s*#] *)
Definition COMMENT_RE : re := Seqs [Bol; Star (Cls py_isspace); Lit "#"].

(** [VERSION_RE = ^v\d+(\.\d+)*$] with [re.I] *)
Definition VERSION_RE : re :=
  Seqs [Bol; Cls (re_ignorecase_lit (chr "v")); Plus (Cls py_isdecimal);
        Star (Seq (Lit ".") (Plus (Cls py_isdecimal))); Eol].

Definition normalize_and_map (s : str) : str :=
  let s := py_nfkc s in
  let s := map HOMOGLYPH_MAP s in
  filter (fun ch => py_category_C ch = false) s.

(** [raw.rstrip("\n\r")] *)
Definition chomp (raw : str) : str :=
  rstrip_by (fun c => is_char "010" c || is_char "013" c) raw.

(** The loop body down to the test on the leading dot: the candidate handed
    to the classifier, or [None] where the body hits [continue]. *)
Definition candidate (raw : str) : option str :=
  let line := chomp raw in
  if is_empty line then None
  else if re_match COMMENT_RE (lstrip_by py_isspace line) then None
  else
    let s := strip_by py_isspace line in
    let s := re_sub URL_SCHEME_HOST_RE [] s in
    let s := re_sub QUERY_FRAGMENT_RE [] s in
    let s := strip_by py_isspace s in
    if is_empty s then None
    else
      let s := re_sub LEADING_SLASHES [] s in
      let s := re_sub TRAILING_SLASHES [] s in
      if is_empty s then None
      else
        let s := collapse_slashes s in
        let s := normalize_and_map s in
        if is_empty s then None else Some s.

Definition too_long (a : args) (encoded : str) : bool :=
  bool_decide (Z.of_nat (length encoded) > maxlen a)%Z.

(** The [for s_proc in variants] loop of the dot branch. *)
Fixpoint emit_dot_variants (a : args) (line : str) (variants : list str)
    (st : state) : state :=
  match variants with
  | [] => st
  | s_proc :: rest =>
      let encoded := percent_encode_keep_slash s_proc in
      if too_long a encoded then
        emit_dot_variants a line rest
          (report a (drop_too_long_dotfile (length encoded) line) st)
      else emit_dot_variants a line rest (emit encoded st)
  end.

(** The core after the leading dot, lower-cased and stripped as the options
    say. *)
Definition dot_core (a : args) (s : str) : str :=
  let core := drop 1 s in
  if is_empty core then core
  else
    let core := if iis a then core else py_lower core in
    if strip_dot_ext a then re_sub DOT_EXT_RE [] core else core.

Definition dot_variants (a : args) (core : str) : list str :=
  (if drop_leading_dot a then [] else [chr "." :: core]) ++ [core].

(** The branch [if s.startswith('.')]. *)
Definition dot_branch (a : args) (line s : str) (st : state) : state :=
  if is_empty (drop 1 s) then st
  else
    let core := dot_core a s in
    if is_empty core then report a (drop_dot_empty line) st
    else emit_dot_variants a line (dot_variants a core) st.

Definition has_lfi (s : str) : bool :=
  contains (py "..") s || contains (py "./") s || re_search LFI_INDICATORS s.

(** [s.split('/')[-1]] *)
Definition last_segment (s : str) : str := List.last (split (chr "/") s) [].

Definition file_like (last : str) : bool :=
  re_search FILE_LIKE_RE (chr "/" :: last).

Definition trailing_variants (a : args) (encoded : str) : list str :=
  encoded ::
  (if add_trailing_variant a && negb (startswith (py ".") encoded)
      && negb (endswith (py "/") encoded)
   then [encoded ++ py "/"] else []).

(** The rest of the loop body, for entries without a leading dot. *)
Definition nondot_branch (a : args) (line s : str) (st : state) : state :=
  if has_lfi s then report a (drop_LFI line) st
  else
    let s := if iis a then s else py_lower s in
    let last := last_segment s in
    if file_like last && negb (re_match VERSION_RE last) then
      report a (drop_file_like line) st
    else
      let encoded := percent_encode_keep_slash s in
      if too_long a encoded then report a (drop_too_long (length encoded) line) st
      else foldl (fun st v => emit v st) st (trailing_variants a encoded).

Definition classify (a : args) (line s : str) (st : state) : state :=
  if startswith (py ".") s then dot_branch a line s st
  else nondot_branch a line s st.

(** One round of the main loop. *)
Definition process_line (a : args) (st : state) (raw : str) : state :=
  match candidate raw with
  | None => st
  | Some s => classify a (chomp raw) s st
  end.

(** The loop over the lines of the input file. *)
Definition run (a : args) (lines : list str) : state :=
  foldl (process_line a) initial lines.

Definition entries (a : args) (lines : list str) : list str :=
  out_order (out (run a lines)).

(** The lines written to [sys.stdout] at the end. *)
Definition written (a : args) (lines : list str) : list str :=
  if sorted a then py_sorted (entries a lines) else entries a lines.

End WithUnicode.

End CleanDirectory.

(** * [clean-directory-wordlist.py]

    The older sibling: the same loop, but a dot-prefixed entry is kept as it
    is (lower-cased, encoded, length-checked).  Its command line has no
    [--no-strip-dot-extensions] and no [--drop-leading-dot]; the two fields
    of [args] are not read here. *)

Module CleanDirectoryPlain.

Import CleanDirectory.

Section WithUnicode.
Context {U : PyUnicode}.

(** The branch [if s.startswith('.')]. *)
Definition dot_branch (a : args) (line s : str) (st : state) : state :=
  let s_proc := if iis a then s else py_lower s in
  let encoded := percent_encode_keep_slash s_proc in
  if too_long a encoded then
    report a (drop_too_long_dotfile (length encoded) line) st
  else emit encoded st.

Definition classify (a : args) (line s : str) (st : state) : state :=
  if startswith (py ".") s then dot_branch a line s st
  else nondot_branch a line s st.

Definition process_line (a : args) (st : state) (raw : str) : state :=
  match candidate raw with
  | None => st
  | Some s => classify a (chomp raw) s st
  end.

Definition run (a : args) (lines : list str) : state :=
  foldl (process_line a) initial lines.

Definition entries (a : args) (lines : list str) : list str :=
  out_order (out (run a lines)).

End WithUnicode.

End CleanDirectoryPlain.

(** * [clean_api_wordlist.py] *)

Module CleanApi.

Record opts := {
  leading_slash : bool;
  no_leading_slash : bool;
  lower : bool;
  percent : bool;
  add_trailing_variant : bool;
  strip_comments : bool;
  collapse_slashes_opt : bool;
  verbose : bool
}.

Definition default_opts : opts := {|
  leading_slash := false;
  no_leading_slash := false;
  lower := false;
  percent := false;
  add_trailing_variant := false;
  strip_comments := true;
  collapse_slashes_opt := true;
  verbose := false
|}.

Definition BOM : char := 65279.

(** [INLINE_COMMENT_PATTERNS = [r' #', r' //']] *)
Definition INLINE_COMMENT_PATTERNS : list str := [py " #"; py " //"].

(** [MULTI_SLASH_RE = /+] *)
Definition MULTI_SLASH_RE : re := Plus (Lit "/").

Definition collapse_slashes (s : str) : str := re_sub MULTI_SLASH_RE (py "/") s.

Definition remove_trailing_slash (s : str) : str :=
  if bool_decide (s = py "/") then s
  else re_sub (Seq (Plus (Lit "/")) Eol) [] s.

(** The loop [for seq in ...: idx = line.find(seq); if idx != -1: return
    line[:idx]], with [line] itself returned at the end. *)
Fixpoint cut_inline (seqs : list str) (line : str) : str :=
  match seqs with
  | [] => line
  | seq :: rest =>
      match find seq line with
      | Some idx => take idx line
      | None => cut_inline rest line
      end
  end.

Section WithUnicode.
Context {U : PyUnicode}.

(** [COMMENT_RE = ^\s*(#|//)] *)
Definition COMMENT_RE : re :=
  Seqs [Bol; Star (Cls py_isspace); Alt (Lit "#") (Seq (Lit "/") (Lit "/"))].

Definition strip_comment (line : str) : str :=
  let line := lstrip_by (fun c => c =? BOM) line in
  if re_match COMMENT_RE line then []
  else cut_inline INLINE_COMMENT_PATTERNS line.

(** The body of the loop of [process_lines]; [None] where it hits
    [continue] before the entry is complete. *)
Definition normalized (o : opts) (raw : str) : option str :=
  let line := rstrip_by (fun c => is_char "013" c || is_char "010" c) raw in
  if is_empty line then None
  else
    let line := if strip_comments o then strip_comment line else line in
    if strip_comments o && is_empty line then None
    else
      let line := strip_by py_isspace line in
      if is_empty line then None
      else
        let line := py_nfkc line in
        let line := if collapse_slashes_opt o then collapse_slashes line else line in
        let line := remove_trailing_slash line in
        let line :=
          if leading_slash o then
            if negb (startswith (py "/") line) then chr "/" :: line
            else re_sub (Seq Bol (Plus (Lit "/"))) (py "/") line
          else if no_leading_slash o then re_sub (Seq Bol (Plus (Lit "/"))) [] line
          else line in
        let line := if lower o then py_lower line else line in
        let line := if percent o then percent_encode_keep_slash line else line in
        let line := strip_by py_isspace line in
        if is_empty line then None else Some line.

Definition process_line (o : opts) (acc : output) (raw : str) : output :=
  match normalized o raw with
  | None => acc
  | Some line =>
      if decide (line ∈ seen acc) then acc
      else
        let acc := add_entry line acc in
        if add_trailing_variant o && negb (endswith (py "/") line)
        then add_entry (line ++ py "/") acc
        else acc
  end.

Definition process_lines (lines : list str) (o : opts) : list str :=
  out_order (foldl (process_line o) empty_output lines).

End WithUnicode.

End CleanApi.

(** * [convert_files_into_directories.py] *)

Module ConvertFiles.

Definition DEFAULT_EXTS : list str := map py [
  "tar.gz"; "tar.bz2"; "tar.xz"; "tar"; "tgz"; "tbz2";
  "zip"; "rar"; "7z"; "gz"; "bz2"; "xz";
  "sql"; "sql.gz"; "db"; "bak"; "old"; "orig"; "save";
  "php"; "php5"; "phtml"; "asp"; "aspx"; "jsp";
  "html"; "htm"; "shtml"; "xhtml";
  "js"; "css"; "json"; "xml"; "yml"; "yaml";
  "txt"; "md"; "csv"; "log";
  "conf"; "cfg"; "ini"; "env";
  "pem"; "key"; "crt"; "cer";
  "exe"; "bin"; "dll";
  "img"; "iso";
  "pdf"; "doc"; "docx"; "xls"; "xlsx"; "ppt"; "pptx"
]%string.

(** [sorted(..., key=lambda s: -len(s))] as a stable insertion sort. *)
Fixpoint insert_by_len (e : str) (l : list str) : list str :=
  match l with
  | [] => [e]
  | x :: l' =>
      if (length e <? length x)%nat then x :: insert_by_len e l'
      else e :: l
  end.

Definition sort_by_len (l : list str) : list str :=
  foldr insert_by_len [] l.

(** [sorted(set(ext_list), key=lambda s: -len(s))].  Python leaves the
    order in which a set is walked open, so the order among extensions of
    one length is not fixed by the script; the model walks the set in the
    order of the list. *)
Definition sorted_exts (ext_list : list str) : list str :=
  sort_by_len (remove_dups ext_list).

(** * PurePosixPath, as far as the script uses it *)

Record posix_path := {
  root : str;
  parts : list str
}.

Definition leading_slashes (s : str) : nat :=
  (length s - length (lstrip_by (is_char "/") s))%nat.

(** [PurePosixPath(s)]: the root is [//] for exactly two leading slashes
    and [/] for any other number of them; empty and [.] components go. *)
Definition PurePosixPath (s : str) : posix_path := {|
  root := match leading_slashes s with
          | O => []
          | 2%nat => py "//"
          | _ => py "/"
          end;
  parts := filter (fun x => x <> [] /\ x <> py ".") (split (chr "/") s)
|}.

(** [str(p)] *)
Definition path_str (p : posix_path) : str :=
  if is_empty (root p) && bool_decide (parts p = []) then py "."
  else root p ++ join (py "/") (parts p).

(** [p.name] *)
Definition path_name (p : posix_path) : str := List.last (parts p) [].

(** [p.parent] *)
Definition path_parent (p : posix_path) : posix_path :=
  {| root := root p; parts := removelast (parts p) |}.

Section WithUnicode.
Context {U : PyUnicode}.

(** One extension of the table, every character escaped and matched
    case-insensitively. *)
Definition ext_alternative (e : str) : re := Lits re_ignorecase_lit e.

(** [(?:\.(?:e1|e2|...))+$] with [re.IGNORECASE], for the alternatives
    [e1], [e2], ... in this order. *)
Definition ext_pattern (alternatives : list str) : re :=
  Seqs [Plus (Seq (Lit ".") (Alts (map ext_alternative alternatives))); Eol].

Definition build_ext_regex (ext_list : list str) : re :=
  ext_pattern (sorted_exts ext_list).

Definition EXT_RE : re := build_ext_regex DEFAULT_EXTS.

Definition BOM : char := 65279.

(** The loop over [" #"] and [" //"] of [strip_comment]. *)
Fixpoint cut_inline (seqs : list str) (line : str) : str :=
  match seqs with
  | [] => line
  | seq :: rest =>
      match find seq line with
      | Some idx => take idx line
      | None => cut_inline rest line
      end
  end.

Definition strip_comment (line : str) : str :=
  let line := lstrip_by (fun c => c =? BOM) line in
  let stripped := strip_by py_isspace line in
  if startswith (py "#") stripped then []
  else if startswith (py "//") stripped then []
  else cut_inline [py " #"; py " //"] line.

Definition remove_extensions (name : str) (ext_re : re) : str :=
  if is_empty name then name
  else
    let p := PurePosixPath name in
    let stem := path_name p in
    let new_stem := re_sub ext_re [] stem in
    if bool_decide (new_stem = stem) then path_str p
    else
      let parent := path_str (path_parent p) in
      if bool_decide (parent = py ".") || is_empty parent then new_stem
      else join (py "/") [parent; new_stem].

(** [/{2,}] *)
Definition SLASH_RUN : re := Seq (Times 2 (Lit "/")) (Star (Lit "/")).

Definition normalize (line : str) (lower : bool) : str :=
  let s := strip_by py_isspace line in
  let s := re_sub SLASH_RUN (py "/") s in
  if lower then py_lower s else s.

Definition is_marker (c : char) : bool :=
  is_char "!" c || is_char "@" c || is_char "#" c || is_char "$" c || is_char "%" c.

(** [^[!@#\$%]] *)
Definition MARKER_RE : re := Seq Bol (Cls is_marker).

(** [^\./+] *)
Definition LEADING_DOT_SLASH : re := Seqs [Bol; Lit "."; Plus (Lit "/")].

Record options := {
  basename_only : bool;
  add_trailing_slash : bool;
  lower : bool;
  ext_list : option (list str);
  keep_markers : bool
}.

Definition default_options : options := {|
  basename_only := false;
  add_trailing_slash := false;
  lower := false;
  ext_list := None;
  keep_markers := false
|}.

(** [ext_list or DEFAULT_EXTS] *)
Definition ext_table (o : options) : list str :=
  match ext_list o with
  | None | Some [] => DEFAULT_EXTS
  | Some l => l
  end.

(** The body of the loop of [process_file]: the entry a line yields, or
    [None] where the body hits [continue]. *)
Definition entry_of (o : options) (raw : str) : option str :=
  let ext_re := build_ext_regex (ext_table o) in
  let line := strip_comment raw in
  if is_empty line then None
  else
    let line := strip_by py_isspace line in
    if is_empty line then None
    else if negb (keep_markers o) && re_match MARKER_RE line then None
    else
      let line := normalize line (lower o) in
      let candidate :=
        if basename_only o then re_sub ext_re [] (path_name (PurePosixPath line))
        else remove_extensions line ext_re in
      let candidate := strip_by py_isspace candidate in
      if is_empty candidate then None
      else
        let candidate := re_sub LEADING_DOT_SLASH [] candidate in
        let candidate :=
          if add_trailing_slash o && negb (endswith (py "/") candidate)
          then candidate ++ py "/" else candidate in
        Some candidate.

Definition process_line (o : options) (acc : output) (raw : str) : output :=
  match entry_of o raw with
  | None => acc
  | Some candidate => add_entry candidate acc
  end.

(** [process_file], on the lines of the input file. *)
Definition process_file (lines : list str) (o : options) : list str :=
  out_order (foldl (process_line o) empty_output lines).

End WithUnicode.

End ConvertFiles.

(** * The matcher against a declarative reading of the patterns *)

Definition bnext (b : bool) (u : str) : bool := b && is_empty u.

(** [matches r b u v]: the pattern [r] matches the piece [u] when [v] follows
    it and [b] says whether [u] starts the whole string. *)
Inductive matches : re -> bool -> str -> str -> Prop :=
| m_eps b v : matches Eps b [] v
| m_bol v : matches Bol true [] v
| m_eol b v : at_eol v = true -> matches Eol b [] v
| m_cls p b c v : p c = true -> matches (Cls p) b [c] v
| m_seq r1 r2 b u1 u2 v :
    matches r1 b u1 (u2 ++ v) -> matches r2 (bnext b u1) u2 v ->
    matches (Seq r1 r2) b (u1 ++ u2) v
| m_alt_l r1 r2 b u v : matches r1 b u v -> matches (Alt r1 r2) b u v
| m_alt_r r1 r2 b u v : matches r2 b u v -> matches (Alt r1 r2) b u v
| m_star_nil r b v : matches (Star r) b [] v
| m_star_cons r b u1 u2 v :
    u1 <> [] -> matches r b u1 (u2 ++ v) -> matches (Star r) false u2 v ->
    matches (Star r) b (u1 ++ u2) v.

Lemma bnext_nil b : bnext b [] = b.
Proof. unfold bnext. simpl. by rewrite andb_true_r. Qed.

Lemma bnext_cons b c u : bnext b (c :: u) = false.
Proof. unfold bnext. simpl. by rewrite andb_false_r. Qed.

Lemma bnext_app b u1 u2 : bnext (bnext b u1) u2 = bnext b (u1 ++ u2).
Proof. destruct u1; [by rewrite bnext_nil | simpl; by rewrite !bnext_cons]. Qed.

Lemma bnext_nonempty b u : u <> [] -> bnext b u = false.
Proof. destruct u; [done | intros _; apply bnext_cons]. Qed.

Section Matcher.
Context {A : Type}.
Implicit Types (k : bool -> str -> option A).

(** What the matcher returns, the continuation returned at the end of a
    piece the pattern matches. *)
Definition sound_at (r : re) : Prop :=
  forall b s k x, rmatch r b s k = Some x ->
    exists u v, s = u ++ v /\ matches r b u v /\ k (bnext b u) v = Some x.

Lemma star_rounds_sound r :
  sound_at r ->
  forall n b s k x, star_rounds (rmatch r) k n b s = Some x ->
    exists u v, s = u ++ v /\ matches (Star r) b u v /\ k (bnext b u) v = Some x.
Proof.
  intros IH n. induction n as [|n IHn]; intros b s k x H; simpl in H.
  - exists [], s. rewrite bnext_nil. eauto using matches.
  - destruct (rmatch r b s _) as [y|] eqn:E.
    + injection H as ->. apply IH in E as (u1 & v1 & -> & Hm & Hk).
      destruct (length v1 <? length (u1 ++ v1))%nat eqn:Hlt; [|done].
      apply Nat.ltb_lt in Hlt. rewrite length_app in Hlt.
      assert (u1 <> []) as Hne by (intros ->; simpl in Hlt; lia).
      rewrite (bnext_nonempty _ _ Hne) in Hk.
      apply IHn in Hk as (u2 & v & -> & Hm2 & Hk).
      exists (u1 ++ u2), v. rewrite <- app_assoc. split; [done|].
      split; [by apply m_star_cons|].
      rewrite <- Hk. f_equal. rewrite (bnext_nonempty b); [|by destruct u1].
      by destruct u2.
    + exists [], s. rewrite bnext_nil. eauto using matches.
Qed.

Lemma rmatch_sound r : sound_at r.
Proof.
  induction r as [| | |p|r1 IH1 r2 IH2|r1 IH1 r2 IH2|r IH]; intros b s k x H; simpl in H.
  - exists [], s. rewrite bnext_nil. eauto using matches.
  - destruct b; [|done]. exists [], s. eauto using matches.
  - destruct (at_eol s) eqn:E; [|done]. exists [], s. rewrite bnext_nil. eauto using matches.
  - destruct s as [|c s]; [done|]. destruct (p c) eqn:E; [|done].
    exists [c], s. rewrite bnext_cons. eauto using matches.
  - apply IH1 in H as (u1 & v1 & -> & Hm1 & H).
    apply IH2 in H as (u2 & v & -> & Hm2 & H).
    exists (u1 ++ u2), v. rewrite <- app_assoc, <- bnext_app. eauto using matches.
  - destruct (rmatch r1 b s k) as [y|] eqn:E.
    + injection H as ->. apply IH1 in E as (u & v & ? & ? & ?). eauto 6 using matches.
    + apply IH2 in H as (u & v & ? & ? & ?). eauto 6 using matches.
  - by apply (star_rounds_sound r IH) in H.
Qed.

(** Whenever the pattern matches a piece after which the continuation
    succeeds, the matcher succeeds (with its first choice, which may be
    another piece). *)
Definition complete_at (r : re) : Prop :=
  forall b u v k, matches r b u v -> is_Some (k (bnext b u) v) ->
    is_Some (rmatch r b (u ++ v) k).

Lemma star_rounds_complete r :
  complete_at r ->
  forall n b u v k, (length (u ++ v) <= n)%nat ->
    matches (Star r) b u v -> is_Some (k (bnext b u) v) ->
    is_Some (star_rounds (rmatch r) k n b (u ++ v)).
Proof.
  intros IH n. induction n as [|n IHn]; intros b u v k Hlen Hm Hk.
  - destruct u; [|simpl in Hlen; lia]. simpl. by rewrite bnext_nil in Hk.
  - inversion Hm as [| | | | | | |r' b' v'|r' b' u1 u2 v' Hne Hm1 Hm2]; subst.
    + simpl. rewrite bnext_nil in Hk. by destruct (rmatch r b v _).
    + cbn [star_rounds].
      assert (is_Some (rmatch r b ((u1 ++ u2) ++ v)
        (fun b' s' => if (length s' <? length ((u1 ++ u2) ++ v))%nat
                      then star_rounds (rmatch r) k n b' s' else None))) as [y Hy].
      { rewrite <- app_assoc. apply IH; [done|].
        rewrite (bnext_nonempty _ _ Hne).
        assert (length (u2 ++ v) < length (u1 ++ u2 ++ v))%nat as Hlt.
        { rewrite (length_app u1). destruct u1; [done | simpl; lia]. }
        apply Nat.ltb_lt in Hlt as ->.
        apply IHn; [rewrite <- app_assoc in Hlen; rewrite (length_app u1) in Hlen;
                    destruct u1; [done | simpl in Hlen; lia] | done |].
        replace (bnext false u2) with (bnext b (u1 ++ u2)); [done|].
        rewrite (bnext_nonempty b); [by destruct u2 | by destruct u1]. }
      by rewrite Hy.
Qed.

Lemma rmatch_complete r : complete_at r.
Proof.
  induction r as [| | |p|r1 IH1 r2 IH2|r1 IH1 r2 IH2|r IH]; intros b u v k Hm Hk;
    inversion Hm; subst; simpl.
  - by rewrite bnext_nil in Hk.
  - done.
  - rewrite bnext_nil in Hk.
    match goal with H : at_eol _ = true |- _ => by rewrite H end.
  - rewrite bnext_cons in Hk.
    match goal with H : p _ = true |- _ => by rewrite H end.
  - rewrite <- app_assoc. apply IH1; [done|]. apply IH2; [done|]. by rewrite bnext_app.
  - match goal with H : matches r1 _ _ _ |- _ => destruct (IH1 _ _ _ k H Hk) as [y ->] end.
    done.
  - destruct (rmatch r1 b (u ++ v) k); [done|]. by apply IH2.
  - rewrite bnext_nil in Hk.
    apply (star_rounds_complete r IH _ b [] v); [done | apply m_star_nil | by rewrite bnext_nil].
  - apply (star_rounds_complete r IH); [done | by apply m_star_cons | done].
Qed.

End Matcher.

(** ** [match], [search] at the level of [matches] *)

Lemma match_at_Some r b s rest :
  match_at r b s = Some rest -> exists u, s = u ++ rest /\ matches r b u rest.
Proof.
  intros H. apply rmatch_sound in H as (u & v & -> & Hm & [= ->]). eauto.
Qed.

Lemma match_at_is_Some r b u v :
  matches r b u v -> is_Some (match_at r b (u ++ v)).
Proof. intros H. by apply rmatch_complete. Qed.

Lemma match_at_None r b s :
  (forall u v, s = u ++ v -> ~ matches r b u v) -> match_at r b s = None.
Proof.
  intros H. destruct (match_at r b s) as [rest|] eqn:E; [|done].
  apply match_at_Some in E as (u & -> & Hm). by destruct (H u rest).
Qed.

Lemma re_match_true r s :
  re_match r s = true <-> exists u v, s = u ++ v /\ matches r true u v.
Proof.
  unfold re_match. rewrite bool_decide_eq_true. split.
  - intros [rest H]. apply match_at_Some in H as (u & -> & Hm). eauto.
  - intros (u & v & -> & Hm). by apply match_at_is_Some.
Qed.

Lemma search_from_true r b s :
  search_from r b s = true <->
  exists pre u v, s = pre ++ u ++ v /\ matches r (bnext b pre) u v.
Proof.
  revert b. induction s as [|c s IH]; intros b; simpl.
  - destruct (match_at r b []) as [rest|] eqn:E.
    + split; [intros _|done]. apply match_at_Some in E as (u & E & Hm).
      exists [], u, rest. by rewrite bnext_nil.
    + split; [done|]. intros (pre & u & v & E' & Hm).
      destruct pre; [|done]. rewrite bnext_nil in Hm. simpl in E'.
      pose proof (match_at_is_Some _ _ _ _ Hm) as [y Hy]. rewrite <- E' in Hy. congruence.
  - destruct (match_at r b (c :: s)) as [rest|] eqn:E.
    + split; [intros _|done]. apply match_at_Some in E as (u & E & Hm).
      exists [], u, rest. by rewrite bnext_nil.
    + rewrite IH. split.
      * intros (pre & u & v & -> & Hm). exists (c :: pre), u, v.
        rewrite bnext_cons. split; [done|]. by destruct pre.
      * intros (pre & u & v & E' & Hm). destruct pre as [|c' pre].
        -- rewrite bnext_nil in Hm. simpl in E'.
           pose proof (match_at_is_Some _ _ _ _ Hm) as [y Hy]. rewrite <- E' in Hy. congruence.
        -- injection E' as -> ->. exists pre, u, v. split; [done|].
           rewrite bnext_cons in Hm. by destruct pre.
Qed.

Lemma re_search_true r s :
  re_search r s = true <->
  exists pre u v, s = pre ++ u ++ v /\ matches r (is_empty pre) u v.
Proof. unfold re_search. rewrite search_from_true. done. Qed.

(** ** Stars of one class, bounded repetitions *)

(** The rounds of [p*] by recursion on the string. *)
Fixpoint star_cls {A : Type} (p : char -> bool) (k : bool -> str -> option A)
    (b : bool) (s : str) : option A :=
  match s with
  | c :: s' =>
      if p c then
        match star_cls p k false s' with
        | Some x => Some x
        | None => k b s
        end
      else k b s
  | [] => k b s
  end.

Lemma star_rounds_cls {A : Type} p (k : bool -> str -> option A) n b s :
  (length s <= n)%nat -> star_rounds (rmatch (Cls p)) k n b s = star_cls p k b s.
Proof.
  revert b s. induction n as [|n IH]; intros b s Hn.
  - destruct s; [done | simpl in Hn; lia].
  - destruct s as [|c s]; [done|]. cbn [star_rounds rmatch star_cls].
    destruct (p c); [|done].
    assert ((length s <? length (c :: s))%nat = true) as -> by (apply Nat.ltb_lt; simpl; lia).
    rewrite IH; [done | simpl in Hn; lia].
Qed.

Lemma rmatch_star_cls {A : Type} p (k : bool -> str -> option A) b s :
  rmatch (Star (Cls p)) b s k = star_cls p k b s.
Proof. simpl. by apply star_rounds_cls. Qed.

(** With a continuation that takes anything, [p*] takes the longest run. *)
Lemma match_at_star_cls p b s :
  match_at (Star (Cls p)) b s = Some (lstrip_by p s).
Proof.
  unfold match_at. rewrite rmatch_star_cls. revert b.
  induction s as [|c s IH]; intros b; simpl; [done|].
  destruct (p c); [by rewrite IH | done].
Qed.

Lemma matches_star_cls p b u v :
  matches (Star (Cls p)) b u v <-> forallb p u = true.
Proof.
  split.
  - remember (Star (Cls p)) as r eqn:Er. intros H.
    induction H as [| | | | | | | |r b u1 u2 v Hne H1 _ H2 IH2]; try discriminate; [done|].
    injection Er as ->. inversion H1; subst. simpl. rewrite IH2 by done.
    by match goal with H : p _ = true |- _ => rewrite H end.
  - revert b. induction u as [|c u IH]; intros b H; [constructor|].
    simpl in H. apply andb_true_iff in H as [Hc Hu].
    apply (m_star_cons (Cls p) b [c] u v); [done | by constructor | by apply IH].
Qed.

Lemma matches_times_cls n p b u v :
  matches (Times n (Cls p)) b u v <-> length u = n /\ forallb p u = true.
Proof.
  revert b u. induction n as [|n IH]; intros b u; simpl.
  - split; [by inversion 1 | intros [->%nil_length_inv _]; constructor].
  - split.
    + inversion 1 as [| | | |? ? ? u1 u2 ? H1 H2| | | |]; subst.
      inversion H1; subst. apply IH in H2 as [<- H2]. simpl. rewrite H2.
      by match goal with H : p _ = true |- _ => rewrite H end.
    + intros [Hlen H]. destruct u as [|c u]; [done|]. simpl in *.
      apply andb_true_iff in H as [Hc Hu].
      apply (m_seq (Cls p) _ b [c] u v); [by constructor | apply IH; split; [lia | done]].
Qed.

Lemma matches_upto_cls n p b u v :
  matches (Upto n (Cls p)) b u v <-> (length u <= n)%nat /\ forallb p u = true.
Proof.
  revert b u. induction n as [|n IH]; intros b u; simpl.
  - split; [by inversion 1 | intros [Hl _]; destruct u; [constructor | simpl in Hl; lia]].
  - unfold Opt. split.
    + inversion 1 as [| | | | |? ? ? ? ? H1|? ? ? ? ? H1| |]; subst.
      * inversion H1 as [| | | |? ? ? u1 u2 ? H2 H3| | | |]; subst.
        inversion H2; subst. apply IH in H3 as [Hl H3]. simpl. rewrite H3.
        match goal with H : p _ = true |- _ => rewrite H end. split; [lia | done].
      * inversion H1; subst. simpl. split; [lia | done].
    + intros [Hlen H]. destruct u as [|c u]; [apply m_alt_r; constructor|]. simpl in *.
      apply andb_true_iff in H as [Hc Hu]. apply m_alt_l.
      apply (m_seq (Cls p) _ b [c] u v); [by constructor | apply IH; split; [lia | done]].
Qed.

Lemma matches_between_cls lo hi p b u v :
  (lo <= hi)%nat ->
  matches (Between lo hi (Cls p)) b u v <->
  (lo <= length u <= hi)%nat /\ forallb p u = true.
Proof.
  intros Hlh. unfold Between. split.
  - inversion 1 as [| | | |? ? ? u1 u2 ? H1 H2| | | |]; subst.
    apply matches_times_cls in H1 as [<- H1]. apply matches_upto_cls in H2 as [Hl H2].
    rewrite length_app, forallb_app, H1, H2. split; [lia | done].
  - intros [Hlen H]. rewrite <- (take_drop lo u).
    rewrite <- (take_drop lo u), forallb_app in H. apply andb_true_iff in H as [H1 H2].
    apply m_seq.
    + apply matches_times_cls. split; [rewrite length_take; lia | done].
    + apply matches_upto_cls. split; [rewrite length_drop; lia | done].
Qed.

(** ** [sub] *)

Lemma search_from_false r b s :
  (forall pre u v, s = pre ++ u ++ v -> ~ matches r (bnext b pre) u v) ->
  search_from r b s = false.
Proof.
  intros H. destruct (search_from r b s) eqn:E; [|done].
  apply search_from_true in E as (pre & u & v & -> & Hm). by destruct (H pre u v).
Qed.

(** Where the pattern matches nowhere, [sub] returns the string. *)
Lemma sub_from_no_match r repl b s :
  search_from r b s = false -> sub_from r repl b O s = s.
Proof.
  revert b. induction s as [|c s IH]; intros b H; simpl in *.
  - by destruct (match_at r b []).
  - destruct (match_at r b (c :: s)); [done|]. by rewrite IH.
Qed.

Lemma sub_from_skip r repl b s :
  sub_from r repl b (length s) s = sub_from r repl (bnext b s) O [].
Proof.
  revert b. induction s as [|c s IH]; intros b; [by rewrite bnext_nil|].
  simpl. rewrite IH, bnext_cons. by destruct s.
Qed.

(** [suffix_stripped P s r]: [r] is what is left of [s] when its longest
    ending in [P] is taken off (nothing, where no ending is in [P]). *)
Definition suffix_stripped (P : str -> Prop) (s r : str) : Prop :=
  exists g, s = r ++ g /\ (g = [] \/ P g) /\
    forall r' g', s = r' ++ g' -> P g' -> (length r <= length r')%nat.

(** A pattern that ends in [$] and takes a piece in [P]: on a string that a
    line feed does not end, [sub] with the empty replacement takes off the
    longest ending in [P]. *)
Lemma sub_from_end_anchored r (P : str -> Prop) :
  (forall b u v, matches r b u v <-> P u /\ at_eol v = true) ->
  ~ P [] ->
  forall b s, List.last s 0 <> chr "010" ->
    suffix_stripped P s (sub_from r [] b O s).
Proof.
  intros Hr Hnil b s. revert b. induction s as [|c s IH]; intros b Hlast.
  - exists []. simpl. destruct (match_at r b []) as [rest|] eqn:E.
    + apply match_at_Some in E as (u & Eu & Hm). symmetry in Eu.
      apply app_eq_nil in Eu as [-> ->]. apply Hr in Hm as [Hm _]. by destruct Hnil.
    + split_and!; [done | by left | intros; simpl; lia].
  - cbn [sub_from]. destruct (match_at r b (c :: s)) as [rest|] eqn:E.
    + apply match_at_Some in E as (u & Eu & Hm). apply Hr in Hm as [Hu Hv].
      assert (rest = []) as ->.
      { destruct rest as [|d [|? ?]]; [done | | done]. exfalso. apply Hlast.
        rewrite Eu, List.last_last. simpl in Hv. unfold is_char in Hv. by apply N.eqb_eq in Hv. }
      rewrite app_nil_r in Eu. subst u. cbn [length]. rewrite Nat.sub_0_r.
      cbn [app]. rewrite sub_from_skip. simpl.
      destruct (match_at r _ []) as [rest|] eqn:E.
      { apply match_at_Some in E as (u & Eu & Hm). symmetry in Eu.
        apply app_eq_nil in Eu as [-> ->]. apply Hr in Hm as [Hm _]. by destruct Hnil. }
      exists (c :: s). split_and!; [done | by right | intros; simpl; lia].
    + destruct (IH false) as (g & Es & Hg & Hmin).
      { destruct s; [by vm_compute | exact Hlast]. }
      exists g. split_and!; [simpl; by f_equal | done |].
      intros r' g' Eq HP. destruct r' as [|c' r'].
      * simpl in Eq. subst g'. exfalso.
        assert (is_Some (match_at r b ((c :: s) ++ []))) as [y Hy].
        { apply match_at_is_Some, Hr. by split. }
        rewrite app_nil_r in Hy. congruence.
      * injection Eq as -> Eq. specialize (Hmin r' g' Eq HP). simpl. lia.
Qed.

(** ** Stars of a group *)

(** A star matches a sequence of non-empty pieces, each matched by its
    body. *)
Lemma star_pieces r (Q : str -> Prop) :
  (forall b u v, matches r b u v -> Q u) ->
  forall b u v, matches (Star r) b u v ->
    exists gs, u = concat gs /\ Forall (fun g => g <> [] /\ Q g) gs.
Proof.
  intros Hr b u v H. remember (Star r) as r' eqn:Er.
  induction H as [| | | | | | | |r0 b u1 u2 v Hne H1 _ H2 IH2]; try discriminate.
  - by exists [].
  - injection Er as ->. destruct (IH2 eq_refl) as (gs & -> & Hgs).
    exists (u1 :: gs). split; [done|]. constructor; [|done]. split; [done|]. by eapply Hr.
Qed.

Lemma pieces_star r (Q : str -> Prop) :
  (forall b u v, Q u -> matches r b u v) ->
  forall gs b v, Forall (fun g => g <> [] /\ Q g) gs -> matches (Star r) b (concat gs) v.
Proof.
  intros Hr gs. induction gs as [|g gs IH]; intros b v Hgs; simpl; [constructor|].
  apply Forall_cons in Hgs as [[Hne Hg] Hgs].
  apply m_star_cons; [done | by apply Hr | by apply IH].
Qed.

(** [matches] does not look at the flag, for a pattern without [^]. *)
Fixpoint has_bol (r : re) : bool :=
  match r with
  | Bol => true
  | Seq r1 r2 | Alt r1 r2 => has_bol r1 || has_bol r2
  | Star r1 => has_bol r1
  | _ => false
  end.

Lemma matches_flag r b b' u v :
  has_bol r = false -> matches r b u v -> matches r b' u v.
Proof.
  intros Hr H. revert b'. induction H; intros b'; simpl in Hr;
    try apply orb_false_iff in Hr as [Hr1 Hr2]; try discriminate; eauto using matches.
Qed.

(** ** Reading [matches] off a pattern *)

Lemma matches_lit a b u v : matches (Lit a) b u v <-> u = [chr a].
Proof.
  unfold Lit. split.
  - inversion 1 as [| | |? ? c ? Hc| | | | |]; subst. unfold is_char in Hc.
    by apply N.eqb_eq in Hc as ->.
  - intros ->. apply m_cls. unfold is_char. apply N.eqb_refl.
Qed.

Lemma matches_cls p b u v : matches (Cls p) b u v <-> exists c, u = [c] /\ p c = true.
Proof.
  split; [inversion 1; subst; eauto | intros (c & -> & Hc); by constructor].
Qed.

Lemma matches_seq r1 r2 b u v :
  matches (Seq r1 r2) b u v <->
  exists u1 u2, u = u1 ++ u2 /\ matches r1 b u1 (u2 ++ v) /\ matches r2 (bnext b u1) u2 v.
Proof.
  split; [inversion 1; subst; eauto | intros (u1 & u2 & -> & H1 & H2); by constructor].
Qed.

Lemma matches_alt r1 r2 b u v :
  matches (Alt r1 r2) b u v <-> matches r1 b u v \/ matches r2 b u v.
Proof.
  split; [inversion 1; subst; eauto | intros [H|H]; [by apply m_alt_l | by apply m_alt_r]].
Qed.

Lemma matches_eps b u v : matches Eps b u v <-> u = [].
Proof. split; [by inversion 1 | intros ->; constructor]. Qed.

Lemma matches_bol b u v : matches Bol b u v <-> u = [] /\ b = true.
Proof. split; [by inversion 1 | intros [-> ->]; constructor]. Qed.

Lemma matches_eol b u v : matches Eol b u v <-> u = [] /\ at_eol v = true.
Proof. split; [by inversion 1 | intros [-> H]; by constructor]. Qed.

Lemma matches_plus_cls p b u v :
  matches (Plus (Cls p)) b u v <-> u <> [] /\ forallb p u = true.
Proof.
  unfold Plus. rewrite matches_seq. split.
  - intros (u1 & u2 & -> & (c & -> & Hc)%matches_cls & H2%matches_star_cls).
    simpl. by rewrite Hc, H2.
  - intros [Hne H]. destruct u as [|c u]; [done|]. simpl in H.
    apply andb_true_iff in H as [Hc Hu]. exists [c], u.
    split_and!; [done | by apply m_cls | by apply matches_star_cls].
Qed.

(** A string that a line feed does not end: [$] then means the end. *)
Lemma at_eol_no_newline v : chr "010" ∉ v -> at_eol v = true -> v = [].
Proof.
  intros Hnl H. destruct v as [|c [|? ?]]; [done | | done].
  simpl in H. unfold is_char in H. apply N.eqb_eq in H as ->. set_solver.
Qed.

(** Membership in a string put together with [++] and [::]. *)
Ltac elem_of_pieces :=
  repeat first [rewrite elem_of_app | rewrite elem_of_cons]; tauto.

(** ** Running the matcher on a sequence *)

Lemma match_at_seq r1 r2 b s :
  match_at (Seq r1 r2) b s = rmatch r1 b s (fun b' s' => match_at r2 b' s').
Proof. reflexivity. Qed.

Lemma rmatch_cls_cons {A : Type} p b c s (k : bool -> str -> option A) :
  rmatch (Cls p) b (c :: s) k = if p c then k false s else None.
Proof. reflexivity. Qed.

Lemma rmatch_cls_nil {A : Type} p b (k : bool -> str -> option A) :
  rmatch (Cls p) b [] k = None.
Proof. reflexivity. Qed.

Lemma rmatch_bol {A : Type} b s (k : bool -> str -> option A) :
  rmatch Bol b s k = if b then k b s else None.
Proof. reflexivity. Qed.

Lemma match_at_eol b s : match_at Eol b s = if at_eol s then Some s else None.
Proof. reflexivity. Qed.

(** ** One or more groups *)

Lemma matches_plus_pieces r (Q : str -> Prop) :
  (forall b u v, matches r b u v <-> Q u) ->
  (forall u, Q u -> u <> []) ->
  forall b u v,
    matches (Plus r) b u v <-> exists gs, gs <> [] /\ Forall Q gs /\ u = concat gs.
Proof.
  intros Hr Hne b u v. unfold Plus. rewrite matches_seq. split.
  - intros (u1 & u2 & -> & H1%Hr & H2).
    apply (star_pieces r Q) in H2 as (gs & -> & Hgs); [|intros ???; apply Hr].
    exists (u1 :: gs). split_and!; [done | | done].
    constructor; [done|]. eapply Forall_impl; [exact Hgs|]. by intros g [_ ?].
  - intros (gs & Hgs & HQ & ->). destruct gs as [|g gs]; [done|].
    apply Forall_cons in HQ as [Hg HQ]. exists g, (concat gs).
    split_and!; [done | by apply Hr |].
    apply (pieces_star r Q); [intros ???; apply Hr|].
    eapply Forall_impl; [exact HQ|]. intros g' Hg'. split; [by apply Hne | done].
Qed.

(** [re.sub] with the empty replacement, for a pattern [(group)+$]. *)
Lemma re_sub_groups_at_end r (Q : str -> Prop) s :
  (forall b u v, matches r b u v <-> Q u) ->
  (forall u, Q u -> u <> []) ->
  List.last s 0 <> chr "010" ->
  suffix_stripped (fun u => exists gs, gs <> [] /\ Forall Q gs /\ u = concat gs)
    s (re_sub (Seq (Plus r) Eol) [] s).
Proof.
  intros Hr Hne Hlast. unfold re_sub. apply sub_from_end_anchored; [| |done].
  - intros b u v. rewrite matches_seq. split.
    + intros (u1 & u2 & -> & H1 & [-> Hv]%matches_eol).
      rewrite app_nil_r. split; [|done]. by apply (matches_plus_pieces r Q Hr Hne) in H1.
    + intros [Hu Hv]. exists u, []. rewrite app_nil_r.
      split_and!; [done | by apply (matches_plus_pieces r Q Hr Hne) | by apply matches_eol].
  - intros (gs & Hgs & HQ & E). destruct gs as [|g gs]; [done|].
    apply Forall_cons in HQ as [Hg _]. apply Hne in Hg. by destruct g.
Qed.

(** * The accumulator: no entry twice, first-seen order *)

Definition wf_output (o : output) : Prop :=
  NoDup (out_order o) /\ forall v, v ∈ seen o <-> v ∈ out_order o.

(** [grows o o']: [o'] keeps the invariant and extends the list of [o] at
    its end. *)
Definition grows (o o' : output) : Prop :=
  (wf_output o -> wf_output o') /\ out_order o `prefix_of` out_order o'.

Lemma wf_empty_output : wf_output empty_output.
Proof. split; [constructor | intros v; simpl; set_solver]. Qed.

Lemma grows_refl o : grows o o.
Proof. by split. Qed.

Lemma grows_trans o1 o2 o3 : grows o1 o2 -> grows o2 o3 -> grows o1 o3.
Proof. intros [H1 P1] [H2 P2]. split; [tauto | by etrans]. Qed.

Lemma add_entry_grows v o : grows o (add_entry v o).
Proof.
  unfold add_entry. destruct (decide (v ∈ seen o)) as [Hin|Hin]; [apply grows_refl|].
  split; cbn [seen out_order].
  - intros [Hnd Hiff]. split; cbn [seen out_order].
    + apply NoDup_app. split_and!; [done | | apply NoDup_singleton].
      intros x Hx ->%list_elem_of_singleton. by apply Hin, Hiff.
    + intros x. rewrite elem_of_union, elem_of_singleton, elem_of_app,
        list_elem_of_singleton, Hiff. tauto.
  - by apply prefix_app_r.
Qed.

Module CleanDirectoryFacts.
Import CleanDirectory.

Section WithUnicode.
Context {U : PyUnicode}.

Lemma out_report a d st : out (report a d st) = out st.
Proof. unfold report. by destruct (verbose a). Qed.

Lemma out_emit v st : out (emit v st) = add_entry v (out st).
Proof. done. Qed.

Lemma emit_dot_variants_grows a line vs st :
  grows (out st) (out (emit_dot_variants a line vs st)).
Proof.
  revert st. induction vs as [|v vs IH]; intros st; simpl; [apply grows_refl|].
  destruct (too_long a _).
  - eapply grows_trans; [|apply IH]. rewrite out_report. apply grows_refl.
  - eapply grows_trans; [|apply IH]. rewrite out_emit. apply add_entry_grows.
Qed.

Lemma dot_branch_grows a line s st : grows (out st) (out (dot_branch a line s st)).
Proof.
  unfold dot_branch. destruct (is_empty (drop 1 s)); [apply grows_refl|].
  destruct (is_empty (dot_core a s)).
  - rewrite out_report. apply grows_refl.
  - apply emit_dot_variants_grows.
Qed.

Lemma emit_all_grows vs st : grows (out st) (out (foldl (fun st v => emit v st) st vs)).
Proof.
  revert st. induction vs as [|v vs IH]; intros st; simpl; [apply grows_refl|].
  eapply grows_trans; [|apply IH]. apply add_entry_grows.
Qed.

Lemma nondot_branch_grows a line s st : grows (out st) (out (nondot_branch a line s st)).
Proof.
  unfold nondot_branch. destruct (has_lfi s); [rewrite out_report; apply grows_refl|].
  destruct (file_like _ && _); [rewrite out_report; apply grows_refl|].
  destruct (too_long a _); [rewrite out_report; apply grows_refl|].
  apply emit_all_grows.
Qed.

Lemma process_line_grows a st raw : grows (out st) (out (process_line a st raw)).
Proof.
  unfold process_line. destruct (candidate raw) as [s|]; [|apply grows_refl].
  unfold classify. destruct (startswith _ s);
    [apply dot_branch_grows | apply nondot_branch_grows].
Qed.

Lemma foldl_process_line_grows a lines st :
  grows (out st) (out (foldl (process_line a) st lines)).
Proof.
  revert st. induction lines as [|raw lines IH]; intros st; simpl; [apply grows_refl|].
  eapply grows_trans; [apply process_line_grows | apply IH].
Qed.

Lemma run_wf a lines : wf_output (out (run a lines)).
Proof.
  destruct (foldl_process_line_grows a lines initial) as [H _].
  apply H, wf_empty_output.
Qed.

Lemma entries_snoc a lines raw :
  entries a (lines ++ [raw]) = out_order (out (process_line a (run a lines) raw)).
Proof. unfold entries, run. by rewrite foldl_app. Qed.

Lemma emit_all_elem v vs st :
  wf_output (out st) -> v ∈ out_order (out (foldl (fun st v => emit v st) st (v :: vs))).
Proof.
  intros [_ Hiff]. simpl.
  destruct (emit_all_grows vs (emit v st)) as [_ [k ->]].
  apply elem_of_app. left. rewrite out_emit. unfold add_entry.
  destruct (decide (v ∈ seen (out st))) as [Hin|Hin]; [by apply Hiff|].
  cbn [out_order]. apply elem_of_app. right. by left.
Qed.

(** *** The length gate *)

Definition fits (a : args) (v : str) : Prop := (Z.of_nat (length v) <= maxlen a)%Z.

Lemma too_long_false a v : too_long a v = false <-> fits a v.
Proof. unfold too_long, fits. rewrite bool_decide_eq_false. lia. Qed.

Lemma add_entry_Forall (P : str -> Prop) v o :
  P v -> Forall P (out_order o) -> Forall P (out_order (add_entry v o)).
Proof.
  intros Hv Ho. unfold add_entry. destruct (decide _); [done|].
  cbn [out_order]. apply Forall_app. split; [done | by constructor].
Qed.

Lemma emit_dot_variants_fit a line vs st :
  Forall (fits a) (out_order (out st)) ->
  Forall (fits a) (out_order (out (emit_dot_variants a line vs st))).
Proof.
  revert st. induction vs as [|v vs IH]; intros st Hst; simpl; [done|].
  destruct (too_long a _) eqn:E; apply IH.
  - by rewrite out_report.
  - rewrite out_emit. apply add_entry_Forall; [by apply too_long_false | done].
Qed.

Lemma process_line_fits a st raw :
  add_trailing_variant a = false ->
  Forall (fits a) (out_order (out st)) ->
  Forall (fits a) (out_order (out (process_line a st raw))).
Proof.
  intros Ha Hst. unfold process_line. destruct (candidate raw) as [s|]; [|done].
  unfold classify. destruct (startswith _ s).
  - unfold dot_branch. destruct (is_empty (drop 1 s)); [done|].
    destruct (is_empty (dot_core a s)); [by rewrite out_report|].
    by apply emit_dot_variants_fit.
  - unfold nondot_branch. destruct (has_lfi s); [by rewrite out_report|].
    destruct (file_like _ && _); [by rewrite out_report|].
    destruct (too_long a _) eqn:E; [by rewrite out_report|].
    unfold trailing_variants. rewrite Ha. simpl.
    apply add_entry_Forall; [by apply too_long_false | done].
Qed.

(** Without [--add-trailing-variant] no entry is longer than [--maxlen]. *)
Lemma entries_fit a lines :
  add_trailing_variant a = false -> Forall (fits a) (entries a lines).
Proof.
  intros Ha. unfold entries, run.
  assert (forall st, Forall (fits a) (out_order (out st)) ->
            Forall (fits a) (out_order (out (foldl (process_line a) st lines)))) as H.
  { induction lines as [|raw lines IH]; intros st Hst; simpl; [done|].
    apply IH. by apply process_line_fits. }
  apply H. constructor.
Qed.

End WithUnicode.
End CleanDirectoryFacts.

(** * Facts about the string functions *)

Lemma split_nonempty sep s : split sep s <> [].
Proof. destruct s as [|c s]; simpl; [done|]. destruct (c =? sep); [done|]. by destruct (split sep s). Qed.

(** The first segment starts the string; every other segment stands
    behind a separator; and a separator or the end follows each. *)
Lemma split_decomp sep s :
  match split sep s with
  | seg0 :: segs =>
      (exists b, s = seg0 ++ b /\ (b = [] \/ exists b', b = sep :: b')) /\
      (forall seg, seg ∈ segs ->
         exists a b, s = a ++ [sep] ++ seg ++ b /\ (b = [] \/ exists b', b = sep :: b'))
  | [] => False
  end.
Proof.
  induction s as [|c s IH]; simpl.
  - split; [exists []; split; [done | by left] | intros seg H; by apply elem_of_nil in H].
  - destruct (split sep s) as [|seg0 segs] eqn:E; [done|].
    destruct IH as [(b & Eb & Hb) IH]. destruct (N.eqb_spec c sep) as [->|Hne].
    + split; [exists (sep :: s); split; [done | right; eauto]|].
      intros seg [->|Hin]%elem_of_cons.
      * exists [], b. by rewrite Eb.
      * destruct (IH seg Hin) as (a' & b' & -> & Hb'). exists (sep :: a'), b'. done.
    + split; [exists b; split; [by rewrite Eb | done]|].
      intros seg Hin. destruct (IH seg Hin) as (a' & b' & -> & Hb').
      exists (c :: a'), b'. done.
Qed.

Lemma elem_of_split sep s seg :
  seg ∈ split sep s ->
  exists a b, s = a ++ seg ++ b /\
    (a = [] \/ exists a', a = a' ++ [sep]) /\ (b = [] \/ exists b', b = sep :: b').
Proof.
  intros Hin. pose proof (split_decomp sep s) as H.
  destruct (split sep s) as [|seg0 segs]; [done|]. destruct H as [(b & Eb & Hb) H].
  apply elem_of_cons in Hin as [->|Hin].
  - exists [], b. split_and!; [done | by left | done].
  - destruct (H seg Hin) as (a & b' & -> & Hb'). exists (a ++ [sep]), b'.
    split_and!; [by rewrite <- app_assoc | right; eauto | done].
Qed.

Lemma split_no_sep sep s seg : seg ∈ split sep s -> sep ∉ seg.
Proof.
  revert seg. induction s as [|c s IH]; simpl; intros seg Hin.
  - apply list_elem_of_singleton in Hin as ->. apply not_elem_of_nil.
  - destruct (N.eqb_spec c sep) as [->|Hne].
    + apply elem_of_cons in Hin as [->|Hin]; [apply not_elem_of_nil | by apply IH].
    + pose proof (split_nonempty sep s). destruct (split sep s) as [|seg0 segs]; [done|].
      apply elem_of_cons in Hin as [->|Hin].
      * apply not_elem_of_cons. split; [done|]. apply IH. by left.
      * apply IH. by right.
Qed.

Lemma last_elem_of {A} (l : list A) d : l <> [] -> List.last l d ∈ l.
Proof.
  induction l as [|x [|y l] IH]; intros Hne; [done | by left |].
  right. by apply IH.
Qed.

(** ** [lstrip], [rstrip], [find] *)

Lemma lstrip_by_decomp f s :
  exists ws, s = ws ++ lstrip_by f s /\ forallb f ws = true.
Proof.
  induction s as [|c s (ws & E & Hws)]; [by exists []|]. simpl.
  destruct (f c) eqn:Hc; [|by exists []].
  exists (c :: ws). simpl. rewrite Hc, Hws. split; [by f_equal | done].
Qed.

Lemma lstrip_by_app f ws c y :
  f c = false -> lstrip_by f (ws ++ c :: y) = lstrip_by f ws ++ c :: y.
Proof.
  intros Hc. induction ws as [|w ws IH]; simpl; [by rewrite Hc|].
  by destruct (f w).
Qed.

Lemma lstrip_by_all f ws : forallb f ws = true -> lstrip_by f ws = [].
Proof.
  induction ws as [|w ws IH]; [done|]. simpl. intros [-> H]%andb_true_iff. by apply IH.
Qed.

Lemma lstrip_by_nil f s : lstrip_by f s = [] -> forallb f s = true.
Proof.
  induction s as [|c s IH]; [done|]. simpl. destruct (f c); [exact IH | done].
Qed.

Lemma forallb_lstrip_by f g s : forallb g s = true -> forallb g (lstrip_by f s) = true.
Proof.
  induction s as [|c s IH]; [done|]. simpl. intros [Hc H]%andb_true_iff.
  destruct (f c); [by apply IH | simpl; by rewrite Hc, H].
Qed.

Lemma forallb_rev {A} (f : A -> bool) l : forallb f (rev l) = forallb f l.
Proof.
  induction l as [|x l IH]; [done|]. simpl.
  rewrite forallb_app, IH. simpl. rewrite andb_true_r. apply andb_comm.
Qed.

Lemma rstrip_by_app f x c y :
  f c = false -> rstrip_by f (x ++ c :: y) = x ++ c :: rstrip_by f y.
Proof.
  intros Hc. unfold rstrip_by. rewrite rev_app_distr. simpl. rewrite <- app_assoc. simpl.
  rewrite lstrip_by_app by done. rewrite rev_app_distr. simpl.
  rewrite rev_involutive, <- app_assoc. done.
Qed.

Lemma rstrip_by_all f ws : forallb f ws = true -> rstrip_by f ws = [].
Proof.
  intros H. unfold rstrip_by. rewrite lstrip_by_all; [done | by rewrite forallb_rev].
Qed.

Lemma forallb_rstrip_by f g s : forallb g s = true -> forallb g (rstrip_by f s) = true.
Proof.
  intros H. unfold rstrip_by. rewrite forallb_rev. apply forallb_lstrip_by.
  by rewrite forallb_rev.
Qed.

Lemma rstrip_by_nil f s : rstrip_by f s = [] -> forallb f s = true.
Proof.
  unfold rstrip_by. intros H. rewrite <- forallb_rev. apply lstrip_by_nil.
  apply (f_equal (@rev _)) in H. by rewrite rev_involutive in H.
Qed.

(** A string is empty after trimming exactly when all of it is trimmed. *)
Lemma strip_by_nil f s : strip_by f s = [] <-> forallb f s = true.
Proof.
  unfold strip_by. split.
  - intros H%rstrip_by_nil. destruct (lstrip_by_decomp f s) as (ws & E & Hws).
    rewrite E, forallb_app, Hws, H. done.
  - intros H. by rewrite lstrip_by_all.
Qed.

(** Where nothing is to be trimmed. *)
Lemma lstrip_by_id f s : forallb (fun c => negb (f c)) s = true -> lstrip_by f s = s.
Proof. destruct s as [|c s]; [done|]. simpl. intros [Hc _]%andb_true_iff. by destruct (f c). Qed.

Lemma rstrip_by_id f s : forallb (fun c => negb (f c)) s = true -> rstrip_by f s = s.
Proof.
  intros H. unfold rstrip_by. rewrite lstrip_by_id; [apply rev_involutive|].
  by rewrite forallb_rev.
Qed.

Lemma strip_by_id f s : forallb (fun c => negb (f c)) s = true -> strip_by f s = s.
Proof. intros H. unfold strip_by. by rewrite lstrip_by_id, rstrip_by_id. Qed.

(** [find] returns the first place where the piece stands. *)
Lemma find_Some p s i :
  find p s = Some i ->
  startswith p (drop i s) = true /\
  forall j, (j < i)%nat -> startswith p (drop j s) = false.
Proof.
  revert i. induction s as [|c s IH]; intros i; simpl.
  - destruct (startswith p []) eqn:E; [|done]. intros [= <-]. split; [done | lia].
  - destruct (startswith p (c :: s)) eqn:E.
    + intros [= <-]. split; [done | lia].
    + destruct (find p s) as [i'|] eqn:F; [|done]. simpl. intros [= <-].
      destruct (IH i' eq_refl) as [H1 H2]. split; [done|].
      intros [|j] Hj; [done|]. simpl. apply H2. lia.
Qed.

Lemma find_None p s : find p s = None -> contains p s = false.
Proof.
  induction s as [|c s IH]; simpl.
  - destruct (startswith p []); [done|]. done.
  - destruct (startswith p (c :: s)); [done|].
    destruct (find p s); [done|]. intros _. by apply IH.
Qed.

Lemma startswith_app p s : startswith p (p ++ s) = true.
Proof. induction p as [|a p IH]; simpl; [by destruct s | by rewrite N.eqb_refl]. Qed.

Lemma startswith_decomp p s : startswith p s = true -> exists y, s = p ++ y.
Proof.
  revert s. induction p as [|a p IH]; intros s; simpl; [by exists s|].
  destruct s as [|c s]; [done|]. intros [->%N.eqb_eq H]%andb_true_iff.
  destruct (IH s H) as [y ->]. by exists y.
Qed.

Lemma find_None_iff p s : find p s = None <-> contains p s = false.
Proof.
  split; [apply find_None|]. induction s as [|c s IH]; simpl.
  - by destruct (startswith p []).
  - destruct (startswith p (c :: s)); [done|]. simpl. intros H. by rewrite IH.
Qed.

Lemma rstrip_by_cons f c y : f c = false -> rstrip_by f (c :: y) = c :: rstrip_by f y.
Proof. intros Hc. by apply (rstrip_by_app f [] c y). Qed.

(** ** [split] and [join] *)

Lemma split_no_sep_id sep seg : sep ∉ seg -> split sep seg = [seg].
Proof.
  induction seg as [|c seg IH]; [done|]. intros [Hc H]%not_elem_of_cons. simpl.
  destruct (N.eqb_spec c sep) as [->|_]; [done|]. by rewrite IH.
Qed.

Lemma split_app_sep sep seg rest :
  sep ∉ seg -> split sep (seg ++ sep :: rest) = seg :: split sep rest.
Proof.
  induction seg as [|c seg IH]; simpl.
  - intros _. by rewrite N.eqb_refl.
  - intros [Hc H]%not_elem_of_cons. destruct (N.eqb_spec c sep) as [->|_]; [done|].
    by rewrite IH.
Qed.

Lemma join_cons sep p q ps : join sep (p :: q :: ps) = p ++ sep ++ join sep (q :: ps).
Proof. done. Qed.

Lemma split_join sep segs :
  segs <> [] -> Forall (fun seg => sep ∉ seg) segs -> split sep (join [sep] segs) = segs.
Proof.
  induction segs as [|p [|q ps] IH]; intros Hne H; [done | |].
  - apply Forall_cons in H as [H _]. by apply split_no_sep_id.
  - apply Forall_cons in H as [Hp H]. rewrite join_cons. cbn [app].
    rewrite split_app_sep by done. by rewrite IH.
Qed.

Lemma join_snoc sep init x :
  init <> [] -> join sep (init ++ [x]) = join sep init ++ sep ++ x.
Proof.
  induction init as [|p [|q ps] IH]; intros Hne; [done | done |].
  change ((p :: q :: ps) ++ [x]) with (p :: q :: (ps ++ [x])).
  rewrite !join_cons. change (q :: ps ++ [x]) with ((q :: ps) ++ [x]).
  rewrite IH by done. by rewrite <- !app_assoc.
Qed.

Lemma join_head sep p ps : p <> [] -> exists c z, join sep (p :: ps) = c :: z /\ head p = Some c.
Proof.
  intros Hp. destruct p as [|c p]; [done|]. destruct ps; simpl; eauto.
Qed.


(** * C1: candidates with a traversal sequence *)

Section C1.
Import CleanDirectory.

(** A traversal indicator, as the specification words it: the text [..],
    the text [./], or a segment between slashes (or the ends of the string)
    that is [.] or [..]. *)
Definition has_traversal (s : str) : Prop :=
  contains (py "..") s = true \/ contains (py "./") s = true \/
  py "." ∈ split (chr "/") s \/ py ".." ∈ split (chr "/") s.

(** The pattern [LFI_INDICATORS] finds every segment that is [.] or [..]. *)
Lemma LFI_INDICATORS_matches b start dots stop v :
  matches (Alt Bol (Lit "/")) b start (dots ++ stop ++ v) ->
  dots = py "." \/ dots = py ".." ->
  (stop = [] /\ at_eol v = true) \/ stop = py "/" ->
  matches LFI_INDICATORS b (start ++ dots ++ stop) v.
Proof.
  intros Hstart Hdots Hstop. unfold LFI_INDICATORS. cbn [Seqs].
  apply m_seq; [by rewrite <- app_assoc|].
  assert (forall b', matches (Alt Eol (Lit "/")) b' stop v) as Hend.
  { intros b'. destruct Hstop as [[-> Hv] | ->];
      [by apply m_alt_l, m_eol | by apply m_alt_r, m_cls]. }
  destruct Hdots as [-> | ->].
  - apply (m_seq _ _ _ (py ".") stop); [by apply m_cls|].
    apply (m_seq _ _ _ [] stop); [apply m_alt_r, m_eps | apply Hend].
  - apply (m_seq _ _ _ (py ".") (py "." ++ stop)); [by apply m_cls|].
    apply (m_seq _ _ _ (py ".") stop); [by apply m_alt_l, m_cls | apply Hend].
Qed.

Lemma dot_segment_found s dots :
  dots = py "." \/ dots = py ".." -> dots ∈ split (chr "/") s ->
  re_search LFI_INDICATORS s = true.
Proof.
  intros Hdots (a & b & -> & Ha & Hb)%elem_of_split. apply re_search_true.
  assert (exists stop v, b = stop ++ v /\ ((stop = [] /\ at_eol v = true) \/ stop = py "/"))
    as (stop & v & -> & Hstop).
  { destruct Hb as [-> | [b' ->]]; [exists [], []; eauto | exists (py "/"), b'; eauto]. }
  destruct Ha as [-> | [a' ->]].
  - exists [], (dots ++ stop), v. split; [by rewrite <- app_assoc|].
    apply (LFI_INDICATORS_matches true [] dots stop v); [apply m_alt_l, m_bol | done | done].
  - exists a', (py "/" ++ dots ++ stop), v. split; [by rewrite <- !app_assoc|].
    apply LFI_INDICATORS_matches; [by apply m_alt_r, m_cls | done | done].
Qed.

Lemma has_traversal_lfi s : has_traversal s -> has_lfi s = true.
Proof.
  unfold has_lfi. intros [-> | [-> | [H | H]]]; [done | by rewrite orb_true_r | |].
  - rewrite (dot_segment_found s (py ".")); [apply orb_true_r | by left | done].
  - rewrite (dot_segment_found s (py "..")); [apply orb_true_r | by right | done].
Qed.

Context {U : PyUnicode}.

(** C1, as amended.  A line whose candidate, as it reaches the classifier
    (after the comment, URL, query, slash and Unicode steps), does not start
    with a dot and holds a traversal indicator adds nothing to the output,
    in [clean_directory_wordlist.py] and in [clean-directory-wordlist.py]. *)
Theorem C1_traversal_candidate_is_dropped (a : args) (st : state) (raw s : str) :
  candidate raw = Some s ->
  startswith (py ".") s = false ->
  has_traversal s ->
  out (process_line a st raw) = out st /\
  out (CleanDirectoryPlain.process_line a st raw) = out st.
Proof.
  intros Hc Hdot Ht%has_traversal_lfi.
  unfold process_line, CleanDirectoryPlain.process_line. rewrite Hc.
  unfold classify, CleanDirectoryPlain.classify. rewrite Hdot.
  unfold nondot_branch. rewrite Ht. unfold report. by destruct (verbose a).
Qed.

End C1.

Lemma C1_witness :
  CleanDirectory.out
    (CleanDirectory.process_line (U := ascii_only) CleanDirectory.default_args
       CleanDirectory.initial (py "https://example.com/static/../etc/passwd"))
  = CleanDirectory.out CleanDirectory.initial /\
  CleanDirectory.out
    (CleanDirectoryPlain.process_line (U := ascii_only) CleanDirectory.default_args
       CleanDirectory.initial (py "https://example.com/static/../etc/passwd"))
  = CleanDirectory.out CleanDirectory.initial.
Proof.
  apply (C1_traversal_candidate_is_dropped (U := ascii_only) CleanDirectory.default_args
           CleanDirectory.initial (py "https://example.com/static/../etc/passwd")
           (py "static/../etc/passwd")).
  - reflexivity.
  - reflexivity.
  - left. reflexivity.
Defined.

(** The claim as it was stated is about the input line: the line
    [/.git/../x] does not start with a dot and holds [..], and yet two
    entries come out of it, since its candidate is [.git/../x]. *)
Lemma C1_counterexample :
  startswith (py ".") (py "/.git/../x") = false /\
  contains (py "..") (py "/.git/../x") = true /\
  forall U : PyUnicode,
    CleanDirectory.entries CleanDirectory.default_args [py "/.git/../x"]
    = [py ".git/../x"; py "git/../x"].
Proof. split_and!; [done | done | intros U; by vm_compute]. Qed.

(** * C2: what the dot branch and the other branch report *)

Section BranchReports.
Import CleanDirectory.
Context {U : PyUnicode}.










End BranchReports.

(** * C3: blank lines, comment lines, inline comments *)

Section C3.
Context {U : PyUnicode}.

Definition newline_or_return (c : char) : bool := is_char "010" c || is_char "013" c.

Lemma forallb_take {A} (f : A -> bool) n l : forallb f l = true -> forallb f (take n l) = true.
Proof.
  revert n. induction l as [|x l IH]; intros [|n]; simpl; try done.
  intros [-> H]%andb_true_iff. by apply IH.
Qed.

(** *** [clean_directory_wordlist.py] *)

Lemma directory_COMMENT_RE_hash y :
  re_match CleanDirectory.COMMENT_RE (chr "#" :: y) = true.
Proof.
  apply re_match_true. exists (py "#"), y. split; [done|].
  unfold CleanDirectory.COMMENT_RE. cbn [Seqs].
  apply (m_seq _ _ _ [] (py "#")); [apply m_bol|].
  apply (m_seq _ _ _ [] (py "#")); [apply m_star_nil | by apply matches_lit].
Qed.

Lemma directory_blank_line raw :
  strip_by py_isspace raw = [] -> CleanDirectory.candidate raw = None.
Proof.
  intros Hall%strip_by_nil. unfold CleanDirectory.candidate.
  assert (forallb py_isspace (CleanDirectory.chomp raw) = true) as Hline
    by by apply forallb_rstrip_by.
  destruct (is_empty (CleanDirectory.chomp raw)); [done|].
  rewrite (lstrip_by_all _ _ Hline).
  assert (re_match CleanDirectory.COMMENT_RE [] = false) as -> by reflexivity.
  by rewrite (proj2 (strip_by_nil _ _) Hline).
Qed.

Lemma directory_hash_line raw :
  startswith (py "#") (lstrip_by py_isspace raw) = true ->
  CleanDirectory.candidate raw = None.
Proof.
  intros [y Hy]%startswith_decomp.
  destruct (lstrip_by_decomp py_isspace raw) as (ws & E & Hws). rewrite Hy in E.
  unfold CleanDirectory.candidate, CleanDirectory.chomp.
  rewrite E. change (py "#" ++ y) with (chr "#" :: y).
  rewrite rstrip_by_app by done.
  set (z := rstrip_by _ y).
  assert (is_empty (ws ++ chr "#" :: z) = false) as -> by by destruct ws.
  rewrite lstrip_by_app, lstrip_by_all by done. cbn [app].
  by rewrite directory_COMMENT_RE_hash.
Qed.

(** The text before the first [?] or [#]. *)
Fixpoint before_marker (s : str) : str :=
  match s with
  | [] => []
  | c :: s' => if is_char "?" c || is_char "#" c then [] else c :: before_marker s'
  end.

Lemma star_to_the_end b s :
  forallb CleanDirectory.not_newline s = true ->
  star_cls CleanDirectory.not_newline (fun b' s' => match_at Eol b' s') b s = Some [].
Proof.
  revert b. induction s as [|c s IH]; intros b; simpl; [done|].
  intros [-> H]%andb_true_iff. by rewrite IH.
Qed.

Lemma forallb_not_newline s :
  chr "010" ∉ s -> forallb CleanDirectory.not_newline s = true.
Proof.
  induction s as [|d s IH]; [done|]. simpl. intros [Hd Hnl]%not_elem_of_cons.
  rewrite IH by done. unfold CleanDirectory.not_newline, is_char.
  by destruct (N.eqb_spec d (chr "010")).
Qed.

Lemma query_fragment_cut_from b s :
  chr "010" ∉ s -> sub_from CleanDirectory.QUERY_FRAGMENT_RE [] b O s = before_marker s.
Proof.
  revert b. induction s as [|c s IH]; intros b Hnl; [done|].
  apply not_elem_of_cons in Hnl as [Hc Hnl].
  cbn [sub_from before_marker]. unfold CleanDirectory.QUERY_FRAGMENT_RE. cbn [Seqs].
  rewrite match_at_seq, rmatch_cls_cons.
  destruct (is_char "?" c || is_char "#" c).
  - rewrite match_at_seq, rmatch_star_cls, star_to_the_end by by apply forallb_not_newline.
    cbn [length]. rewrite Nat.sub_0_r. cbn [app]. rewrite sub_from_skip. reflexivity.
  - f_equal. by apply IH.
Qed.

(** [QUERY_FRAGMENT_RE.sub("", s)] cuts [s] at its first [?] or [#],
    whatever stands before it. *)
Lemma query_fragment_cut s :
  chr "010" ∉ s -> re_sub CleanDirectory.QUERY_FRAGMENT_RE [] s = before_marker s.
Proof. apply query_fragment_cut_from. Qed.

(** *** [clean_api_wordlist.py] *)

Lemma forallb_cut_inline g seqs line :
  forallb g line = true -> forallb g (CleanApi.cut_inline seqs line) = true.
Proof.
  intros H. induction seqs as [|seq seqs IH]; simpl; [done|].
  destruct (find seq line); [by apply forallb_take | done].
Qed.

Lemma forallb_strip_comment g line :
  forallb g line = true -> forallb g (CleanApi.strip_comment line) = true.
Proof.
  intros H. unfold CleanApi.strip_comment. destruct (re_match _ _); [done|].
  by apply forallb_cut_inline, forallb_lstrip_by.
Qed.

Lemma api_blank_line o raw :
  strip_by py_isspace raw = [] -> CleanApi.normalized o raw = None.
Proof.
  intros Hall%strip_by_nil. unfold CleanApi.normalized.
  set (line := rstrip_by _ raw).
  assert (forallb py_isspace line = true) as Hline by by apply forallb_rstrip_by.
  destruct (is_empty line); [done|].
  set (line1 := if CleanApi.strip_comments o then _ else _).
  assert (forallb py_isspace line1 = true) as Hline1.
  { unfold line1. destruct (CleanApi.strip_comments o); [by apply forallb_strip_comment | done]. }
  destruct (CleanApi.strip_comments o && is_empty line1); [done|].
  by rewrite (proj2 (strip_by_nil _ _) Hline1).
Qed.

Lemma api_COMMENT_RE ws m y :
  forallb py_isspace ws = true -> m = py "#" \/ m = py "//" ->
  re_match CleanApi.COMMENT_RE (ws ++ m ++ y) = true.
Proof.
  intros Hws Hm. apply re_match_true. exists (ws ++ m), y.
  split; [by rewrite <- app_assoc|]. unfold CleanApi.COMMENT_RE. cbn [Seqs].
  apply (m_seq _ _ _ [] (ws ++ m)); [apply m_bol|].
  apply m_seq; [by apply matches_star_cls|].
  destruct Hm as [-> | ->]; [by apply m_alt_l, matches_lit|].
  apply m_alt_r. apply (m_seq _ _ _ (py "/") (py "/")); by apply matches_lit.
Qed.

Lemma api_comment_line o raw :
  CleanApi.strip_comments o = true ->
  startswith (py "#") (lstrip_by py_isspace raw) = true \/
  startswith (py "//") (lstrip_by py_isspace raw) = true ->
  CleanApi.normalized o raw = None.
Proof.
  intros Ho Hm.
  destruct (lstrip_by_decomp py_isspace raw) as (ws & E & Hws).
  set (crlf := fun c => is_char "013" c || is_char "010" c).
  assert (exists m y, (m = py "#" \/ m = py "//") /\
            rstrip_by crlf raw = ws ++ m ++ y) as (m & y & Hm' & Hline).
  { destruct Hm as [[y Hy]%startswith_decomp | [y Hy]%startswith_decomp];
      rewrite Hy in E; rewrite E.
    - exists (py "#"), (rstrip_by crlf y). split; [by left|].
      change (py "#" ++ y) with (chr "#" :: y). by rewrite rstrip_by_app.
    - exists (py "//"), (rstrip_by crlf y). split; [by right|].
      change (py "//" ++ y) with (chr "/" :: [] ++ chr "/" :: y).
      rewrite rstrip_by_app by done. by rewrite rstrip_by_app. }
  unfold CleanApi.normalized. fold crlf. rewrite Hline, Ho.
  assert (is_empty (ws ++ m ++ y) = false) as ->.
  { destruct ws; [|done]. by destruct Hm' as [-> | ->]. }
  assert (CleanApi.strip_comment (ws ++ m ++ y) = []) as ->; [|done].
  unfold CleanApi.strip_comment.
  assert (exists ws', lstrip_by (fun c => c =? CleanApi.BOM) (ws ++ m ++ y) = ws' ++ m ++ y /\
            forallb py_isspace ws' = true) as (ws' & -> & Hws').
  { exists (lstrip_by (fun c => c =? CleanApi.BOM) ws). split; [|by apply forallb_lstrip_by].
    destruct Hm' as [-> | ->]; by apply lstrip_by_app. }
  by rewrite api_COMMENT_RE.
Qed.

(** [marker_after_space s j]: at index [j] of [s] stands a white-space
    character, and right after it [#] or [//]. *)
Definition marker_after_space (s : str) (j : nat) : bool :=
  match drop j s with
  | c :: rest => py_isspace c && (startswith (py "#") rest || startswith (py "//") rest)
  | [] => false
  end.

Lemma find_first p s i :
  startswith p (drop i s) = true ->
  (forall j, (j < i)%nat -> startswith p (drop j s) = false) ->
  find p s = Some i.
Proof.
  revert i. induction s as [|c s IH]; intros i Hi Hlt.
  - rewrite drop_nil in Hi. simpl. rewrite Hi. destruct i as [|i]; [done|].
    specialize (Hlt O ltac:(lia)). simpl in Hlt. congruence.
  - destruct i as [|i].
    + simpl in Hi. cbn [find]. by rewrite Hi.
    + pose proof (Hlt O ltac:(lia)) as H0. simpl in H0. cbn [find]. rewrite H0.
      rewrite (IH i); [done | done |].
      intros j Hj. apply (Hlt (S j)). lia.
Qed.

Lemma find_nowhere p s :
  (forall j, startswith p (drop j s) = false) -> find p s = None.
Proof.
  intros H. destruct (find p s) as [i|] eqn:E; [|done].
  apply find_Some in E as [E _]. by rewrite H in E.
Qed.

Lemma space_hash_is_marker s j :
  marker_after_space s j = false -> startswith (py " #") (drop j s) = false.
Proof.
  unfold marker_after_space. destruct (drop j s) as [|c rest]; [done|].
  change (py " #") with (chr " " :: py "#"). cbn [startswith].
  destruct (N.eqb_spec (chr " ") c) as [<-|]; [|done].
  change (py_isspace (chr " ")) with true. cbn [andb].
  by intros [-> _]%orb_false_iff.
Qed.

Lemma space_slashes_is_marker s j :
  marker_after_space s j = false -> startswith (py " //") (drop j s) = false.
Proof.
  unfold marker_after_space. destruct (drop j s) as [|c rest]; [done|].
  change (py " //") with (chr " " :: py "//"). cbn [startswith].
  destruct (N.eqb_spec (chr " ") c) as [<-|]; [|done].
  change (py_isspace (chr " ")) with true. cbn [andb].
  by intros [_ ->]%orb_false_iff.
Qed.

(** What [strip_comment] returns for a line that is no comment line, where
    the first marker after white space (if there is one) stands after a
    space: with [#] there, the line up to that space; with [//] there and
    no [" #"] in the line, the same; with no marker after white space, the
    line (a leading BOM apart). *)
Lemma api_inline_cut line :
  let line' := lstrip_by (fun c => c =? CleanApi.BOM) line in
  re_match CleanApi.COMMENT_RE line' = false ->
  (forall i, (forall j, (j < i)%nat -> marker_after_space line' j = false) ->
     (startswith (py " #") (drop i line') = true ->
        CleanApi.strip_comment line = take i line') /\
     (startswith (py " //") (drop i line') = true -> contains (py " #") line' = false ->
        CleanApi.strip_comment line = take i line')) /\
  ((forall j, marker_after_space line' j = false) -> CleanApi.strip_comment line = line').
Proof.
  intros line' Hc. unfold CleanApi.strip_comment. fold line'. rewrite Hc.
  unfold CleanApi.INLINE_COMMENT_PATTERNS. cbn [CleanApi.cut_inline]. split.
  - intros i Hlt. split.
    + intros Hi. rewrite (find_first _ _ i); [done | done |].
      intros j Hj. by apply space_hash_is_marker, Hlt.
    + intros Hi Hno%find_None_iff. rewrite Hno, (find_first _ _ i); [done | done |].
      intros j Hj. by apply space_slashes_is_marker, Hlt.
  - intros Hno. rewrite !find_nowhere; [done | |]; intros j.
    + apply space_slashes_is_marker, Hno.
    + apply space_hash_is_marker, Hno.
Qed.

(** C3, as amended.  In [clean_directory_wordlist.py] a line is dropped when
    it is empty after trimming or when its first non-space character is
    [#]; [//] is no comment marker there, and the query/fragment step cuts
    the text at its first [?] or [#], whatever stands before it.  In
    [clean_api_wordlist.py] a line is dropped when it is empty after
    trimming or (comment stripping on) when its first non-space characters
    are [#] or [//]; any other line whose first marker after white space
    stands after a space is cut at that space (for a [//], when no [" #"]
    comes in the line), and a line with no marker after white space, such
    as [http://x/y], is returned as it is. *)
Theorem C3_blank_and_comment_lines (raw : str)
    (a : CleanDirectory.args) (st : CleanDirectory.state)
    (o : CleanApi.opts) (acc : output) :
  (strip_by py_isspace raw = [] -> CleanDirectory.process_line a st raw = st) /\
  (startswith (py "#") (lstrip_by py_isspace raw) = true ->
     CleanDirectory.process_line a st raw = st) /\
  (chr "010" ∉ raw ->
     re_sub CleanDirectory.QUERY_FRAGMENT_RE [] raw = before_marker raw) /\
  (strip_by py_isspace raw = [] -> CleanApi.process_line o acc raw = acc) /\
  (CleanApi.strip_comments o = true ->
   startswith (py "#") (lstrip_by py_isspace raw) = true \/
   startswith (py "//") (lstrip_by py_isspace raw) = true ->
     CleanApi.process_line o acc raw = acc) /\
  (let line' := lstrip_by (fun c => c =? CleanApi.BOM) raw in
   re_match CleanApi.COMMENT_RE line' = false ->
   (forall i, (forall j, (j < i)%nat -> marker_after_space line' j = false) ->
      (startswith (py " #") (drop i line') = true ->
         CleanApi.strip_comment raw = take i line') /\
      (startswith (py " //") (drop i line') = true -> contains (py " #") line' = false ->
         CleanApi.strip_comment raw = take i line')) /\
   ((forall j, marker_after_space line' j = false) ->
      CleanApi.strip_comment raw = line')) /\
  CleanApi.strip_comment (py "http://x/y") = py "http://x/y" /\
  CleanApi.strip_comment (py "users/list # old") = py "users/list" /\
  CleanApi.strip_comment (py "users/list // old") = py "users/list" /\
  CleanDirectory.entries CleanDirectory.default_args [py "admin #old"] = [py "admin"].
Proof.
  split_and!.
  - intros H. unfold CleanDirectory.process_line. by rewrite directory_blank_line.
  - intros H. unfold CleanDirectory.process_line. by rewrite directory_hash_line.
  - apply query_fragment_cut.
  - intros H. unfold CleanApi.process_line. by rewrite api_blank_line.
  - intros Ho H. unfold CleanApi.process_line. by rewrite api_comment_line.
  - apply api_inline_cut.
  - by vm_compute.
  - by vm_compute.
  - by vm_compute.
  - by vm_compute.
Qed.

End C3.

Lemma C3_witness :
  CleanDirectory.process_line (U := ascii_only) CleanDirectory.default_args
    CleanDirectory.initial (py "   # a comment") = CleanDirectory.initial /\
  CleanApi.process_line (U := ascii_only) CleanApi.default_opts empty_output
    (py "  // a comment") = empty_output /\
  CleanApi.strip_comment (U := ascii_only) (py "users/list # old")
    = take 10 (py "users/list # old").
Proof.
  split_and!.
  - refine (proj1 (proj2 (C3_blank_and_comment_lines (U := ascii_only) (py "   # a comment")
      CleanDirectory.default_args CleanDirectory.initial CleanApi.default_opts
      empty_output)) _).
    reflexivity.
  - refine (proj1 (proj2 (proj2 (proj2 (proj2
      (C3_blank_and_comment_lines (U := ascii_only) (py "  // a comment")
         CleanDirectory.default_args CleanDirectory.initial CleanApi.default_opts
         empty_output))))) _ _).
    + reflexivity.
    + right. reflexivity.
  - refine (proj1 (proj1 (proj1 (proj2 (proj2 (proj2 (proj2 (proj2
      (C3_blank_and_comment_lines (U := ascii_only) (py "users/list # old")
         CleanDirectory.default_args CleanDirectory.initial CleanApi.default_opts
         empty_output)))))) _) 10%nat _) _).
    + reflexivity.
    + intros j Hj. do 10 (destruct j as [|j]; [reflexivity|]). lia.
    + reflexivity.
Defined.

(** The claim as it was stated drops every line that starts with [//] and
    cuts a line at a [//] that white space precedes.  The directory
    pipeline turns the line [//foo] into the entry [foo], and leaves
    [" //"] inside a line alone. *)
Lemma C3_counterexample :
  startswith (py "//") (py "//foo") = true /\
  forall U : PyUnicode,
    lstrip_by py_isspace (py "//foo") = py "//foo" /\
    CleanDirectory.entries CleanDirectory.default_args [py "//foo"] = [py "foo"] /\
    CleanDirectory.entries CleanDirectory.default_args [py "a //b"] = [py "a%20/b"].
Proof. split; [done|]. intros U. by vm_compute. Qed.

(** * C4: running the output through the pipeline again *)

(** A property of all ASCII characters, by running through them. *)
Lemma ascii_forall (P : char -> Prop) `{forall c, Decision (P c)} :
  forallb (fun c => bool_decide (P c)) (map N.of_nat (seq 0 128)) = true ->
  forall c, is_ascii c = true -> P c.
Proof.
  intros Hall c Hc. unfold is_ascii in Hc. apply N.ltb_lt in Hc.
  rewrite forallb_forall in Hall. apply (proj1 (bool_decide_eq_true _)).
  apply Hall. apply in_map_iff. exists (N.to_nat c). split; [apply N2Nat.id|].
  apply in_seq. lia.
Qed.

Section C4.
Import CleanDirectory CleanDirectoryFacts.
Context {U : PyUnicode}.

(** The characters that the pipeline leaves alone: lower-case ASCII
    letters, digits, and [-], [_], [~], [.], [/]. *)
Definition plain_char (c : char) : bool :=
  ascii_lower_letter c || ascii_digit c || is_char "-" c || is_char "_" c ||
  is_char "~" c || is_char "." c || is_char "/" c.

Lemma plain_char_ascii c : plain_char c = true -> is_ascii c = true.
Proof.
  unfold plain_char, ascii_lower_letter, ascii_digit, in_range, is_char, is_ascii.
  intros H. apply N.ltb_lt.
  repeat (apply orb_true_iff in H as [H | H]);
    try (apply andb_true_iff in H as [_ H]; apply N.leb_le in H);
    try apply N.eqb_eq in H; unfold chr in H; cbn in H; lia.
Qed.

Definition plain_char_props (c : char) : Prop :=
  py_isspace c = false /\ newline_or_return c = false /\ ascii_lower c = c /\
  HOMOGLYPH_MAP c = c /\ py_category_C c = false /\ utf8_encode c = [c] /\
  quote_byte safe_chars c = [c] /\ is_char "#" c = false /\ is_char "?" c = false /\
  is_char ":" c = false /\ not_newline c = true.

Lemma plain_char_spec c : plain_char c = true -> plain_char_props c.
Proof.
  intros H. pose proof (plain_char_ascii c H) as Ha. revert c Ha H.
  apply (ascii_forall (fun c => plain_char c = true -> plain_char_props c)).
  by vm_compute.
Qed.

Lemma forallb_impl {A} (f g : A -> bool) l :
  (forall x, f x = true -> g x = true) -> forallb f l = true -> forallb g l = true.
Proof.
  intros H. induction l as [|x l IH]; [done|]. simpl.
  intros [Hx Hl]%andb_true_iff. by rewrite (H x Hx), IH.
Qed.

Lemma forallb_not_elem_of (f : char -> bool) l x :
  forallb f l = true -> f x = false -> x ∉ l.
Proof.
  intros Hl Hx Hin. rewrite forallb_forall in Hl.
  apply list_elem_of_In in Hin. apply Hl in Hin. congruence.
Qed.

Section Plain.
Variable e : str.
Hypothesis Hplain : forallb plain_char e = true.

Lemma plain_no_char a : plain_char (chr a) = false -> chr a ∉ e.
Proof. intros H. by apply (forallb_not_elem_of plain_char). Qed.

Lemma plain_strip : strip_by py_isspace e = e.
Proof.
  apply strip_by_id. eapply forallb_impl; [|exact Hplain].
  intros c Hc. destruct (plain_char_spec c Hc) as (-> & _). done.
Qed.

Lemma plain_lstrip : lstrip_by py_isspace e = e.
Proof.
  apply lstrip_by_id. eapply forallb_impl; [|exact Hplain].
  intros c Hc. destruct (plain_char_spec c Hc) as (-> & _). done.
Qed.

Lemma plain_chomp : chomp e = e.
Proof.
  apply rstrip_by_id. eapply forallb_impl; [|exact Hplain].
  intros c Hc. destruct (plain_char_spec c Hc) as (_ & H & _).
  unfold newline_or_return in H. by rewrite H.
Qed.

Lemma plain_ascii : forallb is_ascii e = true.
Proof. eapply forallb_impl; [|exact Hplain]. apply plain_char_ascii. Qed.

Lemma map_id_on {A} (f : A -> A) (P : A -> bool) l :
  (forall x, P x = true -> f x = x) -> forallb P l = true -> map f l = l.
Proof.
  intros H. induction l as [|x l IH]; [done|]. simpl.
  intros [Hx Hl]%andb_true_iff. by rewrite (H x Hx), IH.
Qed.

Lemma plain_lower : py_lower e = e.
Proof.
  unfold py_lower. rewrite plain_ascii. apply (map_id_on _ plain_char); [|done].
  intros c Hc. by destruct (plain_char_spec c Hc) as (_ & _ & -> & _).
Qed.

Lemma plain_normalize_and_map : normalize_and_map e = e.
Proof.
  unfold normalize_and_map, py_nfkc. rewrite plain_ascii.
  rewrite (map_id_on _ plain_char _); [|intros c Hc|done].
  - clear -Hplain. induction e as [|c l IH]; [done|]. simpl in Hplain.
    apply andb_true_iff in Hplain as [Hc Hl].
    destruct (plain_char_spec c Hc) as (_ & _ & _ & _ & H & _).
    rewrite filter_cons_True by done. by rewrite IH.
  - by destruct (plain_char_spec c Hc) as (_ & _ & _ & -> & _).
Qed.

Lemma flat_map_single {A} (f : A -> list A) (P : A -> bool) l :
  (forall x, P x = true -> f x = [x]) -> forallb P l = true -> flat_map f l = l.
Proof.
  intros H. induction l as [|x l IH]; [done|]. simpl.
  intros [Hx Hl]%andb_true_iff. by rewrite (H x Hx), IH.
Qed.

Lemma plain_percent_encode : percent_encode_keep_slash e = e.
Proof.
  unfold percent_encode_keep_slash, quote.
  rewrite (flat_map_single utf8_encode plain_char); [|intros c Hc|done].
  - apply (flat_map_single _ plain_char); [|done].
    intros c Hc. by destruct (plain_char_spec c Hc) as (_ & _ & _ & _ & _ & _ & -> & _).
  - by destruct (plain_char_spec c Hc) as (_ & _ & _ & _ & _ & -> & _).
Qed.

End Plain.

(** *** The steps that leave a plain entry alone *)

Lemma COMMENT_RE_no_hash s : chr "#" ∉ s -> re_match COMMENT_RE s = false.
Proof.
  intros Hs. destruct (re_match COMMENT_RE s) eqn:E; [|done]. exfalso.
  apply re_match_true in E as (u & v & -> & H). unfold COMMENT_RE in H. cbn [Seqs] in H.
  apply matches_seq in H as (u0 & u1 & -> & _ & H).
  apply matches_seq in H as (u2 & u3 & -> & _ & ->%matches_lit).
  apply Hs. elem_of_pieces.
Qed.

Lemma URL_SCHEME_HOST_RE_no_colon s :
  chr ":" ∉ s -> re_sub URL_SCHEME_HOST_RE [] s = s.
Proof.
  intros Hs. apply sub_from_no_match, search_from_false.
  intros pre u v -> H. unfold URL_SCHEME_HOST_RE in H. cbn [Seqs] in H.
  apply matches_seq in H as (u0 & u1 & -> & _ & H).
  apply matches_seq in H as (u2 & u3 & -> & _ & H).
  apply matches_seq in H as (u4 & u5 & -> & _ & H).
  apply matches_seq in H as (u6 & u7 & -> & ->%matches_lit & _).
  apply Hs. elem_of_pieces.
Qed.

Lemma before_marker_id s :
  chr "?" ∉ s -> chr "#" ∉ s -> before_marker s = s.
Proof.
  induction s as [|c s IH]; [done|].
  intros [Hq H1]%not_elem_of_cons [Hh H2]%not_elem_of_cons. simpl.
  unfold is_char. destruct (N.eqb_spec c (chr "?")); [done|].
  destruct (N.eqb_spec c (chr "#")); [done|]. simpl. by rewrite IH.
Qed.

Lemma LEADING_SLASHES_id s :
  startswith (py "/") s = false -> re_sub LEADING_SLASHES [] s = s.
Proof.
  intros Hs. apply sub_from_no_match, search_from_false.
  intros pre u v -> H. unfold LEADING_SLASHES in H.
  apply matches_seq in H as (u0 & u1 & -> & [-> Hb]%matches_bol & H).
  destruct pre; [|by rewrite bnext_cons in Hb].
  apply matches_seq in H as (u2 & u3 & -> & ->%matches_lit & _).
  by vm_compute in Hs.
Qed.

Lemma endswith_slash pre u :
  u <> [] -> forallb (is_char "/") u = true -> endswith (py "/") (pre ++ u) = true.
Proof.
  intros Hne Hu. destruct u as [|c u _] using rev_ind; [done|].
  rewrite forallb_app in Hu. apply andb_true_iff in Hu as [_ Hc]. simpl in Hc.
  rewrite andb_true_r in Hc. unfold is_char in Hc. apply N.eqb_eq in Hc as ->.
  unfold endswith. rewrite app_assoc, rev_app_distr. simpl. by rewrite ?N.eqb_refl.
Qed.

Lemma TRAILING_SLASHES_id s :
  chr "010" ∉ s -> endswith (py "/") s = false -> re_sub TRAILING_SLASHES [] s = s.
Proof.
  intros Hnl Hs. apply sub_from_no_match, search_from_false.
  intros pre u v -> H. unfold TRAILING_SLASHES in H.
  apply matches_seq in H as (u0 & u1 & -> & [Hne Hu]%matches_plus_cls & [-> Hv]%matches_eol).
  apply at_eol_no_newline in Hv as ->; [|intros Hin; apply Hnl; elem_of_pieces].
  rewrite !app_nil_r in Hs. by rewrite endswith_slash in Hs.
Qed.

Lemma collapse_slashes_from b s :
  contains (py "//") s = false -> sub_from MULTI_SLASH_RE (py "/") b O s = s.
Proof.
  revert b. induction s as [|c s IH]; intros b Hs; [done|].
  simpl in Hs. apply orb_false_iff in Hs as [Hstart Hs].
  cbn [sub_from]. unfold MULTI_SLASH_RE at 1, Plus, Lit.
  rewrite match_at_seq, rmatch_cls_cons. unfold is_char at 1.
  destruct (N.eqb_spec c (chr "/")) as [->|Hc]; [|by rewrite IH].
  fold (match_at (Star (Cls (is_char "/"))) false s). rewrite match_at_star_cls.
  assert (lstrip_by (is_char "/") s = s) as ->.
  { destruct s as [|d s]; [done|]. simpl. unfold is_char.
    destruct (N.eqb_spec d (chr "/")) as [->|]; [|done].
    simpl in Hstart. by rewrite ?N.eqb_refl in Hstart. }
  cbn [length]. replace (S (length s) - length s)%nat with 1%nat by lia.
  rewrite IH by done. done.
Qed.

Lemma collapse_slashes_id s : contains (py "//") s = false -> collapse_slashes s = s.
Proof. apply collapse_slashes_from. Qed.

(** *** Stable entries *)

(** An entry that the pipeline gives back as it is: plain characters only
    (nothing to encode), no empty segment, no leading dot, no traversal
    indicator, no file-like last segment (a version folder apart), and not
    longer than the default [--maxlen]. *)
Definition stable (e : str) : bool :=
  forallb plain_char e && negb (is_empty e) &&
  negb (startswith (py "/") e) && negb (endswith (py "/") e) &&
  negb (contains (py "//") e) &&
  negb (startswith (py ".") e) && negb (has_lfi e) &&
  negb (file_like (last_segment e) && negb (re_match VERSION_RE (last_segment e))) &&
  (length e <=? 200)%nat.

Lemma candidate_stable e : stable e = true -> candidate e = Some e.
Proof.
  unfold stable. rewrite !andb_true_iff, !negb_true_iff.
  intros ((((((((Hplain & Hne) & Hlead) & Htrail) & Hdouble) & _) & _) & _) & _).
  assert (chr "010" ∉ e) as Hnl by by apply plain_no_char.
  unfold candidate. cbv zeta.
  rewrite (plain_chomp e Hplain), Hne, (plain_lstrip e Hplain).
  rewrite (COMMENT_RE_no_hash e) by by apply plain_no_char.
  rewrite (plain_strip e Hplain).
  rewrite (URL_SCHEME_HOST_RE_no_colon e) by by apply plain_no_char.
  rewrite (query_fragment_cut e Hnl), (before_marker_id e) by by apply plain_no_char.
  rewrite (plain_strip e Hplain), Hne.
  rewrite (LEADING_SLASHES_id e Hlead), (TRAILING_SLASHES_id e Hnl Htrail), Hne.
  rewrite (collapse_slashes_id e Hdouble), (plain_normalize_and_map e Hplain), Hne.
  done.
Qed.

Lemma process_line_stable st e :
  stable e = true -> process_line default_args st e = emit e st.
Proof.
  intros Hst. unfold process_line. rewrite (candidate_stable e Hst).
  revert Hst. unfold stable. rewrite !andb_true_iff, !negb_true_iff.
  intros ((((((((Hplain & _) & _) & _) & _) & Hdot) & Hlfi) & Hfile) & Hlen).
  unfold classify. rewrite Hdot. unfold nondot_branch. rewrite Hlfi.
  cbn [iis default_args]. rewrite plain_lower, Hfile, plain_percent_encode by done.
  assert (too_long default_args e = false) as ->.
  { apply too_long_false. unfold fits. cbn [maxlen default_args].
    apply Nat.leb_le in Hlen. lia. }
  done.
Qed.

Lemma foldl_emit_fresh es st :
  wf_output (out st) -> NoDup es -> (forall e, e ∈ es -> e ∉ out_order (out st)) ->
  Forall (fun e => stable e = true) es ->
  out_order (out (foldl (process_line default_args) st es)) = out_order (out st) ++ es.
Proof.
  revert st. induction es as [|e es IH]; intros st Hwf Hnd Hfresh Hst; simpl.
  - by rewrite app_nil_r.
  - apply NoDup_cons in Hnd as [He Hnd]. apply Forall_cons in Hst as [Hste Hst].
    rewrite (process_line_stable st e Hste).
    assert (e ∉ seen (out st)) as Hseen.
    { destruct Hwf as [_ Hiff]. rewrite Hiff. apply Hfresh. by left. }
    assert (out_order (out (emit e st)) = out_order (out st) ++ [e]) as Hout.
    { rewrite out_emit. unfold add_entry. by rewrite decide_False. }
    rewrite IH; [by rewrite Hout, <- app_assoc | | done | | done].
    + rewrite out_emit. by apply add_entry_grows.
    + intros x Hx. rewrite Hout. intros [Hin | ->%list_elem_of_singleton]%elem_of_app.
      * apply (Hfresh x); [by right | done].
      * done.
Qed.

(** C4, as amended.  With the default options, when every entry of the
    output is stable (plain characters, no empty segment, no leading dot, no
    traversal indicator, no file-like last segment, at most 200
    characters), the output run through the pipeline again comes out the
    same, entry by entry and in the same order; one stable line alone yields
    itself. *)
Theorem C4_stable_output_is_a_fixpoint (lines : list str) (e : str) :
  (Forall (fun e => stable e = true) (entries default_args lines) ->
   entries default_args (entries default_args lines) = entries default_args lines) /\
  (stable e = true -> entries default_args [e] = [e]).
Proof.
  assert (forall es, NoDup es -> Forall (fun e => stable e = true) es ->
            entries default_args es = es) as H.
  { intros es Hnd Hst. unfold entries, run.
    rewrite foldl_emit_fresh; [done | apply wf_empty_output | done | | done].
    intros x _. apply not_elem_of_nil. }
  split.
  - intros Hst. apply H; [|done].
    apply (run_wf default_args lines).
  - intros Hst. apply H; [apply NoDup_singleton | by constructor].
Qed.

End C4.

Lemma C4_witness :
  CleanDirectory.entries (U := ascii_only) CleanDirectory.default_args
    (CleanDirectory.entries (U := ascii_only) CleanDirectory.default_args
       [py "///foo//bar///"; py "v1.2/Users"; py "api/admin-panel_v2"])
  = CleanDirectory.entries (U := ascii_only) CleanDirectory.default_args
      [py "///foo//bar///"; py "v1.2/Users"; py "api/admin-panel_v2"] /\
  CleanDirectory.entries (U := ascii_only) CleanDirectory.default_args [py "foo/bar"]
  = [py "foo/bar"].
Proof.
  split.
  - refine (proj1 (C4_stable_output_is_a_fixpoint (U := ascii_only)
      [py "///foo//bar///"; py "v1.2/Users"; py "api/admin-panel_v2"] []) _).
    assert (CleanDirectory.entries (U := ascii_only) CleanDirectory.default_args
              [py "///foo//bar///"; py "v1.2/Users"; py "api/admin-panel_v2"]
            = [py "foo/bar"; py "v1.2/users"; py "api/admin-panel_v2"]) as ->
      by (by vm_compute).
    repeat constructor; by vm_compute.
  - refine (proj2 (C4_stable_output_is_a_fixpoint (U := ascii_only) [] (py "foo/bar")) _).
    by vm_compute.
Defined.

(** The claim as it was stated: the output, run through the pipeline again,
    is the same.  The line [a b] yields [a%20b], and [a%20b] yields
    [a%2520b]: the percent sign is encoded again. *)
Lemma C4_counterexample :
  py "a%20b" <> py "a%2520b" /\
  forall U : PyUnicode,
    CleanDirectory.entries CleanDirectory.default_args [py "a b"] = [py "a%20b"] /\
    CleanDirectory.entries CleanDirectory.default_args
      (CleanDirectory.entries CleanDirectory.default_args [py "a b"])
    = [py "a%2520b"].
Proof. split; [by vm_compute|]. intros U. by vm_compute. Qed.

(** * C5: file-like last segments and version folders *)

Section C5.
Import CleanDirectory CleanDirectoryFacts.
Context {U : PyUnicode}.

(** The last segment looks like a file name: some characters, a dot, and
    one to six ASCII letters or digits. *)
Definition ends_like_a_file (seg : str) : Prop :=
  exists stem ext, seg = stem ++ py "." ++ ext /\ stem <> [] /\
    (1 <= length ext <= 6)%nat /\ forallb ascii_alnum ext = true.

(** A version folder: [v] in either case, digits, and groups of a dot and
    digits. *)
Definition version_folder (seg : str) : Prop :=
  exists v digits groups, seg = v :: digits ++ concat groups /\
    re_ignorecase_lit (chr "v") v = true /\
    digits <> [] /\ forallb py_isdecimal digits = true /\
    Forall (fun g => g <> [] /\
              exists ds, g = py "." ++ ds /\ ds <> [] /\ forallb py_isdecimal ds = true)
      groups.

Lemma forallb_not_slash seg : chr "/" ∉ seg -> forallb not_slash seg = true.
Proof.
  induction seg as [|c seg IH]; intros H; [done|]. simpl.
  apply not_elem_of_cons in H as [Hc H]. rewrite IH by done.
  unfold not_slash, is_char. by destruct (N.eqb_spec c (chr "/")).
Qed.

Lemma not_slash_forallb seg : forallb not_slash seg = true -> chr "/" ∉ seg.
Proof.
  induction seg as [|c seg IH]; simpl; [set_solver|].
  intros [Hc H]%andb_true_iff. apply not_elem_of_cons. split; [|by apply IH].
  unfold not_slash, is_char in Hc. by destruct (N.eqb_spec c (chr "/")).
Qed.

Lemma file_like_of_shape seg :
  chr "/" ∉ seg -> ends_like_a_file seg -> file_like seg = true.
Proof.
  intros Hs (stem & ext & -> & Hne & Hlen & Hext). apply re_search_true.
  exists [], (py "/" ++ stem ++ py "." ++ ext), []. split; [by rewrite app_nil_r|].
  unfold FILE_LIKE_RE. cbn [Seqs is_empty].
  apply m_seq; [by apply m_alt_r, matches_lit|].
  apply m_seq.
  { apply matches_plus_cls. split; [done|]. apply forallb_not_slash.
    intros Hin. apply Hs. apply elem_of_app. by left. }
  apply m_seq; [by apply matches_lit|].
  rewrite <- (app_nil_r ext). apply m_seq; [|by apply m_eol].
  apply matches_between_cls; [lia | by split].
Qed.

Lemma shape_of_file_like seg :
  chr "/" ∉ seg -> chr "010" ∉ seg -> file_like seg = true -> ends_like_a_file seg.
Proof.
  intros Hs Hnl (pre & u & v & E & H)%re_search_true.
  unfold FILE_LIKE_RE in H. cbn [Seqs] in H.
  apply matches_seq in H as (start & u1 & -> & Hstart & H).
  apply matches_seq in H as (stem & u2 & -> & [Hne Hstem]%matches_plus_cls & H).
  apply matches_seq in H as (dot & u3 & -> & ->%matches_lit & H).
  apply matches_seq in H as (ext & u4 & -> & Hext & [-> Hv]%matches_eol).
  apply matches_between_cls in Hext as [Hlen Hext]; [|lia].
  rewrite app_nil_r in E.
  destruct stem as [|c stem]; [done|]. simpl in Hstem.
  apply andb_true_iff in Hstem as [Hc Hstem].
  assert (c <> chr "/") as Hc'.
  { unfold not_slash, is_char in Hc. by destruct (N.eqb_spec c (chr "/")). }
  apply matches_alt in Hstart as [[-> Hb]%matches_bol | ->%matches_lit].
  - destruct pre; [|done]. simpl in E. by injection E as <-.
  - destruct pre as [|c' pre].
    + injection E as ->. assert (v = []) as ->.
      { apply at_eol_no_newline; [|done]. intros Hin. apply Hnl.
        elem_of_pieces. }
      exists (c :: stem), ext. rewrite !app_nil_r. split; [reflexivity|].
      split; [done|]. split; [exact Hlen | exact Hext].
    + injection E as Ec E. subst c' seg. exfalso. apply Hs. simpl. elem_of_pieces.
Qed.

(** One group [\.\d+] of the version pattern. *)
Definition version_group : re := Seq (Lit ".") (Plus (Cls py_isdecimal)).

Lemma matches_version_group b u v :
  matches version_group b u v <->
  exists ds, u = py "." ++ ds /\ ds <> [] /\ forallb py_isdecimal ds = true.
Proof.
  unfold version_group. rewrite matches_seq. split.
  - intros (u1 & u2 & -> & ->%matches_lit & [Hne H]%matches_plus_cls). eauto.
  - intros (ds & -> & Hne & H). exists (py "."), ds.
    split_and!; [done | by apply matches_lit | by apply matches_plus_cls].
Qed.

Lemma version_of_shape seg : version_folder seg -> re_match VERSION_RE seg = true.
Proof.
  intros (c & digits & groups & -> & Hv & Hne & Hd & Hg). apply re_match_true.
  exists (c :: digits ++ concat groups), []. split; [by rewrite app_nil_r|].
  unfold VERSION_RE. cbn [Seqs].
  apply (m_seq _ _ _ [] (c :: digits ++ concat groups)); [apply m_bol|].
  apply (m_seq _ _ _ [c] (digits ++ concat groups)); [by apply m_cls|].
  apply m_seq; [by apply matches_plus_cls|].
  rewrite <- (app_nil_r (concat groups)). apply m_seq; [|by apply m_eol].
  apply (pieces_star _ (fun g => exists ds, g = py "." ++ ds /\ ds <> [] /\
                                   forallb py_isdecimal ds = true)); [|done].
  intros b u v H. by apply matches_version_group.
Qed.

Lemma shape_of_version seg :
  chr "010" ∉ seg -> re_match VERSION_RE seg = true -> version_folder seg.
Proof.
  intros Hnl (u & v & -> & H)%re_match_true.
  unfold VERSION_RE in H. cbn [Seqs] in H.
  apply matches_seq in H as (u0 & u1 & -> & [-> _]%matches_bol & H).
  apply matches_seq in H as (uv & u2 & -> & (c & -> & Hc)%matches_cls & H).
  apply matches_seq in H as (digits & u3 & -> & [Hne Hd]%matches_plus_cls & H).
  apply matches_seq in H as (gs & u4 & -> & Hgs & [-> Hv]%matches_eol).
  apply (star_pieces _ (fun g => exists ds, g = py "." ++ ds /\ ds <> [] /\
                                   forallb py_isdecimal ds = true)) in Hgs
    as (groups & -> & Hgroups); [|intros ???; apply matches_version_group].
  assert (v = []) as ->.
  { apply at_eol_no_newline; [|done]. intros Hin. apply Hnl.
    elem_of_pieces. }
  exists c, digits, groups. rewrite !app_nil_r. done.
Qed.

Lemma last_segment_no_slash s : chr "/" ∉ last_segment s.
Proof.
  apply (split_no_sep _ s). apply last_elem_of, split_nonempty.
Qed.

(** C5, as amended.  For a candidate without a leading dot that the
    traversal filter lets through: when its last segment, after case
    folding, is made of one or more characters, a dot and one to six ASCII
    letters or digits, and does not match the version pattern, the line adds
    nothing to the output; when the segment matches the version pattern, the
    encoded candidate is in the output afterwards, provided it is not longer
    than [--maxlen].  On a segment without line feed the version pattern
    means: [v] in either case, digits, then groups of a dot and digits.  With
    the defaults, [https://x.com/Admin/Login.PHP?x=1] is dropped and
    [v1.2/Users] yields [v1.2/users]. *)
Theorem C5_file_like_last_segment_is_dropped (a : args) (lines : list str) (raw s : str) :
  let folded := if iis a then s else py_lower s in
  let last := last_segment folded in
  candidate raw = Some s ->
  startswith (py ".") s = false ->
  has_lfi s = false ->
  (ends_like_a_file last -> re_match VERSION_RE last = false ->
     entries a (lines ++ [raw]) = entries a lines) /\
  (re_match VERSION_RE last = true -> fits a (percent_encode_keep_slash folded) ->
     percent_encode_keep_slash folded ∈ entries a (lines ++ [raw])) /\
  (chr "010" ∉ last -> re_match VERSION_RE last = true <-> version_folder last) /\
  entries default_args [py "https://x.com/Admin/Login.PHP?x=1"] = [] /\
  entries default_args [py "v1.2/Users"] = [py "v1.2/users"].
Proof.
  intros folded last Hc Hdot Hlfi.
  assert (entries a (lines ++ [raw]) =
          out_order (out (nondot_branch a (chomp raw) s (run a lines)))) as E.
  { rewrite entries_snoc. unfold process_line, classify. by rewrite Hc, Hdot. }
  rewrite E. unfold nondot_branch. rewrite Hlfi. fold folded. fold last.
  split_and!.
  - intros Hfile Hver. rewrite file_like_of_shape, Hver; [|apply last_segment_no_slash|done].
    simpl. by rewrite out_report.
  - intros Hver Hfits. rewrite Hver, andb_false_r.
    apply too_long_false in Hfits as ->. apply emit_all_elem, run_wf.
  - intros Hnl. split; [by apply shape_of_version | apply version_of_shape].
  - by vm_compute.
  - by vm_compute.
Qed.

End C5.

Lemma C5_witness :
  CleanDirectory.entries (U := ascii_only) CleanDirectory.default_args
    ([] ++ [py "Admin/Login.PHP"])
  = CleanDirectory.entries (U := ascii_only) CleanDirectory.default_args [].
Proof.
  refine (proj1 (C5_file_like_last_segment_is_dropped (U := ascii_only)
           CleanDirectory.default_args [] (py "Admin/Login.PHP") (py "Admin/Login.PHP")
           eq_refl eq_refl eq_refl) _ _).
  - exists (py "login"), (py "php"). split_and!; [reflexivity | done | simpl; lia | simpl; lia | reflexivity].
  - reflexivity.
Defined.

(** The claim as it was stated drops every last segment that ends in a dot
    and one to six letters or digits.  The segment [.php] of [a/.php] ends
    so, is no version folder, and the entry is kept: the pattern asks for a
    character before the dot. *)
Lemma C5_counterexample :
  CleanDirectory.last_segment (py "a/.php") = [] ++ py "." ++ py "php" /\
  forallb ascii_alnum (py "php") = true /\
  forall U : PyUnicode,
    re_match CleanDirectory.VERSION_RE (py ".php") = false /\
    CleanDirectory.has_lfi (py "a/.php") = false /\
    CleanDirectory.entries CleanDirectory.default_args [py "a/.php"] = [py "a/.php"].
Proof. split_and!; [done | done |]. intros U. by vm_compute. Qed.

(** * C6: the two variants of a dot-prefixed entry *)

Section C6.
Import CleanDirectory CleanDirectoryFacts.
Context {U : PyUnicode}.

(** One extension group: a dot and 1 to 63 ASCII letters, digits or
    hyphens. *)
Definition dot_ext_group (g : str) : Prop :=
  exists e, g = py "." ++ e /\ (1 <= length e <= 63)%nat /\
    forallb alnum_or_hyphen e = true.

(** One or more extension groups. *)
Definition dot_ext_groups (u : str) : Prop :=
  exists gs, gs <> [] /\ Forall dot_ext_group gs /\ u = concat gs.

Lemma matches_dot_ext_group b u v :
  matches (Seq (Lit ".") (Between 1 63 (Cls alnum_or_hyphen))) b u v <-> dot_ext_group u.
Proof.
  rewrite matches_seq. split.
  - intros (u1 & u2 & -> & ->%matches_lit & [Hlen H]%matches_between_cls); [|lia].
    by exists u2.
  - intros (e & -> & Hlen & H). exists (py "."), e.
    split_and!; [done | by apply matches_lit | by apply matches_between_cls; [lia|]].
Qed.

(** What [DOT_EXT_RE.sub('', core)] leaves of a core that a line feed does
    not end: the core without its longest ending made of extension
    groups. *)
Lemma strip_dot_extensions core :
  List.last core 0 <> chr "010" ->
  suffix_stripped dot_ext_groups core (re_sub DOT_EXT_RE [] core).
Proof.
  intros Hlast. apply (re_sub_groups_at_end _ dot_ext_group); [|  |done].
  - intros b u v. apply matches_dot_ext_group.
  - intros u (e & -> & _). done.
Qed.

(** A variant goes through the encoder and the length gate, and is added
    unless it is there already. *)
Definition gate (a : args) (variant : str) (o : output) : output :=
  let encoded := percent_encode_keep_slash variant in
  if too_long a encoded then o else add_entry encoded o.

Lemma out_emit_dot_variants a line vs st :
  out (emit_dot_variants a line vs st) = foldl (fun o v => gate a v o) (out st) vs.
Proof.
  revert st. induction vs as [|v vs IH]; intros st; simpl; [done|].
  unfold gate at 2. destruct (too_long a _); rewrite IH; [by rewrite out_report | done].
Qed.

(** C6, as amended.  For a candidate that starts with a dot, with
    [strip-dot-extensions] on and [drop-leading-dot] off: the core is what
    follows the dot, case-folded, without its longest ending made of groups
    of a dot and 1 to 63 letters, digits or hyphens; a candidate whose core
    is empty before or after the stripping emits nothing; any other has
    exactly two variants, the core with the dot and the bare core, each
    encoded and added unless it is longer than [--maxlen] or there
    already.  With the defaults [.env.production] yields [.env] and
    [env]. *)
Theorem C6_dot_entry_yields_dot_form_and_bare_core (a : args) (line s : str) (st : state) :
  strip_dot_ext a = true ->
  drop_leading_dot a = false ->
  startswith (py ".") s = true ->
  let folded := if iis a then drop 1 s else py_lower (drop 1 s) in
  let core := dot_core a s in
  (drop 1 s <> [] -> core = re_sub DOT_EXT_RE [] folded) /\
  (List.last folded 0 <> chr "010" ->
     suffix_stripped dot_ext_groups folded (re_sub DOT_EXT_RE [] folded)) /\
  (core = [] -> out (classify a line s st) = out st) /\
  (core <> [] ->
     dot_variants a core = [chr "." :: core; core] /\
     out (classify a line s st) = gate a core (gate a (chr "." :: core) (out st))) /\
  entries default_args [py ".env.production"] = [py ".env"; py "env"].
Proof.
  intros Hstrip Hdrop Hdot folded core. unfold classify. rewrite Hdot.
  split_and!.
  - intros Hne. unfold core, dot_core. rewrite Hstrip.
    by destruct (drop 1 s).
  - apply strip_dot_extensions.
  - intros Hcore. unfold dot_branch. fold core. rewrite Hcore. simpl.
    destruct (is_empty (drop 1 s)); [done | by rewrite out_report].
  - intros Hcore.
    assert (dot_variants a core = [chr "." :: core; core]) as Hv
      by (unfold dot_variants; by rewrite Hdrop).
    split; [done|]. unfold dot_branch. fold core.
    assert (drop 1 s <> []) as Hne.
    { intros E. apply Hcore. unfold core, dot_core. by rewrite E. }
    destruct (drop 1 s) eqn:E; [done|]. cbn [is_empty].
    destruct core; [done|]. cbn [is_empty].
    by rewrite out_emit_dot_variants, Hv.
  - by vm_compute.
Qed.

End C6.

Lemma C6_witness :
  CleanDirectory.out
    (CleanDirectory.classify (U := ascii_only) CleanDirectory.default_args
       (py ".example.com") (py ".example.com") CleanDirectory.initial)
  = gate CleanDirectory.default_args (py "example")
      (gate CleanDirectory.default_args (py ".example") empty_output).
Proof.
  refine (proj2 (proj1 (proj2 (proj2 (proj2
    (C6_dot_entry_yields_dot_form_and_bare_core (U := ascii_only)
       CleanDirectory.default_args (py ".example.com") (py ".example.com")
       CleanDirectory.initial eq_refl eq_refl eq_refl)))) _)).
  by vm_compute.
Defined.

(** The claim as it was stated gives every dot-prefixed candidate two
    variants.  The candidates [..a] (its core [.a] is one extension group)
    and [.] (no core) yield nothing. *)
Lemma C6_counterexample :
  startswith (py ".") (py "..a") = true /\
  forall U : PyUnicode,
    CleanDirectory.candidate (py "..a") = Some (py "..a") /\
    CleanDirectory.entries CleanDirectory.default_args [py "..a"] = [] /\
    CleanDirectory.entries CleanDirectory.default_args [py "."] = [].
Proof. split; [done|]. intros U. by vm_compute. Qed.

Section C7.
Import CleanDirectory CleanDirectoryFacts.
Context {U : PyUnicode}.

Definition with_trailing_variant : args := {|
  iis := false;
  maxlen := 200;
  add_trailing_variant := true;
  sorted := false;
  verbose := false;
  strip_dot_ext := true;
  drop_leading_dot := false
|}.

(** C7 (the code breaks it).  With [--add-trailing-variant] and the default
    [--maxlen 200], a line of 200 letters [a] passes the length check and
    then yields two entries, the second of which, with its slash, has 201
    characters. *)
Theorem C7_trailing_variant_is_longer_than_maxlen :
  entries with_trailing_variant [replicate 200 (chr "a")] =
    [replicate 200 (chr "a"); replicate 200 (chr "a") ++ py "/"] /\
  ~ Forall (fits with_trailing_variant)
      (entries with_trailing_variant [replicate 200 (chr "a")]).
Proof.
  assert (entries with_trailing_variant [replicate 200 (chr "a")] =
    [replicate 200 (chr "a"); replicate 200 (chr "a") ++ py "/"]) as E
    by (vm_compute; reflexivity).
  split; [done|]. rewrite E. intros H.
  apply Forall_cons in H as [_ H]. apply Forall_cons in H as [H _].
  revert H. unfold fits. vm_compute. intros H. by apply H.
Qed.

End C7.

Section C8.
Import CleanDirectory CleanDirectoryFacts.
Context {U : PyUnicode}.

(** C8.  Whatever the options and the input lines, the list [out_order] of
    accepted entries holds no string twice and holds exactly the members of
    the set [seen] that every addition checks first; the lines written at
    the end (sorted or not) hold no string twice either; and the entries of
    a longer input extend those of its beginning, so first-seen order is
    kept. *)
Theorem C8_output_never_holds_a_duplicate (a : args) (lines : list str) :
  NoDup (entries a lines) /\
  (forall v, v ∈ seen (out (run a lines)) <-> v ∈ entries a lines) /\
  NoDup (written a lines) /\
  (forall more, entries a lines `prefix_of` entries a (lines ++ more)).
Proof.
  pose proof (foldl_process_line_grows a lines initial) as [Hwf _].
  destruct (Hwf wf_empty_output) as [Hnd Hiff].
  split_and!; [done | done | |].
  - unfold written. destruct (sorted a); [|done].
    unfold py_sorted. by rewrite merge_sort_Permutation.
  - intros more. unfold entries, run. rewrite foldl_app.
    apply foldl_process_line_grows.
Qed.

End C8.

(** * C9: the extension stripper of the filename converter *)

Lemma matches_lits cls e b u v :
  matches (Lits cls e) b u v <-> Forall2 (fun p c => cls p c = true) e u.
Proof.
  revert b u. induction e as [|p e IH]; intros b u; simpl.
  - rewrite matches_eps. split; [intros ->; constructor | by inversion 1].
  - rewrite matches_seq. split.
    + intros (u1 & u2 & -> & (c & -> & Hc)%matches_cls & H%IH). by constructor.
    + inversion 1 as [|? c ? u' Hc Hu]; subst. exists [c], u'.
      split_and!; [done | by apply m_cls | by apply IH].
Qed.

Lemma matches_alts rs b u v :
  matches (Alts rs) b u v <-> exists r, r ∈ rs /\ matches r b u v.
Proof.
  induction rs as [|r [|r' rs] IH].
  - simpl. split; [intros (c & _ & ?)%matches_cls; done | intros (r & Hr & _); by apply elem_of_nil in Hr].
  - simpl. split; [intros H; exists r; split; [by left | done]|].
    intros (r0 & ->%list_elem_of_singleton & H). done.
  - change (Alts (r :: r' :: rs)) with (Alt r (Alts (r' :: rs))). rewrite matches_alt, IH. split.
    + intros [H | (r0 & Hr0 & H)]; [exists r; split; [by left | done]|].
      exists r0. split; [by right | done].
    + intros (r0 & [-> | Hr0]%elem_of_cons & H); [by left | right; eauto].
Qed.

Section SortByLen.
Import ConvertFiles.

Definition longer_first (x y : str) : Prop := (length y <= length x)%nat.

Lemma elem_of_insert_by_len e l x : x ∈ insert_by_len e l <-> x = e \/ x ∈ l.
Proof.
  induction l as [|y l IH]; simpl; [rewrite list_elem_of_singleton, elem_of_nil; tauto|].
  destruct (length e <? length y)%nat; rewrite !elem_of_cons; [rewrite IH|]; tauto.
Qed.

Lemma elem_of_sort_by_len l x : x ∈ sort_by_len l <-> x ∈ l.
Proof.
  induction l as [|y l IH]; simpl; [done|].
  rewrite elem_of_insert_by_len, elem_of_cons, IH. done.
Qed.

Lemma insert_by_len_sorted e l :
  StronglySorted longer_first l -> StronglySorted longer_first (insert_by_len e l).
Proof.
  induction 1 as [|y l Hl IH Hy]; simpl; [repeat constructor|].
  destruct (length e <? length y)%nat eqn:E.
  - apply Nat.ltb_lt in E. constructor; [done|].
    apply Forall_forall. intros x [-> | Hx]%elem_of_insert_by_len.
    + unfold longer_first. lia.
    + by apply (proj1 (Forall_forall _ _) Hy).
  - apply Nat.ltb_ge in E. constructor; [by constructor|].
    constructor; [done|]. eapply Forall_impl; [exact Hy|].
    unfold longer_first. intros x Hx. lia.
Qed.

Lemma sort_by_len_sorted l : StronglySorted longer_first (sort_by_len l).
Proof.
  induction l as [|y l IH]; simpl; [constructor | by apply insert_by_len_sorted].
Qed.

(** [sorted_exts]: the extensions of the table, each once, a longer one
    before a shorter one. *)
Lemma sorted_exts_spec l :
  StronglySorted longer_first (sorted_exts l) /\
  NoDup (sorted_exts l) /\
  forall e, e ∈ sorted_exts l <-> e ∈ l.
Proof.
  unfold sorted_exts. split_and!.
  - apply sort_by_len_sorted.
  - assert (forall l', NoDup l' -> NoDup (sort_by_len l')) as H.
    { induction 1 as [|y l' Hy Hl' IH]; simpl; [constructor|].
      revert IH. generalize (sort_by_len l') (elem_of_sort_by_len l' y).
      intros s Hs IH. assert (y ∉ s) as Hys by (by rewrite Hs). clear Hs.
      induction IH as [|z s Hz Hnd IH']; simpl; [apply NoDup_singleton|].
      apply not_elem_of_cons in Hys as [Hyz Hys].
      destruct (length y <? length z)%nat.
      - constructor; [|by apply IH'].
        rewrite elem_of_insert_by_len. intros [-> | Hin]; done.
      - constructor; [|by constructor].
        apply not_elem_of_cons. by split. }
    apply H, NoDup_remove_dups.
  - intros e. by rewrite elem_of_sort_by_len, elem_of_remove_dups.
Qed.

End SortByLen.

Section C9.
Import ConvertFiles.
Context {U : PyUnicode}.

(** [e'] is the extension [e], case-insensitively. *)
Definition ext_matches (e e' : str) : Prop :=
  Forall2 (fun p c => re_ignorecase_lit p c = true) e e'.

(** One group: a dot and an extension of the table. *)
Definition ext_group (exts : list str) (g : str) : Prop :=
  exists e e', e ∈ exts /\ ext_matches e e' /\ g = py "." ++ e'.

(** One or more groups. *)
Definition ext_groups (exts : list str) (u : str) : Prop :=
  exists gs, gs <> [] /\ Forall (ext_group exts) gs /\ u = concat gs.

Lemma ext_group_iff exts1 exts2 g :
  (forall e, e ∈ exts1 <-> e ∈ exts2) -> ext_group exts1 g <-> ext_group exts2 g.
Proof.
  intros H. split; intros (e & e' & He & Hm & ->); exists e, e';
    (split_and!; [by apply H | done | done]).
Qed.

Lemma matches_ext_group alts b u v :
  matches (Seq (Lit ".") (Alts (map ext_alternative alts))) b u v <-> ext_group alts u.
Proof.
  rewrite matches_seq. split.
  - intros (u1 & u2 & -> & ->%matches_lit & (r & Hr & H)%matches_alts).
    apply list_elem_of_fmap in Hr as (e & -> & He). apply matches_lits in H.
    by exists e, u2.
  - intros (e & e' & He & Hm & ->). exists (py "."), e'.
    split_and!; [done | by apply matches_lit |].
    apply matches_alts. exists (ext_alternative e). split.
    + apply list_elem_of_fmap. by exists e.
    + by apply matches_lits.
Qed.

Lemma suffix_stripped_iff (P Q : str -> Prop) s r :
  (forall u, P u <-> Q u) -> suffix_stripped P s r -> suffix_stripped Q s r.
Proof.
  intros H (g & E & Hg & Hmin). exists g. split_and!; [done | |].
  - destruct Hg as [-> | Hg]; [by left | right; by apply H].
  - intros r' g' E' Hg'. apply (Hmin r' g' E'). by apply H.
Qed.

Lemma suffix_stripped_unique (P : str -> Prop) s r1 r2 :
  suffix_stripped P s r1 -> suffix_stripped P s r2 -> r1 = r2.
Proof.
  assert (forall r g r' g', s = r ++ g ->
            (forall r0 g0, s = r0 ++ g0 -> P g0 -> (length r <= length r0)%nat) ->
            s = r' ++ g' -> (g' = [] \/ P g') -> (length r <= length r')%nat) as H.
  { intros r g r' g' E Hmin E' [-> | Hg']; [|by apply (Hmin r' g')].
    rewrite app_nil_r in E'. rewrite E' in E. rewrite E, length_app. lia. }
  intros (g1 & E1 & Hg1 & Hmin1) (g2 & E2 & Hg2 & Hmin2).
  assert (length r1 = length r2) as Hlen.
  { apply Nat.le_antisymm; [by apply (H r1 g1 r2 g2) | by apply (H r2 g2 r1 g1)]. }
  rewrite E1 in E2. by apply app_inj_1 in E2 as [? _].
Qed.

Lemma ext_groups_iff exts1 exts2 u :
  (forall e, e ∈ exts1 <-> e ∈ exts2) -> ext_groups exts1 u <-> ext_groups exts2 u.
Proof.
  intros H. split; intros (gs & Hne & Hgs & ->); exists gs; split_and!; try done;
    (eapply Forall_impl; [exact Hgs|]); intros g; by apply ext_group_iff.
Qed.

(** What [ext_re.sub("", stem)] leaves of a stem that a line feed does not
    end: the stem without its longest ending made of groups. *)
Lemma strip_extensions_pattern alts stem :
  List.last stem 0 <> chr "010" ->
  suffix_stripped (ext_groups alts) stem (re_sub (ext_pattern alts) [] stem).
Proof.
  intros Hlast. unfold ext_pattern. cbn [Seqs].
  apply (re_sub_groups_at_end _ (ext_group alts)); [| |done].
  - intros b u v. apply matches_ext_group.
  - intros u (e & e' & _ & _ & ->). done.
Qed.

Lemma strip_extensions exts stem :
  List.last stem 0 <> chr "010" ->
  suffix_stripped (ext_groups exts) stem (re_sub (build_ext_regex exts) [] stem).
Proof.
  intros Hlast. unfold build_ext_regex.
  eapply suffix_stripped_iff; [|by apply strip_extensions_pattern].
  intros u. apply ext_groups_iff. intros e. apply sorted_exts_spec.
Qed.





(** *** The last component of a path *)

(** A relative path in normal form: components that are not empty, hold no
    slash and are not [.]. *)
Definition normal_segments (segs : list str) : Prop :=
  segs <> [] /\ Forall (fun seg => seg <> [] /\ (chr "/" ∉ seg) /\ seg <> py ".") segs.

Lemma filter_normal segs :
  Forall (fun seg => seg <> [] /\ (chr "/" ∉ seg) /\ seg <> py ".") segs ->
  filter (fun x => x <> [] /\ x <> py ".") segs = segs.
Proof.
  induction 1 as [|seg segs (H1 & _ & H2) _ IH]; [done|].
  rewrite filter_cons_True by done. by rewrite IH.
Qed.

Lemma join_normal_head segs :
  normal_segments segs ->
  exists c z, join (py "/") segs = c :: z /\ c <> chr "/".
Proof.
  intros [Hne H]. destruct segs as [|p ps]; [done|].
  apply Forall_cons in H as [(Hp & Hs & _) _].
  destruct (join_head (py "/") p ps Hp) as (c & z & E & Hc). exists c, z. split; [done|].
  intros ->. apply Hs. destruct p; [done|]. injection Hc as ->. by left.
Qed.





End C9.


(** * C10: marker lines of the filename converter *)

Section C10.
Import ConvertFiles.
Context {U : PyUnicode}.

Lemma marker_facts c :
  is_marker c = true ->
  py_isspace c = false /\ (c =? BOM) = false /\ startswith (py "//") [c] = false.
Proof.
  unfold is_marker, is_char. intros H.
  repeat (apply orb_true_iff in H as [H | H]);
    apply N.eqb_eq in H as ->; by vm_compute.
Qed.

Lemma cut_inline_take seqs line : exists n, cut_inline seqs line = take n line.
Proof.
  induction seqs as [|seq seqs IH]; simpl.
  - exists (length line). by rewrite take_ge.
  - destruct (find seq line) as [i|]; [by exists i | done].
Qed.

(** A line whose first character that is no white space is [c], cut
    anywhere and trimmed, is empty or starts with [c]. *)
Lemma strip_by_take ws c rest n :
  forallb py_isspace ws = true -> py_isspace c = false ->
  strip_by py_isspace (take n (ws ++ c :: rest)) = [] \/
  exists z, strip_by py_isspace (take n (ws ++ c :: rest)) = c :: z.
Proof.
  intros Hws Hc. destruct (decide (n <= length ws)%nat) as [Hn|Hn].
  - left. rewrite take_app_le by done. apply strip_by_nil. by apply forallb_take.
  - right. rewrite take_app_ge by lia.
    destruct (n - length ws)%nat as [|m] eqn:E; [lia|]. cbn [take].
    unfold strip_by. rewrite lstrip_by_app, lstrip_by_all by done. cbn [app].
    exists (rstrip_by py_isspace (take m rest)).
    by rewrite rstrip_by_cons.
Qed.

Lemma MARKER_RE_cons c z : is_marker c = true -> re_match MARKER_RE (c :: z) = true.
Proof.
  intros Hc. apply re_match_true. exists [c], z. split; [done|].
  unfold MARKER_RE. apply (m_seq _ _ _ [] [c]); [apply m_bol | by apply m_cls].
Qed.

(** C10.  With [keep-markers] off, a line whose first character that is no
    white space is one of [!], [@], [#], [$], [%] yields no entry: the
    accumulator is left as it was.  So [$backup] and [%temp%] are dropped
    with the defaults, and kept with [--keep-markers] (which does not bring
    back a line that starts with [#]: that one is a comment). *)
Theorem C10_marker_lines_are_skipped (o : options) (acc : output) (raw : str)
    (c : char) (rest : str) :
  keep_markers o = false ->
  lstrip_by py_isspace raw = c :: rest ->
  is_marker c = true ->
  process_line o acc raw = acc /\
  process_file [py "$backup"; py "%temp%"] default_options = [] /\
  process_file [py "$backup"; py "%temp%"]
    {| basename_only := false; add_trailing_slash := false; lower := false;
       ext_list := None; keep_markers := true |}
  = [py "$backup"; py "%temp%"] /\
  process_file [py "#backup"]
    {| basename_only := false; add_trailing_slash := false; lower := false;
       ext_list := None; keep_markers := true |}
  = [].
Proof.
  intros Ho Hraw Hc. split; [|split_and!; by vm_compute].
  destruct (marker_facts c Hc) as (Hsp & Hbom & Hss).
  destruct (lstrip_by_decomp py_isspace raw) as (ws & E & Hws). rewrite Hraw in E.
  unfold process_line. assert (entry_of o raw = None) as ->; [|done].
  unfold entry_of. rewrite Ho. cbn [negb andb].
  assert (exists n ws1, forallb py_isspace ws1 = true /\
            (strip_comment raw = [] \/ strip_comment raw = take n (ws1 ++ c :: rest)))
    as (n & ws1 & Hws1 & Hsc).
  { unfold strip_comment. rewrite E, lstrip_by_app by done.
    set (ws1 := lstrip_by _ ws).
    assert (forallb py_isspace ws1 = true) as Hws1 by by apply forallb_lstrip_by.
    destruct (cut_inline_take [py " #"; py " //"] (ws1 ++ c :: rest)) as [n Hn].
    exists n, ws1. split; [done|].
    set (stripped := strip_by py_isspace (ws1 ++ c :: rest)).
    destruct (startswith (py "#") stripped); [by left|].
    destruct (startswith (py "//") stripped); [by left | by right]. }
  destruct Hsc as [-> | ->]; [done|].
  destruct (is_empty (take n (ws1 ++ c :: rest))); [done|].
  destruct (strip_by_take ws1 c rest n Hws1 Hsp) as [-> | [z ->]]; [done|].
  cbn [is_empty]. by rewrite MARKER_RE_cons.
Qed.

End C10.

Lemma C10_witness :
  ConvertFiles.process_line (U := ascii_only) ConvertFiles.default_options empty_output
    (py "  $backup.tar.gz") = empty_output.
Proof.
  refine (proj1 (C10_marker_lines_are_skipped (U := ascii_only) ConvertFiles.default_options
            empty_output (py "  $backup.tar.gz") (chr "$") (py "backup.tar.gz")
            eq_refl eq_refl eq_refl)).
Defined.

(** * [urllib.parse.quote] as the scripts call it *)

(** A Unicode scalar value: what a decoded [str] holds. *)
Definition scalar_value (c : char) : bool :=
  (c <? 55296) || ((57343 <? c) && (c <? 1114112)).

(** The characters [quote(s, safe="/-._~")] copies. *)
Definition kept_char (c : char) : bool := always_safe c || is_char "/" c.

(** The characters of its results. *)
Definition url_char (c : char) : bool := kept_char c || is_char "%" c.

Lemma below_forall (n : nat) (P : N -> Prop) `{forall c, Decision (P c)} :
  forallb (fun c => bool_decide (P c)) (map N.of_nat (seq 0 n)) = true ->
  forall c, c < N.of_nat n -> P c.
Proof.
  intros Hall c Hc. rewrite forallb_forall in Hall.
  apply (proj1 (bool_decide_eq_true _)), Hall, in_map_iff.
  exists (N.to_nat c). split; [apply N2Nat.id|]. apply in_seq. lia.
Qed.

Lemma quote_app safe s t : quote safe (s ++ t) = quote safe s ++ quote safe t.
Proof. unfold quote. by rewrite !flat_map_app. Qed.

Lemma quote_cons safe c s : quote safe (c :: s) = quote safe [c] ++ quote safe s.
Proof. apply (quote_app safe [c] s). Qed.

Lemma utf8_encode_bytes c :
  scalar_value c = true -> Forall (fun b => b < 256) (utf8_encode c).
Proof.
  unfold scalar_value, utf8_encode. intros Hc.
  assert (c < 1114112) as Hlt.
  { apply orb_true_iff in Hc as [Hc | [_ Hc]%andb_true_iff]; apply N.ltb_lt in Hc; lia. }
  clear Hc.
  destruct (N.ltb_spec c 128); [repeat constructor; lia|].
  destruct (N.ltb_spec c 2048).
  { pose proof (N.Div0.div_lt_upper_bound c 64 32). pose proof (N.mod_lt c 64).
    repeat constructor; lia. }
  destruct (N.ltb_spec c 65536).
  { pose proof (N.Div0.div_lt_upper_bound c 4096 16).
    pose proof (N.mod_lt (c / 64) 64). pose proof (N.mod_lt c 64).
    repeat constructor; lia. }
  pose proof (N.Div0.div_lt_upper_bound c 262144 5).
  pose proof (N.mod_lt (c / 4096) 64).
  pose proof (N.mod_lt (c / 64) 64). pose proof (N.mod_lt c 64).
  repeat constructor; lia.
Qed.

Lemma quote_byte_chars b :
  b < 256 -> forallb url_char (quote_byte safe_chars b) = true.
Proof.
  revert b. apply (below_forall 256 (fun b => forallb url_char (quote_byte safe_chars b) = true)).
  by vm_compute.
Qed.

Lemma flat_map_utf8_bytes s :
  Forall (fun c => scalar_value c = true) s ->
  Forall (fun b => b < 256) (flat_map utf8_encode s).
Proof.
  induction 1 as [|c s Hc _ IH]; simpl; [constructor|].
  apply Forall_app. split; [by apply utf8_encode_bytes | done].
Qed.

(** An upper-case hexadecimal digit. *)
Definition hex_upper (c : char) : bool := ascii_digit c || in_range "A" "F" c.

(** The pieces of an encoded string: a character copied, or an escape. *)
Definition encoded_piece (p : str) : Prop :=
  (exists c, p = [c] /\ kept_char c = true) \/
  (exists h l, p = [chr "%"; h; l] /\ hex_upper h = true /\ hex_upper l = true).

Lemma quote_byte_piece b : b < 256 -> encoded_piece (quote_byte safe_chars b).
Proof.
  intros Hb.
  assert ((if always_safe b || (is_ascii b && safe_chars b)
           then kept_char b
           else hex_upper (hex_digit (b / 16)) && hex_upper (hex_digit (b mod 16)))
          = true) as H.
  { revert b Hb. apply (below_forall 256
      (fun b => (if always_safe b || (is_ascii b && safe_chars b)
                 then kept_char b
                 else hex_upper (hex_digit (b / 16)) && hex_upper (hex_digit (b mod 16)))
                = true)).
    by vm_compute. }
  unfold quote_byte. destruct (always_safe b || _).
  - left. by exists b.
  - right. apply andb_true_iff in H as [H1 H2]. by eexists _, _.
Qed.

Lemma kept_char_ascii c : kept_char c = true -> c < 128.
Proof.
  unfold kept_char, always_safe, ascii_alnum, ascii_letter, ascii_lower_letter,
    ascii_upper_letter, ascii_digit, in_range, is_char.
  intros H.
  repeat (apply orb_true_iff in H as [H | H]);
    try (apply andb_true_iff in H as [_ H]; apply N.leb_le in H);
    try apply N.eqb_eq in H; unfold chr in H; cbn in H; lia.
Qed.

Lemma quote_byte_kept b :
  quote_byte safe_chars b =
  if kept_char b then [b]
  else [chr "%"; hex_digit (b / 16); hex_digit (b mod 16)].
Proof.
  unfold quote_byte.
  assert (always_safe b || (is_ascii b && safe_chars b) = kept_char b) as ->; [|done].
  destruct (N.ltb_spec b 128) as [Hb|Hb].
  - revert b Hb. apply (below_forall 128
      (fun b => always_safe b || (is_ascii b && safe_chars b) = kept_char b)).
    by vm_compute.
  - assert (is_ascii b = false) as -> by (apply N.ltb_ge; lia).
    rewrite andb_false_l, orb_false_r. unfold kept_char.
    destruct (kept_char b) eqn:E; [apply kept_char_ascii in E; lia|].
    unfold kept_char in E. apply orb_false_iff in E as [-> ->]. done.
Qed.

(** What one character becomes. *)
Lemma quote_one c :
  quote safe_chars [c] = flat_map (quote_byte safe_chars) (utf8_encode c).
Proof. unfold quote. simpl. by rewrite app_nil_r. Qed.

Lemma quote_byte_length b : (1 <= length (quote_byte safe_chars b))%nat.
Proof. rewrite quote_byte_kept. destruct (kept_char b); simpl; lia. Qed.

Lemma quote_one_kept c : kept_char c = true -> quote safe_chars [c] = [c].
Proof.
  intros H. rewrite quote_one. unfold utf8_encode.
  pose proof (kept_char_ascii c H) as Hc. apply N.ltb_lt in Hc. rewrite Hc.
  simpl. by rewrite quote_byte_kept, H.
Qed.

Lemma quote_one_escaped c :
  kept_char c = false -> (2 <= length (quote safe_chars [c]))%nat.
Proof.
  intros H. rewrite quote_one. unfold utf8_encode.
  destruct (c <? 128).
  { simpl. rewrite quote_byte_kept, H. simpl. lia. }
  repeat match goal with |- context [if ?b then _ else _] => destruct b end;
    cbn [flat_map]; rewrite !length_app;
    repeat match goal with |- context [quote_byte safe_chars ?b] =>
      pose proof (quote_byte_length b); generalize dependent (quote_byte safe_chars b); intros
    end; lia.
Qed.

Lemma quote_length s : (length s <= length (quote safe_chars s))%nat.
Proof.
  induction s as [|c s IH]; [simpl; lia|].
  rewrite quote_cons, length_app. simpl.
  destruct (kept_char c) eqn:E.
  - rewrite quote_one_kept by done. simpl. lia.
  - pose proof (quote_one_escaped c E). lia.
Qed.

Lemma quote_fixed s : quote safe_chars s = s <-> forallb kept_char s = true.
Proof.
  induction s as [|c s IH]; [done|]. rewrite quote_cons. simpl.
  destruct (kept_char c) eqn:E.
  - rewrite quote_one_kept by done. simpl. rewrite <- IH.
    split; [by intros [= ->] | by intros ->].
  - split; [|done]. intros H. apply (f_equal length) in H.
    rewrite length_app in H. simpl in H.
    pose proof (quote_one_escaped c E). pose proof (quote_length s). lia.
Qed.

Lemma quote_pieces s :
  Forall (fun c => scalar_value c = true) s ->
  exists pieces, quote safe_chars s = concat pieces /\ Forall encoded_piece pieces.
Proof.
  intros Hs. apply flat_map_utf8_bytes in Hs. unfold quote.
  induction Hs as [|b bs Hb _ (pieces & E & Hp)]; simpl.
  - by exists [].
  - exists (quote_byte safe_chars b :: pieces). simpl. rewrite E.
    split; [done|]. constructor; [by apply quote_byte_piece | done].
Qed.

Lemma hex_upper_url_char c : hex_upper c = true -> url_char c = true.
Proof.
  unfold hex_upper, url_char, kept_char, always_safe, ascii_alnum, ascii_letter,
    ascii_upper_letter, ascii_lower_letter.
  intros [H|H]%orb_true_iff.
  - rewrite H. by rewrite ?orb_true_r.
  - assert (in_range "A" "Z" c = true) as ->; [|by rewrite ?orb_true_r].
    unfold in_range in *. apply andb_true_iff in H as [H1 H2].
    apply N.leb_le in H1, H2. unfold chr in *. cbn in *.
    apply andb_true_iff. split; apply N.leb_le; lia.
Qed.

Lemma encoded_piece_chars p : encoded_piece p -> forallb url_char p = true.
Proof.
  intros [(c & -> & Hc) | (h & l & -> & Hh & Hl)]; simpl.
  - unfold url_char. by rewrite Hc.
  - by rewrite (hex_upper_url_char h Hh), (hex_upper_url_char l Hl).
Qed.

Lemma forallb_concat {A} (f : A -> bool) (ls : list (list A)) :
  Forall (fun l => forallb f l = true) ls -> forallb f (concat ls) = true.
Proof.
  induction 1 as [|l ls Hl _ IH]; [done|]. simpl. by rewrite forallb_app, Hl, IH.
Qed.

Lemma quote_chars s :
  Forall (fun c => scalar_value c = true) s ->
  forallb url_char (quote safe_chars s) = true.
Proof.
  intros (pieces & -> & Hp)%quote_pieces. apply forallb_concat.
  eapply Forall_impl; [exact Hp | apply encoded_piece_chars].
Qed.

(** ** No two strings share an encoding *)

Lemma flat_map_prefix_code {A B} (f : A -> list B) (P : A -> Prop) :
  (forall a, P a -> f a <> []) ->
  (forall a a' x x', P a -> P a' -> f a ++ x = f a' ++ x' -> a = a' /\ x = x') ->
  forall l l', Forall P l -> Forall P l' -> flat_map f l = flat_map f l' -> l = l'.
Proof.
  intros Hne Hinj l. induction l as [|a l IH]; intros l' Hl Hl' E.
  - destruct l' as [|a' l']; [done|]. simpl in E. symmetry in E.
    apply app_eq_nil in E as [E _]. apply Forall_cons in Hl' as [Ha' _].
    by destruct (Hne a' Ha').
  - destruct l' as [|a' l'].
    + simpl in E. apply app_eq_nil in E as [E _]. apply Forall_cons in Hl as [Ha _].
      by destruct (Hne a Ha).
    + apply Forall_cons in Hl as [Ha Hl]. apply Forall_cons in Hl' as [Ha' Hl'].
      simpl in E. apply Hinj in E as [-> E]; [|done..]. f_equal. by apply IH.
Qed.

Lemma hex_digit_inj n m : n < 16 -> m < 16 -> hex_digit n = hex_digit m -> n = m.
Proof.
  unfold hex_digit, chr. cbn. intros Hn Hm.
  destruct (N.ltb_spec n 10), (N.ltb_spec m 10); lia.
Qed.

Lemma hex_digit_not_percent n : hex_digit n <> chr "%".
Proof. unfold hex_digit, chr. cbn. destruct (N.ltb_spec n 10); lia. Qed.

Lemma kept_char_not_percent b : kept_char b = true -> b <> chr "%".
Proof. intros H ->. by vm_compute in H. Qed.

Lemma quote_byte_prefix_code b b' x x' :
  b < 256 -> b' < 256 ->
  quote_byte safe_chars b ++ x = quote_byte safe_chars b' ++ x' -> b = b' /\ x = x'.
Proof.
  intros Hb Hb'. rewrite !quote_byte_kept.
  destruct (kept_char b) eqn:E, (kept_char b') eqn:E'; simpl.
  - by intros [= -> ->].
  - intros [= -> _]. by apply kept_char_not_percent in E.
  - intros [= <- _]. by apply kept_char_not_percent in E'.
  - intros [= H1 H2 ->]. split; [|done].
    apply hex_digit_inj in H1; [|by apply N.Div0.div_lt_upper_bound..].
    apply hex_digit_inj in H2; [|by apply N.mod_lt..].
    rewrite (N.div_mod b 16), (N.div_mod b' 16) by done. by rewrite H1, H2.
Qed.

Lemma utf8_encode_prefix_code c c' x x' :
  scalar_value c = true -> scalar_value c' = true ->
  utf8_encode c ++ x = utf8_encode c' ++ x' -> c = c' /\ x = x'.
Proof.
  unfold scalar_value. intros Hc Hc'.
  assert (c < 1114112) as Hlt.
  { apply orb_true_iff in Hc as [Hc | [_ Hc]%andb_true_iff]; apply N.ltb_lt in Hc; lia. }
  assert (c' < 1114112) as Hlt'.
  { apply orb_true_iff in Hc' as [Hc' | [_ Hc']%andb_true_iff]; apply N.ltb_lt in Hc'; lia. }
  clear Hc Hc'. unfold utf8_encode.
  pose proof (N.div_mod c 64 ltac:(lia)). pose proof (N.mod_lt c 64 ltac:(lia)).
  pose proof (N.div_mod (c / 64) 64 ltac:(lia)). pose proof (N.mod_lt (c / 64) 64 ltac:(lia)).
  pose proof (N.div_mod (c / 4096) 64 ltac:(lia)). pose proof (N.mod_lt (c / 4096) 64 ltac:(lia)).
  pose proof (N.div_mod c' 64 ltac:(lia)). pose proof (N.mod_lt c' 64 ltac:(lia)).
  pose proof (N.div_mod (c' / 64) 64 ltac:(lia)). pose proof (N.mod_lt (c' / 64) 64 ltac:(lia)).
  pose proof (N.div_mod (c' / 4096) 64 ltac:(lia)). pose proof (N.mod_lt (c' / 4096) 64 ltac:(lia)).
  assert (c / 4096 = c / 64 / 64) as E1 by (rewrite N.Div0.div_div; done).
  assert (c' / 4096 = c' / 64 / 64) as E1' by (rewrite N.Div0.div_div; done).
  assert (c / 262144 = c / 4096 / 64) as E2 by (rewrite N.Div0.div_div; done).
  assert (c' / 262144 = c' / 4096 / 64) as E2' by (rewrite N.Div0.div_div; done).
  destruct (N.ltb_spec c 128), (N.ltb_spec c 2048), (N.ltb_spec c 65536);
    destruct (N.ltb_spec c' 128), (N.ltb_spec c' 2048), (N.ltb_spec c' 65536);
    try lia; simpl; intros E; simplify_eq; try (split; [lia | done]); exfalso; lia.
Qed.

Lemma quote_injective s t :
  Forall (fun c => scalar_value c = true) s ->
  Forall (fun c => scalar_value c = true) t ->
  quote safe_chars s = quote safe_chars t -> s = t.
Proof.
  intros Hs Ht E. unfold quote in E.
  apply (flat_map_prefix_code (quote_byte safe_chars) (fun b => b < 256)) in E;
    [| | | by apply flat_map_utf8_bytes..].
  - revert E. apply (flat_map_prefix_code utf8_encode (fun c => scalar_value c = true));
      [| |done..].
    + intros c _. unfold utf8_encode.
      by repeat match goal with |- context [if ?b then _ else _] => destruct b end.
    + intros c c' x x'. apply utf8_encode_prefix_code.
  - intros b _ H. pose proof (quote_byte_length b) as Hl. rewrite H in Hl. simpl in Hl. lia.
  - intros b b' x x'. apply quote_byte_prefix_code.
Qed.

(** X1.  [percent_encode_keep_slash] (both [clean_directory_wordlist.py] and
    [clean_api_wordlist.py]) turns a string of Unicode scalar values into a
    sequence of pieces, each one character copied (a letter, a digit or one
    of [_.-~/]) or an escape [%XY] with two upper-case hexadecimal digits:
    the result holds no other character. *)
Theorem X1_encoded_string_is_made_of_url_characters (s : str) :
  Forall (fun c => scalar_value c = true) s ->
  forallb url_char (percent_encode_keep_slash s) = true /\
  exists pieces,
    percent_encode_keep_slash s = concat pieces /\ Forall encoded_piece pieces.
Proof. intros Hs. split; [by apply quote_chars | by apply quote_pieces]. Qed.

Lemma X1_witness :
  forallb url_char (percent_encode_keep_slash [97; 32; 47; 233; 8364; 128512]) = true.
Proof.
  refine (proj1 (X1_encoded_string_is_made_of_url_characters
                   [97; 32; 47; 233; 8364; 128512] _)).
  repeat constructor.
Defined.

(** X2.  The encoder never shortens a string, and it gives a string back
    unchanged exactly when every character of it is a letter, a digit or
    one of [_.-~/]. *)
Theorem X2_encoder_fixed_points (s : str) :
  (length s <= length (percent_encode_keep_slash s))%nat /\
  (percent_encode_keep_slash s = s <-> forallb kept_char s = true).
Proof. split; [apply quote_length | apply quote_fixed]. Qed.

(** X3.  Two different strings of Unicode scalar values never get the same
    encoding: the [seen] set, which holds encoded strings, tells apart what
    the candidates tell apart. *)
Theorem X3_encoder_is_injective (s t : str) :
  Forall (fun c => scalar_value c = true) s ->
  Forall (fun c => scalar_value c = true) t ->
  percent_encode_keep_slash s = percent_encode_keep_slash t -> s = t.
Proof. apply quote_injective. Qed.

Lemma X3_witness : [97; 32; 233] = [97; 32; 233].
Proof.
  refine (X3_encoder_is_injective [97; 32; 233] [97; 32; 233] _ _ _);
    [repeat constructor | repeat constructor | reflexivity].
Defined.

(** * Runs of slashes *)

(** One slash for every run of slashes; [prev] says that a slash has just
    been written. *)
Fixpoint squeeze (prev : bool) (s : str) : str :=
  match s with
  | [] => []
  | c :: s' =>
      if is_char "/" c then
        if prev then squeeze true s' else c :: squeeze true s'
      else c :: squeeze false s'
  end.

Lemma sub_from_skip_app r repl b ws rest :
  ws <> [] ->
  sub_from r repl b (length ws) (ws ++ rest) = sub_from r repl false O rest.
Proof.
  revert b. induction ws as [|c ws IH]; intros b Hne; [done|]. simpl.
  destruct ws as [|c' ws]; [done|]. by apply IH.
Qed.

Lemma squeeze_true_run ws rest :
  forallb (is_char "/") ws = true -> squeeze true (ws ++ rest) = squeeze true rest.
Proof.
  induction ws as [|c ws IH]; [done|]. simpl. intros [-> H]%andb_true_iff. by apply IH.
Qed.

Lemma squeeze_not_slash prev s :
  lstrip_by (is_char "/") s = s -> squeeze prev s = squeeze false s.
Proof.
  destruct s as [|c s]; [done|]. simpl. destruct (is_char "/" c) eqn:E; [|done].
  intros H. pose proof (lstrip_by_decomp (is_char "/") s) as (ws & Es & _).
  apply (f_equal length) in H. apply (f_equal length) in Es.
  rewrite length_app in Es. simpl in H. lia.
Qed.

Lemma lstrip_by_idemp f s : lstrip_by f (lstrip_by f s) = lstrip_by f s.
Proof.
  induction s as [|c s IH]; [done|]. simpl. destruct (f c) eqn:E; [done|].
  simpl. by rewrite E.
Qed.

(** [/+] at a slash takes the whole run. *)
Lemma match_at_slashes b c s :
  match_at (Plus (Lit "/")) b (c :: s) =
  if is_char "/" c then Some (lstrip_by (is_char "/") s) else None.
Proof.
  unfold Plus, Lit. rewrite match_at_seq, rmatch_cls_cons.
  destruct (is_char "/" c); [|done]. apply match_at_star_cls.
Qed.

Lemma match_at_slashes_nil b : match_at (Plus (Lit "/")) b [] = None.
Proof. done. Qed.

Lemma sub_slashes_squeeze n : forall b s, (length s <= n)%nat ->
  sub_from (Plus (Lit "/")) (py "/") b O s = squeeze false s.
Proof.
  induction n as [|n IH]; intros b s Hn.
  - destruct s; [done | simpl in Hn; lia].
  - destruct s as [|c s]; [done|]. cbn [sub_from]. rewrite match_at_slashes.
    cbn [squeeze]. destruct (is_char "/" c) eqn:Ec.
    + pose proof (lstrip_by_decomp (is_char "/") s) as (ws & Es & Hws).
      assert (length (c :: s) - length (lstrip_by (is_char "/") s) = S (length ws))%nat as ->.
      { apply (f_equal length) in Es. rewrite length_app in Es. simpl. lia. }
      unfold is_char in Ec. apply N.eqb_eq in Ec as ->.
      change (py "/" ++ ?x) with (chr "/" :: x). f_equal.
      rewrite Es at 2. rewrite squeeze_true_run by done.
      rewrite (squeeze_not_slash true) by apply lstrip_by_idemp.
      destruct ws as [|w ws].
      * simpl in Es. rewrite <- Es. apply IH. simpl in Hn. lia.
      * rewrite Es at 1. rewrite sub_from_skip_app by done. apply IH.
        apply (f_equal length) in Es. rewrite length_app in Es. simpl in *. lia.
    + f_equal. apply IH. simpl in Hn. lia.
Qed.

Lemma collapse_slashes_squeeze s : CleanDirectory.collapse_slashes s = squeeze false s.
Proof. apply (sub_slashes_squeeze (length s)). done. Qed.

Lemma squeeze_no_double prev s :
  contains (py "//") (squeeze prev s) = false /\
  (prev = true -> startswith (py "/") (squeeze prev s) = false).
Proof.
  revert prev. induction s as [|c s IH]; intros prev; [done|]. cbn [squeeze].
  destruct (is_char "/" c) eqn:Ec.
  - destruct prev; [apply IH|]. destruct (IH true) as [H1 H2].
    split; [|done]. cbn [contains]. rewrite H1, orb_false_r.
    change (py "//") with (chr "/" :: py "/"). cbn [startswith].
    rewrite (H2 eq_refl). apply andb_false_r.
  - destruct (IH false) as [H1 _]. split.
    + cbn [contains]. rewrite H1, orb_false_r.
      change (py "//") with (chr "/" :: py "/"). cbn [startswith].
      unfold is_char in Ec. by rewrite N.eqb_sym, Ec.
    + intros _. change (py "/") with [chr "/"]. cbn [startswith].
      unfold is_char in Ec. by rewrite N.eqb_sym, Ec.
Qed.

Lemma squeeze_id prev s :
  contains (py "//") s = false ->
  (prev = true -> startswith (py "/") s = false) ->
  squeeze prev s = s.
Proof.
  revert prev. induction s as [|c s IH]; intros prev Hs Hp; [done|].
  cbn [contains] in Hs. apply orb_false_iff in Hs as [Hst Hs].
  change (py "//") with (chr "/" :: py "/") in Hst. cbn [startswith] in Hst.
  cbn [squeeze]. destruct (is_char "/" c) eqn:Ec.
  - unfold is_char in Ec. apply N.eqb_eq in Ec as ->.
    rewrite N.eqb_refl in Hst. simpl in Hst.
    destruct prev.
    + specialize (Hp eq_refl). change (py "/") with [chr "/"] in Hp.
      cbn [startswith] in Hp. by rewrite N.eqb_refl in Hp.
    + f_equal. by apply IH.
  - f_equal. by apply IH.
Qed.

(** The segments that are not empty. *)
Definition segments (s : str) : list str :=
  filter (fun seg => seg <> []) (split (chr "/") s).

Lemma split_cons_sep sep s : split sep (sep :: s) = [] :: split sep s.
Proof. simpl. by rewrite N.eqb_refl. Qed.

Lemma split_cons_other sep c s :
  (c =? sep) = false ->
  split sep (c :: s) = (c :: hd [] (split sep s)) :: tl (split sep s).
Proof.
  intros Hc. simpl. rewrite Hc. pose proof (split_nonempty sep s).
  by destruct (split sep s).
Qed.

Lemma squeeze_segments prev s :
  segments (squeeze prev s) = segments s /\
  (prev = false ->
   hd [] (split (chr "/") (squeeze prev s)) = hd [] (split (chr "/") s) /\
   filter (fun seg => seg <> []) (tl (split (chr "/") (squeeze prev s)))
   = filter (fun seg => seg <> []) (tl (split (chr "/") s))).
Proof.
  unfold segments. revert prev. induction s as [|c s IH]; intros prev; [done|].
  cbn [squeeze]. destruct (is_char "/" c) eqn:Ec.
  - unfold is_char in Ec. apply N.eqb_eq in Ec as ->.
    rewrite (split_cons_sep _ s). destruct (IH true) as [H1 _].
    destruct prev.
    + split; [|done]. rewrite H1. by rewrite filter_cons_False by (by intros []).
    + rewrite split_cons_sep. split; [|intros _; split; [done|]]; cbn [tl].
      * rewrite !filter_cons_False by (by intros []). done.
      * done.
  - unfold is_char in Ec. rewrite !split_cons_other by done.
    destruct (IH false) as [_ H2]. destruct (H2 eq_refl) as [Hh Ht].
    rewrite Hh. split; [|intros _; split; [done | cbn [tl]; done]].
    rewrite !filter_cons_True by done. cbn [tl]. by rewrite Ht.
Qed.

(** [/{2,}] of [convert_files_into_directories.py] at the front of a string. *)
Lemma match_at_slash_run b s :
  match_at ConvertFiles.SLASH_RUN b s =
  match s with
  | c :: c' :: s' =>
      if is_char "/" c && is_char "/" c' then Some (lstrip_by (is_char "/") s') else None
  | _ => None
  end.
Proof.
  unfold ConvertFiles.SLASH_RUN. rewrite match_at_seq.
  destruct s as [|c [|c' s']]; cbn [Times rmatch Lit].
  - done.
  - by destruct (is_char "/" c).
  - destruct (is_char "/" c); [|done]. destruct (is_char "/" c'); [|done].
    apply match_at_star_cls.
Qed.

Lemma sub_slash_run_squeeze n : forall b s, (length s <= n)%nat ->
  sub_from ConvertFiles.SLASH_RUN (py "/") b O s = squeeze false s.
Proof.
  induction n as [|n IH]; intros b s Hn.
  - destruct s; [done | simpl in Hn; lia].
  - destruct s as [|c s]; [done|]. cbn [sub_from]. rewrite match_at_slash_run.
    cbn [squeeze]. destruct s as [|c' s'].
    { by destruct (is_char "/" c). }
    destruct (is_char "/" c) eqn:Ec; cbn [andb].
    + destruct (is_char "/" c') eqn:Ec'.
      * pose proof (lstrip_by_decomp (is_char "/") s') as (ws & Es & Hws).
        assert (length (c :: c' :: s') - length (lstrip_by (is_char "/") s')
                = S (length (c' :: ws)))%nat as ->.
        { apply (f_equal length) in Es. rewrite length_app in Es. simpl. lia. }
        unfold is_char in Ec. apply N.eqb_eq in Ec as ->.
        change (py "/" ++ ?x) with (chr "/" :: x). f_equal.
        set (rest := lstrip_by (is_char "/") s') in *.
        assert (squeeze true (c' :: s') = squeeze false rest) as ->.
        { rewrite Es. change (c' :: ws ++ rest) with ((c' :: ws) ++ rest).
          rewrite squeeze_true_run by (simpl; by rewrite Ec').
          apply squeeze_not_slash, lstrip_by_idemp. }
        rewrite Es. change (c' :: ws ++ rest) with ((c' :: ws) ++ rest).
        rewrite sub_from_skip_app by done.
        apply IH. apply (f_equal length) in Es. rewrite length_app in Es. simpl in *. lia.
      * f_equal. rewrite IH by (simpl in *; lia).
        symmetry. apply squeeze_not_slash. simpl. by rewrite Ec'.
    + f_equal. apply IH. simpl in *. lia.
Qed.

Lemma endswith_snoc c s : endswith [c] (s ++ [c]) = true.
Proof. unfold endswith. rewrite rev_app_distr. simpl. by rewrite N.eqb_refl. Qed.

(** X4.  [collapse_slashes] (the same function in
    [clean_directory_wordlist.py], [clean-directory-wordlist.py] and
    [clean_api_wordlist.py]) leaves no two slashes side by side, gives back
    exactly the strings that have none, keeps the segments that are not
    empty, in their order, and changes nothing when applied again. *)
Theorem X4_collapse_slashes_leaves_single_slashes (s : str) :
  contains (py "//") (CleanDirectory.collapse_slashes s) = false /\
  (CleanDirectory.collapse_slashes s = s <-> contains (py "//") s = false) /\
  segments (CleanDirectory.collapse_slashes s) = segments s /\
  CleanDirectory.collapse_slashes (CleanDirectory.collapse_slashes s)
  = CleanDirectory.collapse_slashes s /\
  CleanApi.collapse_slashes s = CleanDirectory.collapse_slashes s.
Proof.
  rewrite !collapse_slashes_squeeze.
  pose proof (squeeze_no_double false s) as [Hno _].
  split_and!.
  - done.
  - split; [intros <-; done | intros H; by apply squeeze_id].
  - apply squeeze_segments.
  - by apply squeeze_id.
  - done.
Qed.

(** X5.  [normalize] of [convert_files_into_directories.py], without
    [--lower]: the line is trimmed and its runs of slashes collapsed, with
    the same result as [collapse_slashes] of the other scripts, although
    the pattern is [/{2,}] here and [/+] there; no two slashes are left side
    by side. *)
Theorem X5_normalize_collapses_like_the_other_scripts {U : PyUnicode} (line : str) :
  ConvertFiles.normalize line false
  = CleanApi.collapse_slashes (strip_by py_isspace line) /\
  contains (py "//") (ConvertFiles.normalize line false) = false /\
  segments (ConvertFiles.normalize line false) = segments (strip_by py_isspace line).
Proof.
  assert (ConvertFiles.normalize line false = squeeze false (strip_by py_isspace line)) as E.
  { unfold ConvertFiles.normalize. apply (sub_slash_run_squeeze (length (strip_by py_isspace line))). done. }
  rewrite E. split_and!.
  - symmetry. apply collapse_slashes_squeeze.
  - apply squeeze_no_double.
  - apply squeeze_segments.
Qed.

(** * Slashes at the two ends *)

Lemma lstrip_by_app_all f ws s :
  forallb f ws = true -> lstrip_by f (ws ++ s) = lstrip_by f s.
Proof.
  induction ws as [|c ws IH]; [done|]. simpl. intros [-> H]%andb_true_iff. by apply IH.
Qed.

Lemma rstrip_by_app_all f s ws :
  forallb f ws = true -> rstrip_by f (s ++ ws) = rstrip_by f s.
Proof.
  intros H. unfold rstrip_by. rewrite rev_app_distr, lstrip_by_app_all; [done|].
  by rewrite forallb_rev.
Qed.

Lemma rstrip_by_decomp f s :
  exists ws, s = rstrip_by f s ++ ws /\ forallb f ws = true.
Proof.
  unfold rstrip_by. destruct (lstrip_by_decomp f (rev s)) as (ws & E & Hws).
  exists (rev ws). split; [|by rewrite forallb_rev].
  rewrite <- rev_app_distr, <- E. by rewrite rev_involutive.
Qed.

Lemma rstrip_by_length f s : (length (rstrip_by f s) <= length s)%nat.
Proof.
  destruct (rstrip_by_decomp f s) as (ws & E & _). apply (f_equal length) in E.
  rewrite length_app in E. lia.
Qed.

Lemma lstrip_by_head f s c s' : lstrip_by f s = c :: s' -> f c = false.
Proof.
  induction s as [|d s IH]; [done|]. simpl. destruct (f d) eqn:E; [done|].
  by intros [= <- _].
Qed.

Lemma rstrip_by_last f s x c : rstrip_by f s = x ++ [c] -> f c = false.
Proof.
  unfold rstrip_by. intros H. apply (f_equal (@rev _)) in H.
  rewrite rev_involutive, rev_app_distr in H. simpl in H. by apply lstrip_by_head in H.
Qed.

Lemma rstrip_by_idemp f s : rstrip_by f (rstrip_by f s) = rstrip_by f s.
Proof. unfold rstrip_by. by rewrite rev_involutive, lstrip_by_idemp. Qed.

Lemma endswith_rstrip c s : endswith [c] (rstrip_by (fun d => d =? c) s) = false.
Proof.
  destruct (rstrip_by (fun d => d =? c) s) as [|d x _] eqn:E using rev_ind; [done|].
  apply rstrip_by_last in E. unfold endswith. rewrite rev_app_distr. simpl.
  by rewrite N.eqb_sym, E.
Qed.

Lemma matches_slashes_eol b u v :
  matches (Seq (Plus (Lit "/")) Eol) b u v <->
  (u <> [] /\ forallb (is_char "/") u = true) /\ at_eol v = true.
Proof.
  rewrite matches_seq. split.
  - intros (u1 & u2 & -> & H1 & [-> Hv]%matches_eol). rewrite app_nil_r.
    by apply matches_plus_cls in H1.
  - intros [Hu Hv]. exists u, []. rewrite app_nil_r. split_and!; [done | |].
    + by apply matches_plus_cls.
    + by apply matches_eol.
Qed.

Lemma last_not_newline s : chr "010" ∉ s -> List.last s 0 <> chr "010".
Proof.
  intros Hs. destruct s as [|c x _] using rev_ind; [by vm_compute|].
  rewrite List.last_last. intros ->. apply Hs, elem_of_app. right. by left.
Qed.

(** [re.sub(r'/+$', '', s)] is [s.rstrip('/')] on a string without line
    feed. *)
Lemma sub_trailing_slashes b s :
  chr "010" ∉ s ->
  sub_from (Seq (Plus (Lit "/")) Eol) [] b O s = rstrip_by (is_char "/") s.
Proof.
  intros Hnl.
  pose proof (sub_from_end_anchored (Seq (Plus (Lit "/")) Eol)
                (fun u => u <> [] /\ forallb (is_char "/") u = true)
                matches_slashes_eol ltac:(by intros [? _]) b s (last_not_newline s Hnl)) as H1.
  eapply suffix_stripped_unique; [exact H1|].
  destruct (rstrip_by_decomp (is_char "/") s) as (ws & E & Hws).
  exists ws. split_and!; [done | destruct ws; [by left | by right] |].
  intros r' g' -> [_ Hg]. rewrite rstrip_by_app_all by done. apply rstrip_by_length.
Qed.

Lemma sub_bol_later r repl s : sub_from (Seq Bol r) repl false O s = s.
Proof.
  induction s as [|c s IH]; [done|]. cbn [sub_from].
  rewrite match_at_seq, rmatch_bol. by rewrite IH.
Qed.

Lemma sub_skip_then_copy r repl n : forall b s,
  sub_from (Seq Bol r) repl b (S n) s = drop (S n) s.
Proof.
  induction n as [|n IH]; intros b s.
  - destruct s as [|c s]; [done|]. cbn [sub_from drop]. apply sub_bol_later.
  - destruct s as [|c s]; [done|]. cbn [sub_from]. rewrite IH. done.
Qed.

(** [re.sub(r'^/+', repl, s)]: the leading run of slashes is replaced. *)
Lemma sub_leading_slashes repl s :
  re_sub (Seq Bol (Plus (Lit "/"))) repl s =
  if startswith (py "/") s then repl ++ lstrip_by (is_char "/") s else s.
Proof.
  unfold re_sub. destruct s as [|c s]; [done|].
  cbn [sub_from]. rewrite match_at_seq, rmatch_bol.
  fold (match_at (Plus (Lit "/")) true (c :: s)). rewrite match_at_slashes.
  assert (startswith (py "/") (c :: s) = is_char "/" c) as ->.
  { change (py "/") with [chr "/"]. cbn [startswith]. unfold is_char.
    by rewrite N.eqb_sym, andb_true_r. }
  cbn [lstrip_by]. destruct (is_char "/" c) eqn:Ec.
  - pose proof (lstrip_by_decomp (is_char "/") s) as (ws & Es & Hws).
    assert (length (c :: s) - length (lstrip_by (is_char "/") s)
            = S (length ws))%nat as ->.
    { apply (f_equal length) in Es. rewrite length_app in Es. simpl. lia. }
    f_equal. destruct ws as [|w ws].
    + simpl in Es. rewrite <- Es. apply sub_bol_later.
    + cbn [length]. rewrite sub_skip_then_copy. rewrite Es at 1.
      by rewrite (drop_app_length (w :: ws)).
  - f_equal. apply sub_bol_later.
Qed.

Lemma not_elem_of_rstrip_by f c s : c ∉ s -> c ∉ rstrip_by f s.
Proof.
  intros Hs Hin. apply Hs. destruct (rstrip_by_decomp f s) as (ws & E & _).
  rewrite E. apply elem_of_app. by left.
Qed.

Lemma remove_trailing_slash_rstrip s :
  chr "010" ∉ s ->
  CleanApi.remove_trailing_slash s =
  if bool_decide (s = py "/") then s else rstrip_by (is_char "/") s.
Proof.
  intros Hs. unfold CleanApi.remove_trailing_slash.
  destruct (bool_decide (s = py "/")); [done|]. by apply sub_trailing_slashes.
Qed.

(** X6.  [remove_trailing_slash] of [clean_api_wordlist.py], on a string
    without line feed: the root [/] is kept, any other string loses the
    slashes at its end (as with [rstrip('/')]; so [//] becomes empty while
    [/] stays), the result is [/] or does not end in a slash, and a second
    call changes nothing. *)
Theorem X6_remove_trailing_slash_strips_the_end (s : str) :
  chr "010" ∉ s ->
  CleanApi.remove_trailing_slash s
  = (if bool_decide (s = py "/") then s else rstrip_by (is_char "/") s) /\
  (CleanApi.remove_trailing_slash s = py "/" \/
   endswith (py "/") (CleanApi.remove_trailing_slash s) = false) /\
  CleanApi.remove_trailing_slash (CleanApi.remove_trailing_slash s)
  = CleanApi.remove_trailing_slash s.
Proof.
  intros Hs. rewrite (remove_trailing_slash_rstrip s Hs).
  destruct (bool_decide (s = py "/")) eqn:E.
  - apply bool_decide_eq_true in E. subst s. split_and!; [done | by left | done].
  - split_and!; [done | right; apply (endswith_rstrip (chr "/")) |].
    rewrite remove_trailing_slash_rstrip by by apply not_elem_of_rstrip_by.
    clear E. case_bool_decide; [done|]. apply rstrip_by_idemp.
Qed.

Lemma X6_witness :
  CleanApi.remove_trailing_slash (py "api/v1///") = py "api/v1" /\
  CleanApi.remove_trailing_slash (py "//") = [] /\
  CleanApi.remove_trailing_slash (py "/") = py "/".
Proof.
  split_and!.
  - refine (eq_trans (proj1 (X6_remove_trailing_slash_strips_the_end (py "api/v1///") _)) _);
      [|reflexivity].
    apply (bool_decide_unpack _). by vm_compute.
  - reflexivity.
  - reflexivity.
Defined.

(** * Adding a list of entries *)

(** The loop [for v in l: if v not in seen: seen.add(v); out.append(v)]. *)
Definition add_all (o : output) (l : list str) : output :=
  foldl (fun o v => add_entry v o) o l.

Lemma add_all_snoc o l v : add_all o (l ++ [v]) = add_entry v (add_all o l).
Proof. unfold add_all. by rewrite foldl_app. Qed.

Lemma add_all_app o l1 l2 : add_all o (l1 ++ l2) = add_all (add_all o l1) l2.
Proof. unfold add_all. by rewrite foldl_app. Qed.

Lemma seen_add_entry v o x : x ∈ seen (add_entry v o) <-> x = v \/ x ∈ seen o.
Proof.
  unfold add_entry. destruct (decide (v ∈ seen o)) as [Hin|Hin]; cbn [seen].
  - split; [by right | by intros [->|?]].
  - by rewrite elem_of_union, elem_of_singleton.
Qed.

Lemma seen_add_all o l x : x ∈ seen (add_all o l) <-> x ∈ seen o \/ x ∈ l.
Proof.
  revert o. induction l as [|v l IH]; intros o; simpl.
  - rewrite elem_of_nil. tauto.
  - rewrite IH, seen_add_entry, elem_of_cons. tauto.
Qed.

Lemma add_entry_seen v o : v ∈ seen o -> add_entry v o = o.
Proof. intros H. unfold add_entry. by rewrite decide_True. Qed.

Lemma add_all_grows o l : grows o (add_all o l).
Proof.
  revert o. induction l as [|v l IH]; intros o; simpl; [apply grows_refl|].
  eapply grows_trans; [apply add_entry_grows | apply IH].
Qed.

Lemma add_all_wf o l : wf_output o -> wf_output (add_all o l).
Proof. apply add_all_grows. Qed.

Lemma elem_of_add_all o l x :
  wf_output o -> x ∈ out_order (add_all o l) <-> x ∈ out_order o \/ x ∈ l.
Proof.
  intros Hwf. destruct (add_all_wf o l Hwf) as [_ H]. rewrite <- H, seen_add_all.
  destruct Hwf as [_ H']. by rewrite H'.
Qed.

(** What [add_all] leaves in the list of an empty accumulator: the first
    occurrences.  Adding that list or the list itself comes to the same. *)
Lemma add_all_first_occurrences o l :
  add_all o (out_order (add_all empty_output l)) = add_all o l.
Proof.
  induction l as [|v l IH] using rev_ind; [done|].
  rewrite (add_all_snoc empty_output), (add_all_snoc o).
  destruct (decide (v ∈ seen (add_all empty_output l))) as [Hin|Hin].
  - rewrite (add_entry_seen v (add_all empty_output l)) by done.
    rewrite IH. symmetry. apply add_entry_seen, seen_add_all.
    apply seen_add_all in Hin as [Hin|Hin]; [by apply elem_of_empty in Hin | by right].
  - unfold add_entry at 1. rewrite decide_False by done.
    cbn [out_order]. by rewrite add_all_snoc, IH.
Qed.

Lemma add_all_flat_map {A} (f : A -> list str) (step : output -> A -> output) :
  (forall o x, step o x = add_all o (f x)) ->
  forall l o, foldl step o l = add_all o (flat_map f l).
Proof.
  intros Hstep l. induction l as [|x l IH]; intros o; [done|].
  simpl. by rewrite IH, Hstep, add_all_app.
Qed.

Lemma out_order_add_all_length o l :
  (length (out_order (add_all o l)) <= length (out_order o) + length l)%nat.
Proof.
  revert o. induction l as [|v l IH]; intros o; simpl; [lia|].
  specialize (IH (add_entry v o)). unfold add_entry in IH at 2.
  destruct (decide _); cbn [out_order] in IH; rewrite ?length_app in IH; simpl in IH; lia.
Qed.

(** Two lists with the same members give the same members, whatever the
    order. *)
Lemma add_all_Permutation l1 l2 :
  (forall x, x ∈ l1 <-> x ∈ l2) ->
  out_order (add_all empty_output l1) ≡ₚ out_order (add_all empty_output l2).
Proof.
  intros H. apply NoDup_Permutation.
  - apply add_all_wf, wf_empty_output.
  - apply add_all_wf, wf_empty_output.
  - intros x. rewrite !elem_of_add_all by apply wf_empty_output. simpl.
    rewrite !elem_of_nil, H. tauto.
Qed.

(** * [clean_directory_wordlist.py]: what a line adds, and the options that
      do not change it *)

Section DirectoryYield.
Import CleanDirectory CleanDirectoryFacts.
Context {U : PyUnicode}.

(** The encoded variants that pass the length gate. *)
Definition gated (a : args) (variants : list str) : list str :=
  filter (fun e => too_long a e = false) (map percent_encode_keep_slash variants).

(** What the branch for entries without a leading dot hands to the
    accumulator: the encoded entry and, where asked for, its variant with a
    slash at the end. *)
Definition nondot_handed (a : args) (s : str) : list str :=
  if has_lfi s then []
  else
    let folded := if iis a then s else py_lower s in
    if file_like (last_segment folded) && negb (re_match VERSION_RE (last_segment folded))
    then []
    else if too_long a (percent_encode_keep_slash folded) then []
    else trailing_variants a (percent_encode_keep_slash folded).

(** What the classifier hands to the accumulator for a candidate: the
    variants of a dot entry that pass the length gate, or the above. *)
Definition handed (a : args) (s : str) : list str :=
  if startswith (py ".") s then
    if is_empty (drop 1 s) || is_empty (dot_core a s) then []
    else gated a (dot_variants a (dot_core a s))
  else nondot_handed a s.

(** The same for a line of the input. *)
Definition line_handed (a : args) (raw : str) : list str :=
  match candidate raw with
  | None => []
  | Some s => handed a s
  end.

Lemma out_emit_dot_variants_gated a line vs st :
  out (emit_dot_variants a line vs st) = add_all (out st) (gated a vs).
Proof.
  unfold gated. revert st. induction vs as [|v vs IH]; intros st; [done|].
  cbn [emit_dot_variants map]. destruct (too_long a _) eqn:E.
  - rewrite IH, out_report. by rewrite filter_cons_False by (by rewrite E).
  - rewrite IH, out_emit. by rewrite filter_cons_True by done.
Qed.

Lemma out_emit_all vs st :
  out (foldl (fun st v => emit v st) st vs) = add_all (out st) vs.
Proof. revert st. induction vs as [|v vs IH]; intros st; [done|]. simpl. by rewrite IH. Qed.

Lemma out_nondot_branch a line s st :
  out (nondot_branch a line s st) = add_all (out st) (nondot_handed a s).
Proof.
  unfold nondot_branch, nondot_handed.
  destruct (has_lfi s); [by rewrite out_report|]. cbv zeta.
  destruct (file_like _ && _); [by rewrite out_report|].
  destruct (too_long a _); [by rewrite out_report|].
  apply out_emit_all.
Qed.

(** The accumulator after a candidate is the accumulator before it with
    that list added. *)
Lemma out_classify a line s st :
  out (classify a line s st) = add_all (out st) (handed a s).
Proof.
  unfold classify, handed. destruct (startswith (py ".") s).
  - unfold dot_branch. destruct (is_empty (drop 1 s)); [done|]. cbn [orb].
    destruct (is_empty (dot_core a s)).
    + by rewrite out_report.
    + apply out_emit_dot_variants_gated.
  - apply out_nondot_branch.
Qed.

Lemma out_process_line a st raw :
  out (process_line a st raw) = add_all (out st) (line_handed a raw).
Proof.
  unfold process_line, line_handed. destruct (candidate raw); [apply out_classify | done].
Qed.

Lemma out_foldl_process_line a lines st :
  out (foldl (process_line a) st lines) = add_all (out st) (flat_map (line_handed a) lines).
Proof.
  revert st. induction lines as [|raw lines IH]; intros st; [done|].
  simpl. by rewrite IH, out_process_line, add_all_app.
Qed.

Lemma out_run a lines :
  out (run a lines) = add_all empty_output (flat_map (line_handed a) lines).
Proof. apply out_foldl_process_line. Qed.

Lemma elem_of_entries_handed a lines v :
  v ∈ entries a lines <-> exists raw, raw ∈ lines /\ v ∈ line_handed a raw.
Proof.
  unfold entries. rewrite out_run, elem_of_add_all by apply wf_empty_output.
  simpl. rewrite elem_of_nil, list_elem_of_In, in_flat_map.
  setoid_rewrite list_elem_of_In. tauto.
Qed.

Lemma elem_of_entries a lines v :
  v ∈ entries a lines <-> exists raw, raw ∈ lines /\ v ∈ entries a [raw].
Proof.
  rewrite elem_of_entries_handed. split; intros (raw & Hraw & H); exists raw.
  - split; [done|]. apply elem_of_entries_handed. exists raw. split; [by left | done].
  - split; [done|]. apply elem_of_entries_handed in H as (raw' & ->%list_elem_of_singleton & H).
    done.
Qed.

Lemma gated_length a vs : (length (gated a vs) <= length vs)%nat.
Proof. unfold gated. etrans; [apply length_filter|]. by rewrite length_map. Qed.

Lemma nondot_handed_length a s : (length (nondot_handed a s) <= 2)%nat.
Proof.
  unfold nondot_handed. destruct (has_lfi s); [simpl; lia|]. cbv zeta.
  destruct (file_like _ && _); [simpl; lia|].
  destruct (too_long a _); [simpl; lia|].
  unfold trailing_variants. destruct (_ && _); simpl; lia.
Qed.

Lemma handed_length a s : (length (handed a s) <= 2)%nat.
Proof.
  unfold handed. destruct (startswith (py ".") s); [|apply nondot_handed_length].
  destruct (_ || _); [simpl; lia|].
  etrans; [apply gated_length|]. unfold dot_variants.
  destruct (drop_leading_dot a); simpl; lia.
Qed.

Lemma flat_map_length_le {A B} (f : A -> list B) n l :
  (forall x, length (f x) <= n)%nat -> (length (flat_map f l) <= n * length l)%nat.
Proof.
  intros H. induction l as [|x l IH]; simpl; [lia|].
  rewrite length_app. specialize (H x). lia.
Qed.

(** X10.  What a run produces is put together from what its lines produce
    one by one: an entry is in the output exactly when one of the lines,
    run alone, gives it; no line gives more than two entries, so the
    output has at most twice as many entries as the input has lines. *)
Theorem X10_entries_come_from_single_lines (a : args) (lines : list str) (v : str) :
  (v ∈ entries a lines <-> exists raw, raw ∈ lines /\ v ∈ entries a [raw]) /\
  (length (entries a lines) <= 2 * length lines)%nat.
Proof.
  split; [apply elem_of_entries|].
  unfold entries. rewrite out_run.
  etrans; [apply out_order_add_all_length|].
  change (length (out_order empty_output)) with 0%nat. rewrite Nat.add_0_l.
  apply flat_map_length_le. intros raw. unfold line_handed.
  destruct (candidate raw); [apply handed_length | simpl; lia].
Qed.

(** ** [--verbose] *)

Definition with_verbose (v : bool) (a : args) : args := {|
  iis := iis a;
  maxlen := maxlen a;
  add_trailing_variant := add_trailing_variant a;
  sorted := sorted a;
  verbose := v;
  strip_dot_ext := strip_dot_ext a;
  drop_leading_dot := drop_leading_dot a
|}.

Lemma stderr_emit_dot_variants a line vs st :
  verbose a = false -> stderr (emit_dot_variants a line vs st) = stderr st.
Proof.
  intros Hv. revert st. induction vs as [|v vs IH]; intros st; [done|].
  cbn [emit_dot_variants]. destruct (too_long a _); rewrite IH; [|done].
  unfold report. by rewrite Hv.
Qed.

Lemma stderr_emit_all vs st : stderr (foldl (fun st v => emit v st) st vs) = stderr st.
Proof. revert st. induction vs as [|v vs IH]; intros st; [done|]. simpl. by rewrite IH. Qed.

Lemma stderr_process_line a st raw :
  verbose a = false -> stderr (process_line a st raw) = stderr st.
Proof.
  intros Hv. unfold process_line. destruct (candidate raw) as [s|]; [|done].
  assert (forall d st, stderr (report a d st) = stderr st) as Hr.
  { intros. unfold report. by rewrite Hv. }
  unfold classify. destruct (startswith (py ".") s).
  - unfold dot_branch. destruct (is_empty (drop 1 s)); [done|].
    destruct (is_empty (dot_core a s)); [apply Hr|]. by apply stderr_emit_dot_variants.
  - unfold nondot_branch. destruct (has_lfi s); [apply Hr|].
    destruct (file_like _ && _); [apply Hr|].
    destruct (too_long a _); [apply Hr|]. apply stderr_emit_all.
Qed.

(** X9.  [--verbose] only adds the drop reasons on [stderr]: the entries, in
    their order, and the lines written are the same with it and without
    it, and without it nothing goes to [stderr]. *)
Theorem X9_verbose_changes_no_entry (v : bool) (a : args) (lines : list str) :
  out (run (with_verbose v a) lines) = out (run a lines) /\
  written (with_verbose v a) lines = written a lines /\
  stderr (run (with_verbose false a) lines) = [].
Proof.
  assert (out (run (with_verbose v a) lines) = out (run a lines)) as E.
  { by rewrite !out_run. }
  split_and!; [done | |].
  - unfold written, entries. rewrite E. done.
  - assert (forall st, stderr (foldl (process_line (with_verbose false a)) st lines)
                       = stderr st) as H.
    { clear E. induction lines as [|raw lines IH]; intros st; [done|]. simpl.
      rewrite IH. by apply stderr_process_line. }
    unfold run. by rewrite H.
Qed.

End DirectoryYield.

(** * [--sorted] *)

Lemma str_leb_cons a s b t :
  str_leb (a :: s) (b :: t) = true <-> a < b \/ (a = b /\ str_leb s t = true).
Proof.
  simpl. rewrite orb_true_iff, andb_true_iff, N.ltb_lt, N.eqb_eq. tauto.
Qed.

#[global] Instance str_le_total : Total str_le.
Proof.
  intros s. unfold str_le. induction s as [|a s IH]; intros t; [by left|].
  destruct t as [|b t]; [by right|]. rewrite !str_leb_cons.
  destruct (N.lt_trichotomy a b) as [H|[->|H]]; [tauto | | tauto].
  destruct (IH t); tauto.
Qed.

#[global] Instance str_le_trans : Transitive str_le.
Proof.
  intros s. unfold str_le. induction s as [|a s IH]; intros t u; [done|].
  destruct t as [|b t]; [done|]. destruct u as [|c u]; [done|].
  rewrite !str_leb_cons. intros [H1|[-> H1]] [H2|[-> H2]]; [left; lia | tauto | tauto |].
  right. split; [done|]. by apply (IH t).
Qed.

#[global] Instance str_le_antisymm : AntiSymm (=) str_le.
Proof.
  intros s. unfold str_le. induction s as [|a s IH]; intros t.
  - by destruct t.
  - destruct t as [|b t]; [done|]. rewrite !str_leb_cons.
    intros [H1|[-> H1]] [H2|[H2 H2']]; try lia. f_equal. by apply IH.
Qed.

Lemma py_sorted_spec l :
  StronglySorted str_le (py_sorted l) /\ py_sorted l ≡ₚ l.
Proof.
  split; [apply (StronglySorted_merge_sort str_le) | apply merge_sort_Permutation].
Qed.

Lemma py_sorted_Permutation l1 l2 : l1 ≡ₚ l2 -> py_sorted l1 = py_sorted l2.
Proof.
  intros H. destruct (py_sorted_spec l1) as [S1 P1], (py_sorted_spec l2) as [S2 P2].
  apply (StronglySorted_unique str_le); [done..|]. by rewrite P1, P2.
Qed.

Section DirectorySorted.
Import CleanDirectory CleanDirectoryFacts.
Context {U : PyUnicode}.

Lemma entries_Permutation a lines lines' :
  lines ≡ₚ lines' -> entries a lines ≡ₚ entries a lines'.
Proof.
  intros H. unfold entries. rewrite !out_run. apply add_all_Permutation.
  intros x. rewrite !list_elem_of_In, !in_flat_map.
  setoid_rewrite <- list_elem_of_In. by setoid_rewrite H.
Qed.

(** X8.  The lines written at the end: the entries in the order in which
    they were first produced or, with [--sorted], the same entries in
    ascending order of their code points; with [--sorted] the order of the
    lines of the input makes no difference to what is written. *)
Theorem X8_sorted_output_is_the_sorted_entries (a : args) (lines lines' : list str) :
  (sorted a = false -> written a lines = entries a lines) /\
  (sorted a = true ->
   StronglySorted str_le (written a lines) /\
   written a lines ≡ₚ entries a lines /\
   (lines ≡ₚ lines' -> written a lines = written a lines')).
Proof.
  unfold written. split; intros ->; [done|].
  destruct (py_sorted_spec (entries a lines)) as [H1 H2]. split_and!; [done..|].
  intros H. by apply py_sorted_Permutation, entries_Permutation.
Qed.

End DirectorySorted.

Definition sorted_args : CleanDirectory.args := {|
  CleanDirectory.iis := false;
  CleanDirectory.maxlen := 200;
  CleanDirectory.add_trailing_variant := false;
  CleanDirectory.sorted := true;
  CleanDirectory.verbose := false;
  CleanDirectory.strip_dot_ext := true;
  CleanDirectory.drop_leading_dot := false
|}.

Lemma X8_witness :
  CleanDirectory.written (U := ascii_only) sorted_args [py "b"; py "a"; py "B/c"]
  = CleanDirectory.written (U := ascii_only) sorted_args [py "a"; py "B/c"; py "b"].
Proof.
  refine (proj2 (proj2 (proj2 (X8_sorted_output_is_the_sorted_entries (U := ascii_only)
            sorted_args [py "b"; py "a"; py "B/c"] [py "a"; py "B/c"; py "b"]) eq_refl)) _).
  etrans; [apply perm_swap | apply perm_skip, perm_swap].
Defined.

(** * [clean-directory-wordlist.py], the plain sibling *)

Section PlainSibling.
Import CleanDirectory CleanDirectoryFacts.
Context {U : PyUnicode}.

(** What the plain script hands to the accumulator for a candidate: a dot
    entry as it is (case-folded, encoded, gated). *)
Definition plain_handed (a : args) (s : str) : list str :=
  if startswith (py ".") s then gated a [if iis a then s else py_lower s]
  else nondot_handed a s.

Definition plain_line_handed (a : args) (raw : str) : list str :=
  match candidate raw with
  | None => []
  | Some s => plain_handed a s
  end.

Lemma out_plain_classify a line s st :
  out (CleanDirectoryPlain.classify a line s st) = add_all (out st) (plain_handed a s).
Proof.
  unfold CleanDirectoryPlain.classify, plain_handed.
  destruct (startswith (py ".") s); [|apply out_nondot_branch].
  unfold CleanDirectoryPlain.dot_branch, gated. cbn [map].
  destruct (too_long a _) eqn:E.
  - rewrite out_report. by rewrite filter_cons_False by (by rewrite E).
  - by rewrite filter_cons_True by done.
Qed.

Lemma out_plain_foldl a lines st :
  out (foldl (CleanDirectoryPlain.process_line a) st lines)
  = add_all (out st) (flat_map (plain_line_handed a) lines).
Proof.
  revert st. induction lines as [|raw lines IH]; intros st; [done|].
  simpl. rewrite IH, add_all_app. f_equal.
  unfold CleanDirectoryPlain.process_line, plain_line_handed.
  destruct (candidate raw); [apply out_plain_classify | done].
Qed.

Lemma out_plain_run a lines :
  out (CleanDirectoryPlain.run a lines)
  = add_all empty_output (flat_map (plain_line_handed a) lines).
Proof. apply out_plain_foldl. Qed.

(** A line whose candidate, if it has one, does not start with a dot. *)
Definition dot_free (raw : str) : bool :=
  match candidate raw with
  | Some s => negb (startswith (py ".") s)
  | None => true
  end.

(** X11.  On an input without dot entries the two directory scripts do the
    same: the same entries in the same order and the same drop reasons on
    [stderr].  (They differ on candidates with a leading dot only.) *)
Theorem X11_plain_script_agrees_on_dot_free_input (a : args) (lines : list str) :
  forallb dot_free lines = true ->
  CleanDirectoryPlain.run a lines = run a lines.
Proof.
  unfold CleanDirectoryPlain.run, run. generalize initial.
  induction lines as [|raw lines IH]; intros st; [done|]. simpl.
  intros [Hraw Hlines]%andb_true_iff. rewrite <- IH by done. f_equal.
  unfold CleanDirectoryPlain.process_line, process_line. unfold dot_free in Hraw.
  destruct (candidate raw) as [s|]; [|done].
  unfold CleanDirectoryPlain.classify, classify.
  apply negb_true_iff in Hraw. by rewrite Hraw.
Qed.

(** X12.  The plain script keeps the same discipline for its output: no
    entry twice, the [seen] set and the list hold the same entries, more
    input only adds entries at the end, and an entry is in the output
    exactly when one of the lines, run alone, gives it. *)
Theorem X12_plain_script_output_is_duplicate_free (a : args) (lines more : list str) (v : str) :
  NoDup (CleanDirectoryPlain.entries a lines) /\
  (v ∈ seen (out (CleanDirectoryPlain.run a lines)) <-> v ∈ CleanDirectoryPlain.entries a lines) /\
  CleanDirectoryPlain.entries a lines `prefix_of` CleanDirectoryPlain.entries a (lines ++ more) /\
  (v ∈ CleanDirectoryPlain.entries a lines <->
   exists raw, raw ∈ lines /\ v ∈ CleanDirectoryPlain.entries a [raw]).
Proof.
  unfold CleanDirectoryPlain.entries.
  assert (forall l, wf_output (out (CleanDirectoryPlain.run a l))) as Hwf.
  { intros l. rewrite out_plain_run. apply add_all_wf, wf_empty_output. }
  assert (forall l x, x ∈ out_order (out (CleanDirectoryPlain.run a l)) <->
            exists raw, raw ∈ l /\ x ∈ plain_line_handed a raw) as Hin.
  { intros l x. rewrite out_plain_run, elem_of_add_all by apply wf_empty_output.
    simpl. rewrite elem_of_nil, list_elem_of_In, in_flat_map.
    setoid_rewrite list_elem_of_In. tauto. }
  split_and!.
  - apply Hwf.
  - apply Hwf.
  - rewrite !out_plain_run, flat_map_app, add_all_app. apply add_all_grows.
  - rewrite Hin. split; intros (raw & Hraw & H); exists raw; (split; [done|]).
    + apply Hin. exists raw. split; [by left | done].
    + by apply Hin in H as (raw' & ->%list_elem_of_singleton & H).
Qed.

(** *** The length gate of the two scripts *)

Definition within (a : args) (v : str) : Prop :=
  (Z.of_nat (length v) <= maxlen a + (if add_trailing_variant a then 1 else 0))%Z.

Lemma gated_within a vs : Forall (within a) (gated a vs).
Proof.
  apply Forall_forall. intros v [Hv _]%list_elem_of_filter.
  apply too_long_false in Hv. unfold within, fits in *. destruct (add_trailing_variant a); lia.
Qed.

Lemma nondot_handed_within a s : Forall (within a) (nondot_handed a s).
Proof.
  unfold nondot_handed. destruct (has_lfi s); [constructor|]. cbv zeta.
  destruct (file_like _ && _); [constructor|].
  destruct (too_long a _) eqn:E; [constructor|].
  apply too_long_false in E. unfold trailing_variants, within, fits in *.
  destruct (add_trailing_variant a); cbn [andb].
  - destruct (_ && _); repeat constructor; rewrite ?length_app; simpl; lia.
  - repeat constructor. lia.
Qed.

(** X13.  No entry of either directory script is longer than [--maxlen],
    except that with [--add-trailing-variant] the limit is [--maxlen] plus
    one: the variant is made after the length check. *)
Theorem X13_entries_are_within_the_length_limit (a : args) (lines : list str) :
  Forall (within a) (entries a lines) /\
  Forall (within a) (CleanDirectoryPlain.entries a lines).
Proof.
  split; apply Forall_forall; intros v Hv.
  - apply elem_of_entries_handed in Hv as (raw & _ & Hv). unfold line_handed in Hv.
    destruct (candidate raw) as [s|]; [|by apply elem_of_nil in Hv].
    revert v Hv. apply Forall_forall. unfold handed.
    destruct (startswith (py ".") s); [|apply nondot_handed_within].
    destruct (_ || _); [constructor | apply gated_within].
  - unfold CleanDirectoryPlain.entries in Hv.
    rewrite out_plain_run, elem_of_add_all in Hv by apply wf_empty_output.
    destruct Hv as [Hv|Hv]; [by apply elem_of_nil in Hv|].
    apply list_elem_of_In, in_flat_map in Hv as (raw & _ & Hv). apply list_elem_of_In in Hv.
    unfold plain_line_handed in Hv.
    destruct (candidate raw) as [s|]; [|by apply elem_of_nil in Hv].
    revert v Hv. apply Forall_forall. unfold plain_handed.
    destruct (startswith (py ".") s); [apply gated_within | apply nondot_handed_within].
Qed.

End PlainSibling.

Lemma X11_witness :
  CleanDirectoryPlain.run (U := ascii_only) CleanDirectory.default_args
    [py "Admin/"; py "# note"; py "index.php"; py "a/../b"]
  = CleanDirectory.run (U := ascii_only) CleanDirectory.default_args
      [py "Admin/"; py "# note"; py "index.php"; py "a/../b"].
Proof.
  apply (X11_plain_script_agrees_on_dot_free_input (U := ascii_only)).
  by vm_compute.
Defined.

(** * Scheme and host of a URL *)

Section DirectoryUrl.
Import CleanDirectory CleanDirectoryFacts.
Context {U : PyUnicode}.

(** A scheme in ASCII: a letter, then letters, digits, [+], [-], [.]. *)
Definition url_scheme (sch : str) : bool :=
  match sch with
  | c :: cs => ascii_letter c && forallb scheme_char cs
  | [] => false
  end.

Lemma scheme_char_ascii c : scheme_char c = true -> is_ascii c = true.
Proof.
  unfold scheme_char, ascii_letter, ascii_lower_letter, ascii_upper_letter, ascii_digit,
    in_range, is_char, is_ascii.
  intros H. apply N.ltb_lt.
  repeat (apply orb_true_iff in H as [H | H]);
    try (apply andb_true_iff in H as [_ H]; apply N.leb_le in H);
    try apply N.eqb_eq in H; unfold chr in H; cbn in H; lia.
Qed.

Lemma ascii_letter_scheme_char c : ascii_letter c = true -> scheme_char c = true.
Proof. unfold scheme_char. by intros ->. Qed.

Lemma ascii_case_fixed c : ascii_lower c = c \/ ascii_upper c = c.
Proof.
  unfold ascii_lower, ascii_upper.
  destruct (ascii_upper_letter c) eqn:E; [|by left]. right.
  destruct (ascii_lower_letter c) eqn:E'; [|done].
  unfold ascii_upper_letter, ascii_lower_letter, in_range, chr in *. cbn in *.
  apply andb_true_iff in E as [_ E], E' as [E' _]. apply N.leb_le in E, E'. lia.
Qed.

Lemma re_ignorecase_ascii (S : char -> bool) c :
  is_ascii c = true -> S c = true -> re_ignorecase S c = true.
Proof.
  intros Ha Hc. unfold re_ignorecase. rewrite Ha.
  destruct (ascii_case_fixed c) as [-> | ->]; rewrite Hc; by rewrite ?orb_true_r.
Qed.

Lemma star_cls_app {A : Type} p (k : bool -> str -> option A) cs t x :
  forallb p cs = true -> star_cls p k false t = Some x ->
  star_cls p k false (cs ++ t) = Some x.
Proof.
  intros Hcs Ht. induction cs as [|c cs IH]; [done|]. simpl in *.
  apply andb_true_iff in Hcs as [-> Hcs]. by rewrite IH.
Qed.

Lemma lstrip_by_not_slash host rest :
  chr "/" ∉ host -> rest = [] \/ (exists path, rest = chr "/" :: path) ->
  lstrip_by not_slash (host ++ rest) = rest.
Proof.
  intros Hh Hr. rewrite lstrip_by_app_all.
  - destruct Hr as [->|(path & ->)]; [done|]. done.
  - apply forallb_forall. intros c Hc%list_elem_of_In. unfold not_slash, is_char.
    apply negb_true_iff, N.eqb_neq. by intros ->.
Qed.

(** The pattern at the front of a URL takes the scheme and the host. *)
Lemma match_at_url sch host rest :
  url_scheme sch = true -> host <> [] -> chr "/" ∉ host ->
  rest = [] \/ (exists path, rest = chr "/" :: path) ->
  match_at URL_SCHEME_HOST_RE true (sch ++ py "://" ++ host ++ rest) = Some rest.
Proof.
  intros Hsch Hne Hh Hr. destruct sch as [|c cs]; [done|]. simpl in Hsch.
  apply andb_true_iff in Hsch as [Hc Hcs].
  destruct host as [|h hs]; [done|]. apply not_elem_of_cons in Hh as [Hh Hhs].
  unfold URL_SCHEME_HOST_RE. cbn [Seqs].
  rewrite match_at_seq, rmatch_bol.
  change (rmatch ?r true ?s (fun _ rest0 => Some rest0)) with (match_at r true s).
  rewrite match_at_seq. cbn [app]. rewrite rmatch_cls_cons.
  rewrite re_ignorecase_ascii;
    [|by apply scheme_char_ascii, ascii_letter_scheme_char | done].
  rewrite match_at_seq, rmatch_star_cls. apply star_cls_app.
  { apply forallb_forall. intros d Hd. rewrite forallb_forall in Hcs.
    apply re_ignorecase_ascii; [apply scheme_char_ascii|]; by apply Hcs. }
  change (py "://" ++ ?x) with (chr ":" :: chr "/" :: chr "/" :: x).
  cbn [star_cls].
  assert (re_ignorecase scheme_char (chr ":") = false) as -> by done.
  unfold Lit. rewrite match_at_seq, rmatch_cls_cons.
  assert (is_char ":" (chr ":") = true) as -> by done.
  rewrite match_at_seq, rmatch_cls_cons.
  assert (is_char "/" (chr "/") = true) as -> by done.
  rewrite match_at_seq, rmatch_cls_cons.
  assert (is_char "/" (chr "/") = true) as -> by done.
  unfold Plus. rewrite match_at_seq. cbn [app]. rewrite rmatch_cls_cons.
  assert (not_slash h = true) as ->.
  { unfold not_slash, is_char. apply negb_true_iff, N.eqb_neq. by intros ->. }
  fold (match_at (Star (Cls not_slash)) false (hs ++ rest)).
  rewrite match_at_star_cls. f_equal. by apply lstrip_by_not_slash.
Qed.

Lemma sub_url sch host rest :
  url_scheme sch = true -> host <> [] -> chr "/" ∉ host ->
  rest = [] \/ (exists path, rest = chr "/" :: path) ->
  re_sub URL_SCHEME_HOST_RE [] (sch ++ py "://" ++ host ++ rest) = rest.
Proof.
  intros Hsch Hne Hh Hr. unfold re_sub.
  pose proof (match_at_url sch host rest Hsch Hne Hh Hr) as Hm.
  destruct sch as [|c cs]; [done|].
  set (pre := cs ++ py "://" ++ host).
  assert ((c :: cs) ++ py "://" ++ host ++ rest = c :: pre ++ rest) as E.
  { unfold pre. by rewrite <- !app_assoc. }
  rewrite E in *. cbn [sub_from]. rewrite Hm.
  assert (length (c :: pre ++ rest) - length rest = S (length pre))%nat as ->.
  { simpl. rewrite length_app. lia. }
  cbn [app]. unfold URL_SCHEME_HOST_RE. cbn [Seqs].
  rewrite sub_from_skip_app; [apply sub_bol_later|].
  unfold pre. by destruct cs.
Qed.

Lemma sub_url_none c s :
  re_ignorecase ascii_letter c = false -> re_sub URL_SCHEME_HOST_RE [] (c :: s) = c :: s.
Proof.
  intros Hc. unfold re_sub, URL_SCHEME_HOST_RE. cbn [Seqs sub_from].
  rewrite match_at_seq, rmatch_bol.
  change (rmatch ?r true ?s (fun _ rest0 => Some rest0)) with (match_at r true s).
  rewrite match_at_seq, rmatch_cls_cons, Hc. f_equal. apply sub_bol_later.
Qed.

Lemma comment_re_other c s :
  py_isspace c = false -> is_char "#" c = false -> re_match COMMENT_RE (c :: s) = false.
Proof.
  intros Hs Hh. unfold re_match, COMMENT_RE. cbn [Seqs].
  rewrite match_at_seq, rmatch_bol.
  change (rmatch ?r true ?s (fun _ rest0 => Some rest0)) with (match_at r true s).
  rewrite match_at_seq, rmatch_star_cls. cbn [star_cls]. rewrite Hs.
  unfold Lit, match_at. rewrite rmatch_cls_cons, Hh.
  apply bool_decide_eq_false. by intros [? ?].
Qed.

Lemma ascii_letter_facts c :
  ascii_letter c = true -> py_isspace c = false /\ is_char "#" c = false.
Proof.
  intros H. pose proof (scheme_char_ascii c (ascii_letter_scheme_char c H)) as Ha.
  unfold is_ascii in Ha. apply N.ltb_lt in Ha. revert c Ha H.
  apply (below_forall 128
    (fun c => ascii_letter c = true -> py_isspace c = false /\ is_char "#" c = false)).
  by vm_compute.
Qed.

Lemma slash_facts :
  py_isspace (chr "/") = false /\ is_char "#" (chr "/") = false /\
  re_ignorecase ascii_letter (chr "/") = false /\
  (is_char "010" (chr "/") || is_char "013" (chr "/")) = false.
Proof. done. Qed.

(** The steps of the loop body that come before the trimming of slashes,
    for a line that starts with a character that is no white space and no
    [#], and goes on with a slash. *)
Lemma strip_line_with_slash pre c path :
  py_isspace c = false ->
  strip_by py_isspace (chomp ((c :: pre) ++ chr "/" :: path))
  = (c :: pre) ++ chr "/" :: rstrip_by py_isspace (chomp path).
Proof.
  intros Hc. destruct slash_facts as (Hs & _ & _ & Hn).
  unfold chomp. rewrite rstrip_by_app by done.
  unfold strip_by. cbn [app lstrip_by]. rewrite Hc.
  change (c :: pre ++ ?x) with ((c :: pre) ++ x). by rewrite rstrip_by_app.
Qed.

Lemma strip_line_slash path :
  strip_by py_isspace (chomp (chr "/" :: path))
  = chr "/" :: rstrip_by py_isspace (chomp path).
Proof.
  destruct slash_facts as (Hs & _ & _ & Hn).
  unfold chomp. rewrite rstrip_by_cons by done.
  unfold strip_by. cbn [lstrip_by]. rewrite Hs. by rewrite rstrip_by_cons.
Qed.

Lemma candidate_of_url sch host path :
  url_scheme sch = true -> host <> [] -> chr "/" ∉ host ->
  candidate (sch ++ py "://" ++ host ++ chr "/" :: path) = candidate (chr "/" :: path).
Proof.
  intros Hsch Hne Hh. destruct slash_facts as (Hs & Hhash & Hlet & Hn).
  pose proof (sub_url sch host (chr "/" :: rstrip_by py_isspace (chomp path))
                Hsch Hne Hh ltac:(right; by eexists)) as Hsub.
  destruct sch as [|c cs]; [done|]. simpl in Hsch.
  apply andb_true_iff in Hsch as [Hc _].
  destruct (ascii_letter_facts c Hc) as [Hcs Hch].
  set (pre := cs ++ py "://" ++ host) in *.
  assert (forall x, (c :: cs) ++ py "://" ++ host ++ x = (c :: pre) ++ x) as E.
  { intros x. unfold pre. cbn [app]. by rewrite <- !app_assoc. }
  rewrite E in *.
  assert (chomp ((c :: pre) ++ chr "/" :: path) = (c :: pre) ++ chr "/" :: chomp path) as C1.
  { unfold chomp. by rewrite rstrip_by_app. }
  assert (chomp (chr "/" :: path) = chr "/" :: chomp path) as C2.
  { unfold chomp. by rewrite rstrip_by_cons. }
  unfold candidate. cbv zeta.
  rewrite (strip_line_with_slash pre c path Hcs), Hsub, strip_line_slash.
  rewrite C1, C2. cbn [app is_empty lstrip_by]. rewrite Hcs, Hs.
  rewrite !comment_re_other by done.
  by rewrite sub_url_none.
Qed.

(** X7.  A URL at the start of a line goes without its scheme and host:
    for an ASCII scheme and a host that is not empty, the substitution
    leaves the path, and the line gives the same candidate, hence the same
    entries, as its path alone. *)
Theorem X7_url_is_reduced_to_its_path (sch host path : str) (a : args) (st : state) :
  url_scheme sch = true -> host <> [] -> chr "/" ∉ host ->
  re_sub URL_SCHEME_HOST_RE [] (sch ++ py "://" ++ host ++ chr "/" :: path)
  = chr "/" :: path /\
  re_sub URL_SCHEME_HOST_RE [] (sch ++ py "://" ++ host) = [] /\
  candidate (sch ++ py "://" ++ host ++ chr "/" :: path) = candidate (chr "/" :: path) /\
  out (process_line a st (sch ++ py "://" ++ host ++ chr "/" :: path))
  = out (process_line a st (chr "/" :: path)).
Proof.
  intros Hsch Hne Hh. split_and!.
  - apply sub_url; [done..|]. right. by eexists.
  - rewrite <- (app_nil_r host) at 1. apply sub_url; [done..|]. by left.
  - by apply candidate_of_url.
  - rewrite !out_process_line. unfold line_handed. by rewrite candidate_of_url.
Qed.

End DirectoryUrl.

Lemma X7_witness :
  CleanDirectory.candidate (U := ascii_only) (py "https://Example.com:8443/Admin/panel?x=1")
  = CleanDirectory.candidate (U := ascii_only) (py "/Admin/panel?x=1").
Proof.
  refine (proj1 (proj2 (proj2 (X7_url_is_reduced_to_its_path (U := ascii_only)
            (py "https") (py "Example.com:8443") (py "Admin/panel?x=1")
            CleanDirectory.default_args CleanDirectory.initial _ _ _))));
    [reflexivity | discriminate | apply (bool_decide_unpack _); by vm_compute].
Defined.

(** * [clean_api_wordlist.py]: the loop of [process_lines] *)

Section ApiLoop.
Import CleanApi.
Context {U : PyUnicode}.

(** The trailing variant of an entry, where one is made. *)
Definition api_variant (o : opts) (line : str) : list str :=
  if add_trailing_variant o && negb (endswith (py "/") line) then [line ++ py "/"] else [].

Lemma api_process_line_new o acc raw line :
  normalized o raw = Some line -> line ∉ seen acc ->
  process_line o acc raw = add_all acc (line :: api_variant o line).
Proof.
  intros Hn Hin. unfold process_line, api_variant. rewrite Hn, decide_False by done.
  by destruct (_ && _).
Qed.

Lemma api_process_line_old o acc raw line :
  normalized o raw = Some line -> line ∈ seen acc -> process_line o acc raw = acc.
Proof. intros Hn Hin. unfold process_line. by rewrite Hn, decide_True. Qed.

Lemma api_process_line_none o acc raw :
  normalized o raw = None -> process_line o acc raw = acc.
Proof. intros Hn. unfold process_line. by rewrite Hn. Qed.

Lemma api_process_line_grows o acc raw : grows acc (process_line o acc raw).
Proof.
  destruct (normalized o raw) as [line|] eqn:Hn.
  - destruct (decide (line ∈ seen acc)).
    + rewrite (api_process_line_old o acc raw line) by done. apply grows_refl.
    + rewrite (api_process_line_new o acc raw line) by done. apply add_all_grows.
  - rewrite api_process_line_none by done. apply grows_refl.
Qed.

Lemma api_foldl_grows o lines acc : grows acc (foldl (process_line o) acc lines).
Proof.
  revert acc. induction lines as [|raw lines IH]; intros acc; [apply grows_refl|].
  simpl. eapply grows_trans; [apply api_process_line_grows | apply IH].
Qed.

Lemma api_foldl_wf o lines : wf_output (foldl (process_line o) empty_output lines).
Proof. apply api_foldl_grows, wf_empty_output. Qed.

(** A property of every normalised line and of its variant holds of every
    entry. *)
Lemma api_entries_Forall (P : str -> Prop) o lines :
  (forall raw line, raw ∈ lines -> normalized o raw = Some line ->
     Forall P (line :: api_variant o line)) ->
  Forall P (process_lines lines o).
Proof.
  unfold process_lines.
  assert (forall acc, wf_output acc -> Forall P (out_order acc) ->
            (forall raw line, raw ∈ lines -> normalized o raw = Some line ->
               Forall P (line :: api_variant o line)) ->
            Forall P (out_order (foldl (process_line o) acc lines))) as H.
  { induction lines as [|raw lines IH]; intros acc Hwf Hacc Hl; [done|]. simpl.
    apply IH.
    - by apply api_process_line_grows.
    - destruct (normalized o raw) as [line|] eqn:Hn.
      + destruct (decide (line ∈ seen acc)).
        * by rewrite (api_process_line_old o acc raw line).
        * rewrite (api_process_line_new o acc raw line) by done.
          apply Forall_forall. intros v Hv. rewrite elem_of_add_all in Hv by done.
          destruct Hv as [Hv|Hv].
          -- rewrite Forall_forall in Hacc. by apply Hacc.
          -- specialize (Hl raw line ltac:(by left) Hn). rewrite Forall_forall in Hl.
             by apply Hl.
      + by rewrite api_process_line_none.
    - intros raw' line Hin. apply Hl. by right. }
  intros Hl. apply H; [apply wf_empty_output | constructor | done].
Qed.

(** Every normalised line is an entry. *)
Lemma api_line_is_entry o lines raw line :
  raw ∈ lines -> normalized o raw = Some line -> line ∈ process_lines lines o.
Proof.
  unfold process_lines. generalize empty_output, wf_empty_output.
  induction lines as [|raw' lines IH]; intros acc Hwf Hin Hn; [by apply elem_of_nil in Hin|].
  simpl. apply elem_of_cons in Hin as [<-|Hin].
  - destruct (api_foldl_grows o lines (process_line o acc raw)) as [_ [k ->]].
    apply elem_of_app. left.
    destruct (decide (line ∈ seen acc)) as [Hs|Hs].
    + rewrite (api_process_line_old o acc raw line) by done. by apply Hwf.
    + rewrite (api_process_line_new o acc raw line) by done.
      apply elem_of_add_all; [done|]. right. by left.
  - apply IH; [by apply api_process_line_grows | done..].
Qed.

Lemma api_foldl_length o lines acc :
  (length (out_order (foldl (process_line o) acc lines))
   <= length (out_order acc) + (if add_trailing_variant o then 2 else 1) * length lines)%nat.
Proof.
  revert acc. induction lines as [|raw lines IH]; intros acc; [simpl; lia|].
  cbn [foldl length]. etrans; [apply IH|].
  assert (length (out_order (process_line o acc raw))
          <= length (out_order acc) + (if add_trailing_variant o then 2 else 1))%nat; [|lia].
  destruct (normalized o raw) as [line|] eqn:Hn.
  - destruct (decide (line ∈ seen acc)).
    + rewrite (api_process_line_old o acc raw line) by done. destruct (add_trailing_variant o); lia.
    + rewrite (api_process_line_new o acc raw line) by done.
      etrans; [apply out_order_add_all_length|]. unfold api_variant.
      destruct (add_trailing_variant o); cbn [andb]; [destruct (negb _)|]; simpl; lia.
  - rewrite api_process_line_none by done. destruct (add_trailing_variant o); lia.
Qed.

(** X14.  [process_lines] gives no entry twice and keeps the order of first
    appearance: more input only adds entries at the end.  Every line that
    survives normalisation is in the output, every entry is such a line or
    (with [--add-trailing-variant]) such a line with a slash added, and
    there are at most as many entries as lines, twice as many with the
    variants. *)
Theorem X14_process_lines_deduplicates (o : opts) (lines more : list str) (v : str) :
  NoDup (process_lines lines o) /\
  process_lines lines o `prefix_of` process_lines (lines ++ more) o /\
  (forall raw, raw ∈ lines -> normalized o raw = Some v -> v ∈ process_lines lines o) /\
  (v ∈ process_lines lines o ->
   exists raw line, raw ∈ lines /\ normalized o raw = Some line /\
     (v = line \/ (add_trailing_variant o = true /\ v = line ++ py "/"))) /\
  (length (process_lines lines o)
   <= (if add_trailing_variant o then 2 else 1) * length lines)%nat.
Proof.
  split_and!.
  - apply api_foldl_wf.
  - unfold process_lines. rewrite foldl_app. apply api_foldl_grows.
  - intros raw. apply api_line_is_entry.
  - revert v. apply Forall_forall. apply api_entries_Forall.
    intros raw line Hin Hn. constructor.
    + exists raw, line. split_and!; [done..|by left].
    + unfold api_variant. destruct (add_trailing_variant o) eqn:E; [|constructor].
      cbn [andb]. destruct (negb _); constructor; [|constructor].
      exists raw, line. split_and!; [done..|]. by right.
  - apply (api_foldl_length o lines empty_output).
Qed.

Lemma api_closed_step o acc raw :
  add_trailing_variant o = true ->
  wf_output acc ->
  (forall e, e ∈ out_order acc -> endswith (py "/") e = false -> e ++ py "/" ∈ out_order acc) ->
  forall e, e ∈ out_order (process_line o acc raw) -> endswith (py "/") e = false ->
    e ++ py "/" ∈ out_order (process_line o acc raw).
Proof.
  intros Ho Hwf Hacc e.
  destruct (normalized o raw) as [line|] eqn:Hn; [|by rewrite api_process_line_none; auto].
  destruct (decide (line ∈ seen acc)).
  { rewrite (api_process_line_old o acc raw line) by done. auto. }
  rewrite (api_process_line_new o acc raw line) by done.
  rewrite !elem_of_add_all by done. unfold api_variant. rewrite Ho. cbn [andb].
  intros [He|He] Hend; [left; by apply Hacc|]. right.
  destruct (endswith (py "/") line) eqn:El; cbn [negb] in *.
  - apply list_elem_of_singleton in He as ->. congruence.
  - apply elem_of_cons in He as [->|He]; [right; by left|].
    apply list_elem_of_singleton in He as ->.
    change (py "/") with [chr "/"] in Hend. by rewrite endswith_snoc in Hend.
Qed.

(** X15.  With [--add-trailing-variant] the output is closed under adding
    a slash: beside every entry that does not end in a slash stands the
    same entry with one. *)
Theorem X15_every_entry_has_its_trailing_variant (o : opts) (lines : list str) (e : str) :
  add_trailing_variant o = true ->
  e ∈ process_lines lines o -> endswith (py "/") e = false ->
  e ++ py "/" ∈ process_lines lines o.
Proof.
  intros Ho. unfold process_lines. revert e.
  assert (forall acc, wf_output acc ->
            (forall e, e ∈ out_order acc -> endswith (py "/") e = false ->
               e ++ py "/" ∈ out_order acc) ->
            forall e, e ∈ out_order (foldl (process_line o) acc lines) ->
              endswith (py "/") e = false ->
              e ++ py "/" ∈ out_order (foldl (process_line o) acc lines)) as H.
  { induction lines as [|raw lines IH]; intros acc Hwf Hacc; [done|]. simpl.
    apply IH; [by apply api_process_line_grows | by apply api_closed_step]. }
  apply H; [apply wf_empty_output|]. intros e He. by apply elem_of_nil in He.
Qed.

(** ** [--leading-slash] *)

Lemma startswith_slash_cons c s : startswith (py "/") (c :: s) = is_char "/" c.
Proof.
  change (py "/") with [chr "/"]. cbn [startswith]. unfold is_char.
  by rewrite N.eqb_sym, andb_true_r.
Qed.

Lemma startswith_slash_lstrip s : startswith (py "/") (lstrip_by (is_char "/") s) = false.
Proof.
  destruct (lstrip_by (is_char "/") s) as [|c y] eqn:E; [done|].
  rewrite startswith_slash_cons. by apply lstrip_by_head in E.
Qed.

Lemma startswith_slash_rstrip f s :
  startswith (py "/") s = false -> startswith (py "/") (rstrip_by f s) = false.
Proof.
  intros H. destruct (rstrip_by_decomp f s) as (ws & E & _).
  destruct (rstrip_by f s) as [|c y]; [done|]. rewrite E in H. exact H.
Qed.

Lemma quote_byte_head b :
  exists h t, quote_byte safe_chars b = h :: t /\
    ((h = b /\ kept_char b = true) \/ h = chr "%").
Proof.
  rewrite quote_byte_kept. destruct (kept_char b) eqn:E; eexists _, _; (split; [done|]).
  - by left.
  - by right.
Qed.

Lemma quote_startswith_slash s :
  startswith (py "/") s = false -> startswith (py "/") (quote safe_chars s) = false.
Proof.
  destruct s as [|d y]; [done|]. rewrite startswith_slash_cons. intros Hd.
  rewrite quote_cons, quote_one. unfold utf8_encode.
  destruct (N.ltb_spec d 128) as [Hlt|Hge].
  - cbn [flat_map]. destruct (quote_byte_head d) as (h & t & -> & [[-> _]| ->]);
      cbn [app]; by rewrite startswith_slash_cons.
  - assert (forall b bs z, 128 <= b ->
      startswith (py "/") (flat_map (quote_byte safe_chars) (b :: bs) ++ z) = false) as H.
    { intros b bs z Hb. cbn [flat_map].
      destruct (quote_byte_head b) as (h & t & -> & [[-> Hk]| ->]); cbn [app].
      - apply kept_char_ascii in Hk. lia.
      - by rewrite startswith_slash_cons. }
    repeat match goal with |- context [if ?c then _ else _] => destruct c end;
      apply H;
      match goal with |- 128 <= ?k + _ => transitivity k; [lia | apply N.le_add_r] end.
Qed.

Lemma api_leading_slash o raw line :
  leading_slash o = true -> lower o = false -> normalized o raw = Some line ->
  exists rest, line = chr "/" :: rest /\ startswith (py "/") rest = false.
Proof.
  intros Hl Hlow. unfold normalized. cbv zeta. rewrite Hl, Hlow.
  destruct (is_empty _); [done|]. destruct (strip_comments o && _); [done|].
  destruct (is_empty (strip_by _ _)); [done|].
  generalize (remove_trailing_slash
    (if collapse_slashes_opt o
     then collapse_slashes
            (py_nfkc (strip_by py_isspace
               (if strip_comments o
                then strip_comment (rstrip_by (fun c => is_char "013" c || is_char "010" c) raw)
                else rstrip_by (fun c => is_char "013" c || is_char "010" c) raw)))
     else py_nfkc (strip_by py_isspace
               (if strip_comments o
                then strip_comment (rstrip_by (fun c => is_char "013" c || is_char "010" c) raw)
                else rstrip_by (fun c => is_char "013" c || is_char "010" c) raw)))).
  intros x.
  assert (exists y, (if negb (startswith (py "/") x) then chr "/" :: x
                     else re_sub (Seq Bol (Plus (Lit "/"))) (py "/") x) = chr "/" :: y /\
                    startswith (py "/") y = false) as (y & -> & Hy).
  { rewrite sub_leading_slashes. destruct (startswith (py "/") x) eqn:E; cbn [negb].
    - eexists. split; [done|]. apply startswith_slash_lstrip.
    - by exists x. }
  assert (exists z, (if percent o then percent_encode_keep_slash (chr "/" :: y)
                     else chr "/" :: y) = chr "/" :: z /\
                    startswith (py "/") z = false) as (z & -> & Hz).
  { destruct (percent o); [|by exists y].
    unfold percent_encode_keep_slash. rewrite quote_cons, quote_one_kept by done.
    eexists. split; [done|]. by apply quote_startswith_slash. }
  unfold strip_by. cbn [lstrip_by].
  assert (py_isspace (chr "/") = false) as Hs by done. rewrite Hs.
  rewrite rstrip_by_cons by done. cbn [is_empty]. intros [= <-].
  eexists. split; [done|]. by apply startswith_slash_rstrip.
Qed.

(** X16.  With [--leading-slash] (and without [--lower]) every entry
    starts with exactly one slash, with or without the other options. *)
Theorem X16_leading_slash_gives_one_slash (o : opts) (lines : list str) :
  leading_slash o = true -> lower o = false ->
  Forall (fun e => exists rest, e = chr "/" :: rest /\ startswith (py "/") rest = false)
    (process_lines lines o).
Proof.
  intros Hl Hlow. apply api_entries_Forall. intros raw line _ Hn.
  destruct (api_leading_slash o raw line Hl Hlow Hn) as (rest & -> & Hrest).
  constructor; [by exists rest|]. unfold api_variant.
  destruct (add_trailing_variant o && _) eqn:E; constructor; [|constructor].
  exists (rest ++ py "/"). split; [done|].
  destruct rest as [|c rest]; [|exact Hrest].
  apply andb_true_iff in E as [_ E]. by vm_compute in E.
Qed.

End ApiLoop.

Definition api_with_variants : CleanApi.opts := {|
  CleanApi.leading_slash := true;
  CleanApi.no_leading_slash := false;
  CleanApi.lower := false;
  CleanApi.percent := true;
  CleanApi.add_trailing_variant := true;
  CleanApi.strip_comments := true;
  CleanApi.collapse_slashes_opt := true;
  CleanApi.verbose := false
|}.

Lemma X14_witness :
  py "/api/v1/users"
  ∈ CleanApi.process_lines (U := ascii_only)
      [py "/health"; py "/api//v1/users/ # list"] CleanApi.default_opts.
Proof.
  refine (proj1 (proj2 (proj2 (X14_process_lines_deduplicates (U := ascii_only)
            CleanApi.default_opts [py "/health"; py "/api//v1/users/ # list"] []
            (py "/api/v1/users")))) (py "/api//v1/users/ # list") _ _).
  - apply (bool_decide_unpack _). by vm_compute.
  - reflexivity.
Defined.

Lemma X15_witness :
  py "/api/v1/users" ++ py "/"
  ∈ CleanApi.process_lines (U := ascii_only)
      [py "api//v1/users/  # list"; py "/health"] api_with_variants.
Proof.
  apply (X15_every_entry_has_its_trailing_variant (U := ascii_only)).
  - reflexivity.
  - apply (bool_decide_unpack _). by vm_compute.
  - reflexivity.
Defined.

Lemma X16_witness :
  Forall (fun e => exists rest, e = chr "/" :: rest /\ startswith (py "/") rest = false)
    (CleanApi.process_lines (U := ascii_only)
       [py "api//v1/users/  # list"; py "///health check"] api_with_variants).
Proof.
  apply (X16_leading_slash_gives_one_slash (U := ascii_only)); reflexivity.
Defined.

(** * What a substitution by the empty string leaves *)

Lemma sub_from_sublist r n : forall b s, sub_from r [] b n s `sublist_of` s.
Proof.
  assert (forall m b n s, (length s <= m)%nat -> sub_from r [] b n s `sublist_of` s) as H.
  { induction m as [|m IH]; intros b k s Hm.
    - destruct s; [|simpl in Hm; lia]. destruct k; simpl; [|done].
      by destruct (match_at r b []).
    - destruct s as [|c s].
      { destruct k; simpl; [|done]. by destruct (match_at r b []). }
      simpl in Hm. destruct k as [|k]; cbn [sub_from].
      + destruct (match_at r b (c :: s)) as [rest|].
        * destruct (length (c :: s) - length rest)%nat; cbn [app].
          -- apply sublist_skip, IH. lia.
          -- apply sublist_cons, IH. lia.
        * apply sublist_skip, IH. lia.
      + apply sublist_cons, IH. lia. }
  intros b s. by apply (H (length s)).
Qed.

Lemma re_sub_sublist r s : re_sub r [] s `sublist_of` s.
Proof. apply sub_from_sublist. Qed.

Lemma lstrip_by_sublist f s : lstrip_by f s `sublist_of` s.
Proof.
  destruct (lstrip_by_decomp f s) as (ws & E & _). rewrite E at 2. apply sublist_inserts_l. done.
Qed.

Lemma rstrip_by_sublist f s : rstrip_by f s `sublist_of` s.
Proof.
  destruct (rstrip_by_decomp f s) as (ws & E & _). rewrite E at 2. apply sublist_inserts_r. done.
Qed.

Lemma strip_by_sublist f s : strip_by f s `sublist_of` s.
Proof. unfold strip_by. etrans; [apply rstrip_by_sublist | apply lstrip_by_sublist]. Qed.

Lemma not_elem_of_sublist (x : N) l1 l2 : l1 `sublist_of` l2 -> x ∉ l2 -> x ∉ l1.
Proof. intros Hs Hx Hin. apply Hx. by eapply elem_of_sublist. Qed.

Lemma Forall_sublist (P : N -> Prop) l1 l2 : l1 `sublist_of` l2 -> Forall P l2 -> Forall P l1.
Proof.
  intros Hs. rewrite !Forall_forall. intros H x Hx. apply H. by eapply elem_of_sublist.
Qed.

(** * [convert_files_into_directories.py]: the loop of [process_file] *)

Section ConvertLoop.
Import ConvertFiles.
Context {U : PyUnicode}.

Lemma convert_foldl o lines acc :
  foldl (process_line o) acc lines = add_all acc (omap (entry_of o) lines).
Proof.
  revert acc. induction lines as [|raw lines IH]; intros acc; [done|].
  cbn [foldl omap list_omap]. rewrite IH. unfold process_line.
  by destruct (entry_of o raw).
Qed.

Lemma length_omap_le {A B} (f : A -> option B) l : (length (omap f l) <= length l)%nat.
Proof.
  induction l as [|x l IH]; [simpl; lia|]. cbn in *. destruct (f x); cbn in *; lia.
Qed.

Lemma elem_of_process_file o lines v :
  v ∈ process_file lines o <-> exists raw, raw ∈ lines /\ entry_of o raw = Some v.
Proof.
  unfold process_file. rewrite convert_foldl, elem_of_add_all by apply wf_empty_output.
  rewrite list_elem_of_omap. simpl. rewrite elem_of_nil. tauto.
Qed.

(** X17.  [process_file] gives no entry twice and keeps the order of first
    appearance: more input only adds entries at the end.  An entry is in
    the output exactly when a line of the input yields it, and there are at
    most as many entries as lines. *)
Theorem X17_process_file_deduplicates (o : options) (lines more : list str) (v : str) :
  NoDup (process_file lines o) /\
  process_file lines o `prefix_of` process_file (lines ++ more) o /\
  (v ∈ process_file lines o <-> exists raw, raw ∈ lines /\ entry_of o raw = Some v) /\
  (length (process_file lines o) <= length lines)%nat.
Proof.
  unfold process_file. split_and!.
  - rewrite convert_foldl. apply add_all_wf, wf_empty_output.
  - rewrite foldl_app, (convert_foldl o more). apply add_all_grows.
  - apply elem_of_process_file.
  - rewrite convert_foldl. etrans; [apply out_order_add_all_length|]. apply length_omap_le.
Qed.

(** The last step of the loop body. *)
Definition with_slash (o : options) (candidate : str) : str :=
  if add_trailing_slash o && negb (endswith (py "/") candidate)
  then candidate ++ py "/" else candidate.

(** The candidate before the last two steps. *)
Definition stripped_candidate (o : options) (line : str) : str :=
  let ext_re := build_ext_regex (ext_table o) in
  strip_by py_isspace
    (if basename_only o then re_sub ext_re [] (path_name (PurePosixPath line))
     else remove_extensions line ext_re).

Lemma entry_of_Some o raw v :
  entry_of o raw = Some v ->
  exists line,
    stripped_candidate o line <> [] /\
    v = with_slash o (re_sub LEADING_DOT_SLASH [] (stripped_candidate o line)).
Proof.
  unfold entry_of. cbv zeta.
  destruct (is_empty (strip_comment raw)); [done|].
  destruct (is_empty (strip_by py_isspace (strip_comment raw))); [done|].
  destruct (negb (keep_markers o) && _); [done|].
  set (line := normalize _ _).
  fold (stripped_candidate o line).
  destruct (stripped_candidate o line) eqn:E; [done|]. cbn [is_empty].
  intros [= <-]. exists line. rewrite E. done.
Qed.

(** X18.  With [--slash] every entry ends in a slash. *)
Theorem X18_slash_option_ends_every_entry (o : options) (lines : list str) :
  add_trailing_slash o = true ->
  Forall (fun e => endswith (py "/") e = true) (process_file lines o).
Proof.
  intros Ho. apply Forall_forall. intros v (raw & _ & Hv)%elem_of_process_file.
  apply entry_of_Some in Hv as (line & _ & ->). unfold with_slash. rewrite Ho. cbn [andb].
  set (c := re_sub LEADING_DOT_SLASH [] (stripped_candidate o line)).
  destruct (endswith (py "/") c) eqn:E; cbn [negb]; [done|].
  change (py "/") with [chr "/"]. apply endswith_snoc.
Qed.

Lemma endswith_snoc_inv c d x : endswith [c] (x ++ [d]) = true -> d = c.
Proof.
  unfold endswith. rewrite rev_app_distr. cbn [rev app startswith].
  rewrite andb_true_r. by intros ->%N.eqb_eq.
Qed.

Lemma path_name_no_slash s : chr "/" ∉ path_name (PurePosixPath s).
Proof.
  unfold path_name, PurePosixPath. cbn [parts].
  destruct (filter _ (split (chr "/") s)) as [|p ps] eqn:E; [apply not_elem_of_nil|].
  assert (List.last (p :: ps) [] ∈ split (chr "/") s) as Hin.
  { pose proof (last_elem_of (p :: ps) [] ltac:(done)) as H.
    rewrite <- E in H at 2. by apply list_elem_of_filter in H as [_ H]. }
  by apply split_no_sep in Hin.
Qed.

Lemma sub_leading_dot_slash_none s :
  chr "/" ∉ s -> re_sub LEADING_DOT_SLASH [] s = s.
Proof.
  intros Hs. apply sub_from_no_match, search_from_false.
  intros pre u v -> H. unfold LEADING_DOT_SLASH in H. cbn [Seqs] in H.
  apply matches_seq in H as (u0 & u1 & -> & _ & H).
  apply matches_seq in H as (u2 & u3 & -> & _ & [Hne Hu]%matches_plus_cls).
  destruct u3 as [|c u3]; [done|]. simpl in Hu. apply andb_true_iff in Hu as [Hc _].
  unfold is_char in Hc. apply N.eqb_eq in Hc as ->. apply Hs. elem_of_pieces.
Qed.

(** X19.  With [--basename] an entry is the last component of the path
    without its extensions: it is not empty and holds no slash, apart from
    the one that [--slash] puts at its end. *)
Theorem X19_basename_entries_hold_no_slash (o : options) (lines : list str) :
  basename_only o = true ->
  Forall (fun e => exists name, name <> [] /\ (chr "/" ∉ name) /\
                     e = if add_trailing_slash o then name ++ py "/" else name)
    (process_file lines o).
Proof.
  intros Ho. apply Forall_forall. intros v (raw & _ & Hv)%elem_of_process_file.
  apply entry_of_Some in Hv as (line & Hne & ->).
  assert (chr "/" ∉ stripped_candidate o line) as Hs.
  { unfold stripped_candidate. cbv zeta. rewrite Ho.
    eapply not_elem_of_sublist; [apply strip_by_sublist|].
    eapply not_elem_of_sublist; [apply re_sub_sublist|]. apply path_name_no_slash. }
  rewrite sub_leading_dot_slash_none by done.
  exists (stripped_candidate o line). split_and!; [done..|].
  unfold with_slash. destruct (add_trailing_slash o); [|done]. cbn [andb].
  destruct (endswith (py "/") (stripped_candidate o line)) eqn:E; [|done]. exfalso.
  destruct (stripped_candidate o line) as [|c x _] using rev_ind; [done|].
  change (py "/") with [chr "/"] in E. apply endswith_snoc_inv in E as ->.
  apply Hs. elem_of_pieces.
Qed.

(** ** [strip_comment] *)

Lemma api_comment_re_iff s :
  re_match CleanApi.COMMENT_RE s = true <->
  exists ws m y, s = ws ++ m ++ y /\ forallb py_isspace ws = true /\
    (m = py "#" \/ m = py "//").
Proof.
  rewrite re_match_true. unfold CleanApi.COMMENT_RE. cbn [Seqs]. split.
  - intros (u & v & -> & H).
    apply matches_seq in H as (u0 & u1 & -> & [-> _]%matches_bol & H).
    apply matches_seq in H as (ws & m & -> & Hws%matches_star_cls & H).
    exists ws, m, v. split_and!; [cbn [app]; by rewrite <- app_assoc | done |].
    apply matches_alt in H as [->%matches_lit | H]; [by left|]. right.
    apply matches_seq in H as (m1 & m2 & -> & ->%matches_lit & ->%matches_lit). done.
  - intros (ws & m & y & -> & Hws & Hm). exists (ws ++ m), y. rewrite <- app_assoc.
    split; [done|]. apply (m_seq Bol _ true [] (ws ++ m) y); [constructor|].
    rewrite bnext_nil. apply m_seq; [by apply matches_star_cls|].
    apply matches_alt. destruct Hm as [-> | ->]; [left; by apply matches_lit|].
    right. apply (m_seq (Lit "/") (Lit "/") _ (py "/") (py "/") y); by apply matches_lit.
Qed.

Lemma rstrip_by_head f c y : rstrip_by f (c :: y) = [] \/ exists r, rstrip_by f (c :: y) = c :: r.
Proof.
  destruct (rstrip_by_decomp f (c :: y)) as (ws & E & _).
  destruct (rstrip_by f (c :: y)) as [|d r]; [by left|]. right.
  injection E as -> _. by exists r.
Qed.

(** [rstrip] does not change what a string starts with, as far as the
    characters asked for are not stripped. *)
Lemma startswith_rstrip_by f p t :
  forallb (fun c => negb (f c)) p = true ->
  startswith p (rstrip_by f t) = startswith p t.
Proof.
  revert t. induction p as [|a p IH]; intros t Hp; [done|].
  simpl in Hp. apply andb_true_iff in Hp as [Ha Hp]. apply negb_true_iff in Ha.
  destruct t as [|c y]; [done|]. cbn [startswith].
  destruct (N.eqb_spec a c) as [<-|Hne].
  - rewrite rstrip_by_cons by done. cbn [startswith]. rewrite N.eqb_refl. by rewrite IH.
  - destruct (rstrip_by_head f c y) as [-> | (r & ->)]; [done|].
    cbn [startswith]. by apply N.eqb_neq in Hne as ->.
Qed.

Lemma lstrip_by_starts ws m y f :
  forallb f ws = true -> (exists c m', m = c :: m' /\ f c = false) ->
  lstrip_by f (ws ++ m ++ y) = m ++ y.
Proof.
  intros Hws (c & m' & -> & Hc). cbn [app]. rewrite lstrip_by_app by done.
  by rewrite lstrip_by_all.
Qed.

Lemma api_comment_re_startswith s :
  re_match CleanApi.COMMENT_RE s =
  startswith (py "#") (strip_by py_isspace s) || startswith (py "//") (strip_by py_isspace s).
Proof.
  unfold strip_by. rewrite !startswith_rstrip_by by done.
  apply Bool.eq_iff_eq_true. rewrite api_comment_re_iff, orb_true_iff. split.
  - intros (ws & m & y & -> & Hws & [-> | ->]); [left | right];
      (rewrite lstrip_by_starts; [apply startswith_app | done | by eexists _, _]).
  - destruct (lstrip_by_decomp py_isspace s) as (ws & E & Hws).
    intros [(y & Hy)%startswith_decomp | (y & Hy)%startswith_decomp]; rewrite Hy in E.
    + exists ws, (py "#"), y. split_and!; [done..|by left].
    + exists ws, (py "//"), y. split_and!; [done..|by right].
Qed.

Lemma cut_inline_same seqs line : cut_inline seqs line = CleanApi.cut_inline seqs line.
Proof. induction seqs as [|seq seqs IH]; [done|]. simpl. by rewrite IH. Qed.

(** X21.  [strip_comment] of [convert_files_into_directories.py] and
    [strip_comment] of [clean_api_wordlist.py] are the same function: the
    test with [strip()] and [startswith] of the one and the pattern
    [^\s*(#|//)] of the other accept the same lines. *)
Theorem X21_the_two_strip_comment_agree (line : str) :
  strip_comment line = CleanApi.strip_comment line.
Proof.
  unfold strip_comment, CleanApi.strip_comment. cbv zeta.
  rewrite api_comment_re_startswith, cut_inline_same.
  fold CleanApi.BOM BOM.
  by destruct (startswith (py "#") _), (startswith (py "//") _).
Qed.

(** ** [--ext] *)

(** What [main] hands to [process_file] as [ext_list]: nothing, or the
    default table followed by the extensions of [--ext]. *)
Definition main_ext_list (ext : option (list str)) : option (list str) :=
  match ext with
  | Some (e :: es) => Some (DEFAULT_EXTS ++ e :: es)
  | _ => None
  end.

(** The options that [main] builds from the command line. *)
Definition main_options (basename slash lower keep : bool) (ext : option (list str)) :
    options := {|
  basename_only := basename;
  add_trailing_slash := slash;
  ConvertFiles.lower := lower;
  ext_list := main_ext_list ext;
  keep_markers := keep
|}.

Lemma main_ext_table basename slash lower keep ext e :
  e ∈ ext_table (main_options basename slash lower keep ext) <->
  e ∈ DEFAULT_EXTS \/ (exists extra, ext = Some extra /\ e ∈ extra).
Proof.
  unfold ext_table, main_options, main_ext_list. cbn [ext_list].
  destruct ext as [[|x extra]|].
  - split; [by left|]. intros [?|(? & [= <-] & []%elem_of_nil)]. done.
  - destruct (DEFAULT_EXTS ++ x :: extra) as [|d l] eqn:E.
    { by destruct DEFAULT_EXTS. }
    rewrite <- E, elem_of_app. split; [|intros [?|(? & [= <-] & ?)]; tauto].
    intros [?|?]; [by left|]. right. by eexists.
  - split; [by left|]. by intros [?|(? & [=] & _)].
Qed.

Lemma ext_groups_mono exts exts' g :
  (forall e, e ∈ exts -> e ∈ exts') -> ext_groups exts g -> ext_groups exts' g.
Proof.
  intros H (gs & Hne & Hgs & ->). exists gs. split_and!; [done| |done].
  eapply Forall_impl; [exact Hgs|]. intros g (e & e' & He & Hm & ->).
  exists e, e'. split_and!; [by apply H | done..].
Qed.

Lemma ext_matches_refl e : forallb is_ascii e = true -> ext_matches e e.
Proof.
  unfold ext_matches. induction e as [|c e IH]; [constructor|]. simpl.
  intros [Hc He]%andb_true_iff. constructor; [|by apply IH].
  unfold re_ignorecase_lit. rewrite Hc. simpl. apply N.eqb_refl.
Qed.

Lemma prefix_of_shorter (r1 r2 g1 g2 : str) :
  r1 ++ g1 = r2 ++ g2 -> (length r1 <= length r2)%nat -> r1 `prefix_of` r2.
Proof.
  intros E Hl. exists (drop (length r1) r2).
  apply (f_equal (take (length r1))) in E.
  rewrite take_app_length, take_app_le in E by done.
  rewrite E at 1. by rewrite take_drop.
Qed.

(** X20.  [--ext] adds extensions to the default table and takes none
    away: a name loses at least what it loses with the default table, and
    a name that ends in a dot and one of the new extensions (in ASCII)
    loses at least that. *)
Theorem X20_extra_extensions_only_strip_more
    (basename slash lower keep : bool) (ext : option (list str)) (stem base e : str) :
  let table := ext_table (main_options basename slash lower keep ext) in
  List.last stem 0 <> chr "010" ->
  re_sub (build_ext_regex table) [] stem `prefix_of` re_sub EXT_RE [] stem /\
  (forall extra, ext = Some extra -> e ∈ extra -> forallb is_ascii e = true ->
     stem = base ++ py "." ++ e ->
     re_sub (build_ext_regex table) [] stem `prefix_of` base).
Proof.
  intros table Hlast.
  destruct (strip_extensions table stem Hlast) as (g & Es & _ & Hmin).
  split.
  - destruct (strip_extensions DEFAULT_EXTS stem Hlast) as (g0 & Es0 & Hg0 & _).
    fold EXT_RE in Es0, Hg0 |- *.
    eapply prefix_of_shorter; [by rewrite <- Es, <- Es0|].
    destruct Hg0 as [-> | Hg0].
    + rewrite app_nil_r in Es0. rewrite <- Es0.
      apply (f_equal length) in Es. rewrite length_app in Es. lia.
    + apply (Hmin _ g0); [done|]. eapply ext_groups_mono; [|exact Hg0].
      intros x Hx. apply main_ext_table. by left.
  - intros extra -> He Ha Estem.
    eapply prefix_of_shorter; [by rewrite <- Es, <- Estem|].
    apply (Hmin _ (py "." ++ e)); [done|]. exists [py "." ++ e].
    split_and!; [done| |by rewrite (concat_cons _ []), app_nil_r].
    constructor; [|constructor]. exists e, e. split_and!; [|by apply ext_matches_refl|done].
    apply main_ext_table. right. by eexists.
Qed.

End ConvertLoop.

Definition convert_basename_slash : ConvertFiles.options := {|
  ConvertFiles.basename_only := true;
  ConvertFiles.add_trailing_slash := true;
  ConvertFiles.lower := false;
  ConvertFiles.ext_list := None;
  ConvertFiles.keep_markers := false
|}.

Lemma X18_witness :
  Forall (fun e => endswith (py "/") e = true)
    (ConvertFiles.process_file (U := ascii_only)
       [py "/var/www/index.php"; py "backup.tar.gz"; py "admin/"] convert_basename_slash).
Proof. apply (X18_slash_option_ends_every_entry (U := ascii_only)). reflexivity. Defined.

Lemma X19_witness :
  Forall (fun e => exists name, name <> [] /\ (chr "/" ∉ name) /\ e = name ++ py "/")
    (ConvertFiles.process_file (U := ascii_only)
       [py "/var/www/index.php"; py "backup.tar.gz"; py "admin/"] convert_basename_slash).
Proof.
  refine (X19_basename_entries_hold_no_slash (U := ascii_only) convert_basename_slash
            [py "/var/www/index.php"; py "backup.tar.gz"; py "admin/"] _).
  reflexivity.
Defined.

Lemma X20_witness :
  re_sub (ConvertFiles.build_ext_regex (U := ascii_only)
            (ConvertFiles.ext_table
               (main_options false false false false (Some [py "inc"; py "swp"]))))
    [] (py "config.inc.swp")
  `prefix_of` re_sub (ConvertFiles.EXT_RE (U := ascii_only)) [] (py "config.inc.swp").
Proof.
  refine (proj1 (X20_extra_extensions_only_strip_more (U := ascii_only)
            false false false false (Some [py "inc"; py "swp"])
            (py "config.inc.swp") (py "config.inc") (py "swp") _)).
  by vm_compute.
Defined.

(** * The characters of the output *)

(** A string of Unicode scalar values. *)
Definition scalar_str (s : str) : Prop := Forall (fun c => scalar_value c = true) s.

Lemma scalar_str_sublist s t : s `sublist_of` t -> scalar_str t -> scalar_str s.
Proof. apply Forall_sublist. Qed.

Lemma scalar_str_app s t : scalar_str s -> scalar_str t -> scalar_str (s ++ t).
Proof. intros Hs Ht. apply Forall_app. by split. Qed.

Lemma scalar_str_py a : scalar_str (py a).
Proof.
  unfold py, scalar_str. apply Forall_forall. intros c (x & -> & _)%list_elem_of_fmap.
  unfold scalar_value, chr. pose proof (N_ascii_bounded x) as H.
  apply orb_true_iff. left. apply N.ltb_lt. lia.
Qed.

Lemma squeeze_sublist prev s : squeeze prev s `sublist_of` s.
Proof.
  revert prev. induction s as [|c s IH]; intros prev; [done|]. cbn [squeeze].
  destruct (is_char "/" c); [destruct prev|]; by constructor.
Qed.

Lemma ascii_lower_scalar c : scalar_value c = true -> scalar_value (ascii_lower c) = true.
Proof.
  unfold ascii_lower, ascii_upper_letter, in_range. intros H.
  destruct (_ && _) eqn:E; [|done]. apply andb_true_iff in E as [_ E].
  apply N.leb_le in E. unfold chr in E. cbn in E. unfold scalar_value.
  apply orb_true_iff. left. apply N.ltb_lt. lia.
Qed.

Lemma homoglyph_scalar c :
  scalar_value c = true -> scalar_value (CleanDirectory.HOMOGLYPH_MAP c) = true.
Proof.
  intros H. unfold CleanDirectory.HOMOGLYPH_MAP.
  repeat match goal with |- context [if ?b then _ else _] => destruct b; [done|] end.
  done.
Qed.

Section Alphabet.
Import CleanDirectory.
Context {U : PyUnicode}.
Hypothesis nfkc_scalar : forall s, scalar_str s -> scalar_str (uni_nfkc s).
Hypothesis lower_scalar : forall s, scalar_str s -> scalar_str (uni_lower s).

Lemma py_nfkc_scalar s : scalar_str s -> scalar_str (py_nfkc s).
Proof. intros H. unfold py_nfkc. destruct (forallb is_ascii s); [done | by apply nfkc_scalar]. Qed.

Lemma py_lower_scalar s : scalar_str s -> scalar_str (py_lower s).
Proof.
  intros H. unfold py_lower. destruct (forallb is_ascii s); [|by apply lower_scalar].
  apply Forall_fmap. eapply Forall_impl; [exact H|]. apply ascii_lower_scalar.
Qed.

Lemma fold_case_scalar (keep : bool) s :
  scalar_str s -> scalar_str (if keep then s else py_lower s).
Proof. intros H. destruct keep; [done | by apply py_lower_scalar]. Qed.

Lemma normalize_and_map_scalar s :
  scalar_str s -> scalar_str (CleanDirectory.normalize_and_map s).
Proof.
  intros H. unfold CleanDirectory.normalize_and_map. cbv zeta.
  eapply scalar_str_sublist; [apply sublist_filter|].
  apply Forall_fmap. eapply Forall_impl; [apply py_nfkc_scalar, H|]. apply homoglyph_scalar.
Qed.

Lemma candidate_scalar raw s :
  scalar_str raw -> CleanDirectory.candidate raw = Some s -> scalar_str s.
Proof.
  intros Hraw. unfold CleanDirectory.candidate. cbv zeta.
  destruct (is_empty _); [done|]. destruct (re_match _ _); [done|].
  destruct (is_empty _); [done|]. destruct (is_empty _); [done|].
  destruct (is_empty _); [done|]. intros [= <-].
  apply normalize_and_map_scalar. rewrite collapse_slashes_squeeze.
  eapply scalar_str_sublist; [|exact Hraw].
  etrans; [apply squeeze_sublist|]. etrans; [apply re_sub_sublist|].
  etrans; [apply re_sub_sublist|]. etrans; [apply strip_by_sublist|].
  etrans; [apply re_sub_sublist|]. etrans; [apply re_sub_sublist|].
  etrans; [apply strip_by_sublist|]. apply rstrip_by_sublist.
Qed.

Lemma encoded_url_chars s :
  scalar_str s -> forallb url_char (percent_encode_keep_slash s) = true.
Proof. apply quote_chars. Qed.

Lemma gated_url_chars a vs :
  Forall scalar_str vs -> Forall (fun e => forallb url_char e = true) (gated a vs).
Proof.
  intros H. unfold gated. apply Forall_forall.
  intros e [_ (v & -> & Hv)%list_elem_of_fmap]%list_elem_of_filter.
  rewrite Forall_forall in H. by apply encoded_url_chars, H.
Qed.

Lemma nondot_handed_url_chars a s :
  scalar_str s -> Forall (fun e => forallb url_char e = true) (nondot_handed a s).
Proof.
  intros Hs. unfold nondot_handed. destruct (has_lfi s); [constructor|]. cbv zeta.
  destruct (_ && _); [constructor|]. destruct (too_long a _); [constructor|].
  pose proof (encoded_url_chars _ (fold_case_scalar (CleanDirectory.iis a) s Hs)) as H.
  unfold CleanDirectory.trailing_variants. destruct (_ && _); repeat constructor; try done.
  by rewrite forallb_app, H.
Qed.

Lemma dot_core_scalar a s : scalar_str s -> scalar_str (CleanDirectory.dot_core a s).
Proof.
  intros Hs. unfold CleanDirectory.dot_core. cbv zeta.
  assert (scalar_str (drop 1 s)) as Hd by (eapply scalar_str_sublist; [apply sublist_drop | done]).
  destruct (is_empty _); [done|].
  pose proof (fold_case_scalar (CleanDirectory.iis a) _ Hd) as Hf.
  destruct (CleanDirectory.strip_dot_ext a); [|done].
  eapply scalar_str_sublist; [apply re_sub_sublist | done].
Qed.

Lemma handed_url_chars a s :
  scalar_str s -> Forall (fun e => forallb url_char e = true) (handed a s).
Proof.
  intros Hs. unfold handed. destruct (startswith _ s); [|by apply nondot_handed_url_chars].
  destruct (_ || _); [constructor|]. apply gated_url_chars.
  pose proof (dot_core_scalar a s Hs) as Hc. unfold CleanDirectory.dot_variants.
  destruct (CleanDirectory.drop_leading_dot a); repeat constructor; try done.
Qed.

Lemma plain_handed_url_chars a s :
  scalar_str s -> Forall (fun e => forallb url_char e = true) (plain_handed a s).
Proof.
  intros Hs. unfold plain_handed. destruct (startswith _ s); [|by apply nondot_handed_url_chars].
  apply gated_url_chars. constructor; [|constructor]. by apply fold_case_scalar.
Qed.

Lemma forallb_sublist (f : char -> bool) s t :
  s `sublist_of` t -> forallb f t = true -> forallb f s = true.
Proof.
  intros Hs Ht. apply forallb_forall. intros c Hc%list_elem_of_In.
  rewrite forallb_forall in Ht. apply Ht, list_elem_of_In. by eapply elem_of_sublist.
Qed.

Lemma api_cut_inline_sublist seqs line : CleanApi.cut_inline seqs line `sublist_of` line.
Proof.
  induction seqs as [|seq seqs IH]; [done|]. simpl.
  destruct (find seq line); [apply sublist_take | done].
Qed.

Lemma api_strip_comment_sublist line : CleanApi.strip_comment line `sublist_of` line.
Proof.
  unfold CleanApi.strip_comment. cbv zeta. destruct (re_match _ _); [apply sublist_nil_l|].
  etrans; [apply api_cut_inline_sublist | apply lstrip_by_sublist].
Qed.

Lemma api_normalized_url_chars o raw line :
  CleanApi.percent o = true -> scalar_str raw ->
  CleanApi.normalized o raw = Some line -> forallb url_char line = true.
Proof.
  intros Hp Hraw. unfold CleanApi.normalized. cbv zeta. rewrite Hp.
  destruct (is_empty _); [done|]. destruct (CleanApi.strip_comments o && _); [done|].
  destruct (is_empty (strip_by _ _)); [done|].
  set (line0 := if CleanApi.strip_comments o then _ else _).
  assert (scalar_str line0) as H0.
  { unfold line0. destruct (CleanApi.strip_comments o).
    - eapply scalar_str_sublist; [|exact Hraw].
      etrans; [apply api_strip_comment_sublist | apply rstrip_by_sublist].
    - eapply scalar_str_sublist; [apply rstrip_by_sublist | done]. }
  set (line1 := py_nfkc (strip_by py_isspace line0)).
  assert (scalar_str line1) as H1.
  { apply py_nfkc_scalar. eapply scalar_str_sublist; [apply strip_by_sublist | done]. }
  set (line2 := if CleanApi.collapse_slashes_opt o then _ else _).
  assert (scalar_str line2) as H2.
  { unfold line2. destruct (CleanApi.collapse_slashes_opt o); [|done].
    change (CleanApi.collapse_slashes line1) with (CleanDirectory.collapse_slashes line1).
    rewrite collapse_slashes_squeeze.
    eapply scalar_str_sublist; [apply squeeze_sublist | done]. }
  set (line3 := CleanApi.remove_trailing_slash line2).
  assert (scalar_str line3) as H3.
  { unfold line3, CleanApi.remove_trailing_slash. destruct (bool_decide _); [done|].
    eapply scalar_str_sublist; [apply re_sub_sublist | done]. }
  set (line4 := if CleanApi.leading_slash o then _ else _).
  assert (scalar_str line4) as H4.
  { unfold line4. destruct (CleanApi.leading_slash o).
    - destruct (negb _); [by constructor|]. rewrite sub_leading_slashes.
      destruct (startswith _ _); [|done]. apply scalar_str_app; [apply scalar_str_py|].
      eapply scalar_str_sublist; [apply lstrip_by_sublist | done].
    - destruct (CleanApi.no_leading_slash o); [|done].
      eapply scalar_str_sublist; [apply re_sub_sublist | done]. }
  pose proof (fold_case_scalar (negb (CleanApi.lower o)) line4 H4) as H5.
  assert ((if negb (CleanApi.lower o) then line4 else py_lower line4)
          = (if CleanApi.lower o then py_lower line4 else line4)) as E
    by by destruct (CleanApi.lower o).
  rewrite E in H5. destruct (is_empty _); [done|]. intros [= <-].
  eapply forallb_sublist; [apply strip_by_sublist|]. by apply encoded_url_chars.
Qed.

(** X22.  Whatever the input, the encoded output is plain URL text: where
    the lines hold Unicode scalar values (and normalisation and case
    folding give such values again), every entry of the two directory
    scripts, and every entry of [clean_api_wordlist.py] under [--percent],
    is made of ASCII letters and digits, [_.-~/] and [%] only.  So no entry
    holds white space, a line break, a control character, [?], [#] or a
    character outside ASCII. *)
Theorem X22_encoded_output_is_url_text
    (a : args) (o : CleanApi.opts) (lines : list str) :
  Forall scalar_str lines ->
  Forall (fun e => forallb url_char e = true) (entries a lines) /\
  Forall (fun e => forallb url_char e = true) (CleanDirectoryPlain.entries a lines) /\
  (CleanApi.percent o = true ->
   Forall (fun e => forallb url_char e = true) (CleanApi.process_lines lines o)).
Proof.
  intros Hlines. rewrite Forall_forall in Hlines. split_and!.
  - apply Forall_forall. intros v (raw & Hraw & Hv)%elem_of_entries_handed.
    unfold line_handed in Hv. destruct (candidate raw) as [s|] eqn:E; [|by apply elem_of_nil in Hv].
    revert v Hv. apply Forall_forall, handed_url_chars. eapply candidate_scalar; [|exact E]. auto.
  - apply Forall_forall. intros v Hv. unfold CleanDirectoryPlain.entries in Hv.
    rewrite out_plain_run, elem_of_add_all in Hv by apply wf_empty_output.
    destruct Hv as [Hv|Hv]; [by apply elem_of_nil in Hv|].
    apply list_elem_of_In, in_flat_map in Hv as (raw & Hraw%list_elem_of_In & Hv%list_elem_of_In).
    unfold plain_line_handed in Hv.
    destruct (candidate raw) as [s|] eqn:E; [|by apply elem_of_nil in Hv].
    revert v Hv. apply Forall_forall, plain_handed_url_chars.
    eapply candidate_scalar; [|exact E]. auto.
  - intros Hp. apply api_entries_Forall. intros raw line Hraw Hn.
    pose proof (api_normalized_url_chars o raw line Hp (Hlines raw Hraw) Hn) as H.
    constructor; [done|]. unfold api_variant. destruct (_ && _); constructor; [|constructor].
    by rewrite forallb_app, H.
Qed.

End Alphabet.

Lemma ascii_only_scalar :
  (forall s, scalar_str s -> scalar_str (uni_nfkc (PyUnicode := ascii_only) s)) /\
  (forall s, scalar_str s -> scalar_str (uni_lower (PyUnicode := ascii_only) s)).
Proof.
  split; [done|]. intros s H. apply Forall_fmap.
  eapply Forall_impl; [exact H|]. apply ascii_lower_scalar.
Qed.

Lemma X22_witness :
  Forall (fun e => forallb url_char e = true)
    (CleanDirectory.entries (U := ascii_only) CleanDirectory.default_args
       [[67; 97; 102; 233; 32; 47; 8364; 49]; py ".Git /x y"]).
Proof.
  refine (proj1 (X22_encoded_output_is_url_text (U := ascii_only)
            (proj1 ascii_only_scalar) (proj2 ascii_only_scalar)
            CleanDirectory.default_args CleanApi.default_opts
            [[67; 97; 102; 233; 32; 47; 8364; 49]; py ".Git /x y"] _)).
  repeat constructor.
Defined.

(** * [normalize_and_map] *)

Section NormalizeAndMap.
Import CleanDirectory.
Context {U : PyUnicode}.

Lemma homoglyph_idem d : HOMOGLYPH_MAP (HOMOGLYPH_MAP d) = HOMOGLYPH_MAP d.
Proof.
  unfold HOMOGLYPH_MAP at 2 3.
  repeat match goal with
         | |- context [if ?d =? ?n then _ else _] =>
             destruct (N.eqb_spec d n); [done|]
         end.
  unfold HOMOGLYPH_MAP.
  repeat match goal with
         | H : ?d <> ?n |- context [if ?d =? ?n then _ else _] =>
             rewrite (proj2 (N.eqb_neq d n) H)
         end.
  done.
Qed.

Lemma normalize_and_map_ascii s :
  forallb is_ascii s = true ->
  normalize_and_map s = filter (fun c => ascii_control c = false) s.
Proof.
  intros Hs. unfold normalize_and_map, py_nfkc. rewrite Hs. cbv zeta.
  induction s as [|c s IH]; [done|]. simpl in Hs.
  apply andb_true_iff in Hs as [Hc Hs]. cbn [map].
  assert (HOMOGLYPH_MAP c = c) as ->.
  { unfold is_ascii in Hc. apply N.ltb_lt in Hc. revert c Hc.
    apply (below_forall 128 (fun c => HOMOGLYPH_MAP c = c)). by vm_compute. }
  assert (py_category_C c = ascii_control c) as E by (unfold py_category_C; by rewrite Hc).
  destruct (ascii_control c) eqn:Ec.
  - rewrite !filter_cons_False by (rewrite ?E; congruence). by apply IH.
  - rewrite !filter_cons_True by (rewrite ?E; congruence). f_equal. by apply IH.
Qed.

(** X23.  What [normalize_and_map] returns holds no character of a general
    category that starts with [C] and none of the sixteen Cyrillic letters
    of [HOMOGLYPH_MAP] (every character of it is mapped to itself); on an
    ASCII string it only takes out the control characters, and doing it
    twice is doing it once. *)
Theorem X23_normalize_and_map_leaves_no_lookalike (s : str) :
  Forall (fun c => py_category_C c = false /\ HOMOGLYPH_MAP c = c) (normalize_and_map s) /\
  (forallb is_ascii s = true ->
   normalize_and_map s = filter (fun c => ascii_control c = false) s /\
   normalize_and_map (normalize_and_map s) = normalize_and_map s).
Proof.
  split.
  - unfold normalize_and_map. cbv zeta. apply Forall_forall.
    intros c [Hc (d & -> & _)%list_elem_of_fmap]%list_elem_of_filter.
    split; [done | apply homoglyph_idem].
  - intros Hs. split; [by apply normalize_and_map_ascii|].
    rewrite (normalize_and_map_ascii s Hs). rewrite normalize_and_map_ascii.
    + apply list_filter_filter_l. done.
    + eapply forallb_sublist; [apply sublist_filter | done].
Qed.

End NormalizeAndMap.

Lemma X23_witness :
  CleanDirectory.normalize_and_map (U := ascii_only) [97; 0; 47; 127; 98; 9]
  = filter (fun c => ascii_control c = false) [97; 0; 47; 127; 98; 9].
Proof.
  refine (proj1 (proj2 (X23_normalize_and_map_leaves_no_lookalike (U := ascii_only)
                          [97; 0; 47; 127; 98; 9]) _)).
  reflexivity.
Defined.

(** * [remove_extensions] on a path from the root *)

Section AbsolutePath.
Import ConvertFiles.
Context {U : PyUnicode}.

Lemma PurePosixPath_absolute segs :
  normal_segments segs ->
  PurePosixPath (chr "/" :: join (py "/") segs) = {| root := py "/"; parts := segs |}.
Proof.
  intros Hn. destruct (join_normal_head segs Hn) as (c & z & E & Hc).
  destruct Hn as [Hne H]. unfold PurePosixPath. f_equal.
  - unfold leading_slashes. rewrite E. cbn [lstrip_by].
    assert (is_char "/" (chr "/") = true) as -> by done.
    unfold is_char. destruct (N.eqb_spec c (chr "/")); [done|].
    cbn [length]. by rewrite Nat.sub_succ_l, Nat.sub_diag.
  - rewrite split_cons_sep. rewrite filter_cons_False by (by intros [? _]).
    change (py "/") with [chr "/"]. rewrite split_join; [by apply filter_normal | done |].
    eapply Forall_impl; [exact H|]. by intros seg (_ & ? & _).
Qed.

(** X24.  [remove_extensions] on an absolute path in normal form: a name
    that loses no extension comes back with its path; a name in a
    directory loses its extensions in place; but a name directly under the
    root comes back with two slashes in front ([/index.php] gives
    [//index]), because the parent [/] and the name are joined by a
    slash. *)
Theorem X24_root_level_name_gets_two_slashes (segs : list str) (ext_re : re) :
  normal_segments segs ->
  let stem := List.last segs [] in
  let new_stem := re_sub ext_re [] stem in
  remove_extensions (chr "/" :: join (py "/") segs) ext_re
  = if bool_decide (new_stem = stem) then chr "/" :: join (py "/") segs
    else if bool_decide (removelast segs = []) then py "//" ++ new_stem
    else chr "/" :: join (py "/") (removelast segs ++ [new_stem]).
Proof.
  intros Hn stem new_stem. unfold remove_extensions. cbn [is_empty].
  rewrite (PurePosixPath_absolute segs Hn). unfold path_name, path_parent, path_str.
  cbn [root parts is_empty andb]. fold stem. fold new_stem.
  destruct (bool_decide (new_stem = stem)); [done|].
  change (is_empty (py "/")) with false. cbn [andb].
  change (py "/" ++ ?x) with (chr "/" :: x). cbn [is_empty orb].
  rewrite (bool_decide_eq_false_2 (chr "/" :: _ = py ".")).
  2:{ intros Heq. apply (f_equal (fun x => hd 0 x)) in Heq. by vm_compute in Heq. }
  cbn [orb join]. destruct (removelast segs) as [|p ps] eqn:E.
  - by rewrite bool_decide_eq_true_2.
  - rewrite bool_decide_eq_false_2 by done.
    rewrite join_snoc by done. done.
Qed.

End AbsolutePath.

Lemma X24_witness :
  ConvertFiles.remove_extensions (py "/index.php") (ConvertFiles.EXT_RE (U := ascii_only))
  = py "//index" /\
  ConvertFiles.remove_extensions (py "/var/www/index.php") (ConvertFiles.EXT_RE (U := ascii_only))
  = py "/var/www/index" /\
  ConvertFiles.process_file (U := ascii_only) [py "/index.php"] ConvertFiles.default_options
  = [py "//index"].
Proof.
  split_and!.
  - refine (eq_trans (X24_root_level_name_gets_two_slashes
                        [py "index.php"] (ConvertFiles.EXT_RE (U := ascii_only)) _) _).
    + split; [done|]. repeat constructor; try done.
      apply (bool_decide_unpack _). by vm_compute.
    + by vm_compute.
  - by vm_compute.
  - by vm_compute.
Defined.

(** * No traversal sequence in an entry without a leading dot *)

Definition dot_or_slash (c : char) : bool := is_char "." c || is_char "/" c.

Section Morphism.
(** A substitution of strings for characters that copies [.] and [/] and
    gives, for any other character, a string that is not empty and holds
    neither. *)
Variable h : char -> str.
Hypothesis h_copy : forall c, dot_or_slash c = true -> h c = [c].
Hypothesis h_other : forall c, dot_or_slash c = false ->
  h c <> [] /\ forallb (fun d => negb (dot_or_slash d)) (h c) = true.

Lemma startswith_other p d x :
  forallb dot_or_slash p = true -> p <> [] -> dot_or_slash d = false ->
  startswith p (d :: x) = false.
Proof.
  intros Hp Hne Hd. destruct p as [|a p]; [done|]. simpl in *.
  apply andb_true_iff in Hp as [Ha _].
  destruct (N.eqb_spec a d) as [->|]; [congruence | done].
Qed.

Lemma startswith_flat_map p s :
  forallb dot_or_slash p = true -> p <> [] ->
  startswith p (flat_map h s) = startswith p s.
Proof.
  revert s. induction p as [|a p IH]; intros s Hp Hne; [done|].
  simpl in Hp. apply andb_true_iff in Hp as [Ha Hp].
  destruct s as [|c s]; [done|]. cbn [flat_map].
  destruct (dot_or_slash c) eqn:Ec.
  - rewrite (h_copy c Ec). cbn [app startswith]. destruct p as [|b p]; [done|].
    by rewrite IH.
  - destruct (h_other c Ec) as [Hc Hall]. destruct (h c) as [|d w]; [done|].
    simpl in Hall. apply andb_true_iff in Hall as [Hd _]. apply negb_true_iff in Hd.
    cbn [app]. rewrite (startswith_other (a :: p) d) by (done || (simpl; by rewrite Ha, Hp)).
    symmetry. apply startswith_other; [simpl; by rewrite Ha, Hp | done..].
Qed.

Lemma contains_skip p w x :
  forallb dot_or_slash p = true -> p <> [] ->
  forallb (fun d => negb (dot_or_slash d)) w = true ->
  contains p (w ++ x) = contains p x.
Proof.
  intros Hp Hne. induction w as [|d w IH]; [done|]. simpl.
  intros [Hd Hw]%andb_true_iff. apply negb_true_iff in Hd.
  change (startswith p (d :: w ++ x) || contains p (w ++ x) = contains p x).
  rewrite startswith_other by done. by apply IH.
Qed.

Lemma contains_flat_map p s :
  forallb dot_or_slash p = true -> p <> [] ->
  contains p (flat_map h s) = contains p s.
Proof.
  intros Hp Hne. induction s as [|c s IH].
  - simpl. by destruct p.
  - cbn [flat_map]. destruct (dot_or_slash c) eqn:Ec.
    + pose proof (startswith_flat_map p (c :: s) Hp Hne) as Hst. cbn [flat_map] in Hst.
      rewrite (h_copy c Ec) in *. cbn [app contains] in *. by rewrite Hst, IH.
    + destruct (h_other c Ec) as [_ Hall]. rewrite contains_skip by done.
      cbn [contains]. rewrite startswith_other by done. by rewrite IH.
Qed.

End Morphism.

Lemma quote_flat_map s : quote safe_chars s = flat_map (fun c => quote safe_chars [c]) s.
Proof. induction s as [|c s IH]; [done|]. rewrite quote_cons. simpl. by rewrite IH. Qed.

Lemma hex_digit_other n : dot_or_slash (hex_digit n) = false.
Proof.
  unfold dot_or_slash, is_char, hex_digit, chr. cbn.
  destruct (N.ltb_spec n 10); apply orb_false_iff; split; apply N.eqb_neq; lia.
Qed.

Lemma quote_byte_other b :
  dot_or_slash b = false ->
  forallb (fun d => negb (dot_or_slash d)) (quote_byte safe_chars b) = true.
Proof.
  intros Hb. rewrite quote_byte_kept. destruct (kept_char b); simpl.
  - by rewrite Hb.
  - by rewrite !hex_digit_other.
Qed.

Lemma dot_or_slash_ascii c : dot_or_slash c = true -> c < 128.
Proof.
  unfold dot_or_slash, is_char, chr. cbn.
  intros [H|H]%orb_true_iff; apply N.eqb_eq in H; lia.
Qed.

Lemma quote_one_other c :
  dot_or_slash c = false ->
  quote safe_chars [c] <> [] /\
  forallb (fun d => negb (dot_or_slash d)) (quote safe_chars [c]) = true.
Proof.
  intros Hc. split.
  - intros H. pose proof (quote_length [c]) as Hl. rewrite H in Hl. simpl in Hl. lia.
  - rewrite quote_one. unfold utf8_encode.
    destruct (N.ltb_spec c 128).
    { simpl. rewrite app_nil_r. by apply quote_byte_other. }
    assert (forall b, 128 <= b -> dot_or_slash b = false) as Hb.
    { intros b Hge. destruct (dot_or_slash b) eqn:E; [|done].
      apply dot_or_slash_ascii in E. lia. }
    repeat match goal with |- context [if ?b then _ else _] => destruct b end;
      cbn [flat_map]; rewrite ?forallb_app, ?andb_true_iff; repeat split; try done;
      apply quote_byte_other, Hb;
      match goal with |- 128 <= ?k + _ => transitivity k; [lia | apply N.le_add_r] end.
Qed.

Lemma quote_one_copy c : dot_or_slash c = true -> quote safe_chars [c] = [c].
Proof.
  intros Hc. apply quote_one_kept. unfold kept_char, always_safe, dot_or_slash in *.
  apply orb_true_iff in Hc as [-> | ->]; by rewrite ?orb_true_r.
Qed.

(** The encoder neither makes nor breaks a sequence of dots and slashes. *)
Lemma contains_quote p s :
  forallb dot_or_slash p = true -> p <> [] ->
  contains p (percent_encode_keep_slash s) = contains p s.
Proof.
  intros Hp Hne. unfold percent_encode_keep_slash. rewrite quote_flat_map.
  apply contains_flat_map; [apply quote_one_copy | apply quote_one_other | done..].
Qed.

Lemma ascii_lower_dot_or_slash c : dot_or_slash (ascii_lower c) = dot_or_slash c.
Proof.
  unfold ascii_lower, ascii_upper_letter, in_range. destruct (_ && _) eqn:E; [|done].
  apply andb_true_iff in E as [E1 E2]. apply N.leb_le in E1, E2.
  unfold dot_or_slash, is_char, chr in *. cbn in *.
  transitivity false; [|symmetry]; apply orb_false_iff; split; apply N.eqb_neq; lia.
Qed.

Lemma lower_as_flat_map s :
  map ascii_lower s
  = flat_map (fun c => if dot_or_slash c then [c] else [ascii_lower c]) s.
Proof.
  induction s as [|c s IH]; [done|]. simpl. rewrite IH.
  destruct (dot_or_slash c) eqn:Ec; [|done]. simpl. f_equal.
  unfold ascii_lower, ascii_upper_letter, in_range. destruct (_ && _) eqn:E; [|done].
  apply andb_true_iff in E as [E1 E2]. apply N.leb_le in E1, E2.
  unfold dot_or_slash, is_char, chr in *. cbn in *.
  apply orb_true_iff in Ec as [Ec|Ec]; apply N.eqb_eq in Ec; lia.
Qed.

Lemma lower_morphism :
  (forall c, dot_or_slash c = true ->
     (if dot_or_slash c then [c] else [ascii_lower c]) = [c]) /\
  (forall c, dot_or_slash c = false ->
     (if dot_or_slash c then [c] else [ascii_lower c]) <> [] /\
     forallb (fun d => negb (dot_or_slash d))
       (if dot_or_slash c then [c] else [ascii_lower c]) = true).
Proof.
  split; intros c Hc; rewrite Hc; [done|]. split; [done|]. simpl.
  by rewrite ascii_lower_dot_or_slash, Hc.
Qed.

Lemma contains_ascii_lower p s :
  forallb dot_or_slash p = true -> p <> [] ->
  contains p (map ascii_lower s) = contains p s.
Proof.
  intros Hp Hne. destruct lower_morphism as [L1 L2].
  rewrite lower_as_flat_map. by apply contains_flat_map.
Qed.

Section DirectoryTraversal.
Import CleanDirectory.
Context {U : PyUnicode}.

(** X25.  No traversal sequence gets through the branch for entries
    without a leading dot: where case is kept ([--iis]) or the candidate is
    ASCII, no entry of such a line holds [..], and none holds [./] unless it
    is the variant that [--add-trailing-variant] makes of an entry that
    ends in a dot. *)
Theorem X25_nondot_entries_hold_no_traversal (a : args) (raw s e : str) :
  candidate raw = Some s ->
  startswith (py ".") s = false ->
  iis a = true \/ forallb is_ascii s = true ->
  e ∈ entries a [raw] ->
  contains (py "..") e = false /\
  (add_trailing_variant a = false -> contains (py "./") e = false).
Proof.
  intros Hc Hdot Hcase He.
  apply elem_of_entries_handed in He as (raw' & ->%list_elem_of_singleton & He).
  unfold line_handed in He. rewrite Hc in He. unfold handed in He. rewrite Hdot in He.
  unfold nondot_handed in He. destruct (has_lfi s) eqn:Hlfi; [by apply elem_of_nil in He|].
  cbv zeta in He. destruct (_ && _); [by apply elem_of_nil in He|].
  destruct (too_long a _); [by apply elem_of_nil in He|].
  unfold has_lfi in Hlfi. apply orb_false_iff in Hlfi as [Hlfi _].
  apply orb_false_iff in Hlfi as [H2 H1].
  set (folded := if iis a then s else py_lower s) in *.
  assert (forall p, forallb dot_or_slash p = true -> p <> [] ->
            contains p folded = contains p s) as Hf.
  { intros p Hp Hne. unfold folded. destruct Hcase as [-> | Ha]; [done|].
    destruct (iis a); [done|]. unfold py_lower. rewrite Ha. by apply contains_ascii_lower. }
  assert (contains (py "..") (percent_encode_keep_slash folded) = false) as E2
    by (rewrite contains_quote, Hf; done).
  assert (contains (py "./") (percent_encode_keep_slash folded) = false) as E1
    by (rewrite contains_quote, Hf; done).
  unfold trailing_variants in He. apply elem_of_cons in He as [-> | He]; [done|].
  destruct (add_trailing_variant a); cbn [andb] in He; [|by apply elem_of_nil in He].
  destruct (_ && _); [|by apply elem_of_nil in He].
  apply list_elem_of_singleton in He as ->. split; [|done].
  set (enc := percent_encode_keep_slash folded) in *.
  clear -E2. induction enc as [|c enc IH]; [done|].
  cbn [app contains] in *. apply orb_false_iff in E2 as [Hst Hc].
  rewrite (IH Hc), orb_false_r.
  change (py "..") with [chr "."; chr "."] in *. cbn [startswith] in *.
  destruct (chr "." =? c); [|done]. cbn [andb] in *.
  destruct enc as [|d enc]; [done|]. exact Hst.
Qed.

End DirectoryTraversal.

Lemma X25_witness :
  contains (py "..") (py "a.b/c.d..e") = true /\
  CleanDirectory.entries (U := ascii_only) CleanDirectory.default_args [py "a.b/c.d..e"] = [] /\
  contains (py "..") (py "well-known/x_y") = false.
Proof.
  split_and!; [reflexivity | reflexivity |].
  refine (proj1 (X25_nondot_entries_hold_no_traversal (U := ascii_only)
            CleanDirectory.default_args (py "Well-Known/x_y#frag") (py "Well-Known/x_y")
            (py "well-known/x_y") _ _ _ _)).
  - reflexivity.
  - reflexivity.
  - right. reflexivity.
  - apply (bool_decide_unpack _). by vm_compute.
Defined.

(** * [clean_api_wordlist.py]: no two slashes side by side *)

(** [slash_dropped res s]: [res] is [s] without some of its slashes. *)
Inductive slash_dropped : str -> str -> Prop :=
| sd_nil : slash_dropped [] []
| sd_keep c res s : slash_dropped res s -> slash_dropped (c :: res) (c :: s)
| sd_drop res s : slash_dropped res s -> slash_dropped res (chr "/" :: s).

Lemma slash_dropped_refl s : slash_dropped s s.
Proof. induction s; by constructor. Qed.

Lemma slash_dropped_start res s :
  slash_dropped res s -> startswith (py "/") s = false -> startswith (py "/") res = false.
Proof.
  destruct 1 as [|c res s H|res s H]; [done| |].
  - by rewrite !startswith_slash_cons.
  - rewrite startswith_slash_cons. by vm_compute.
Qed.

Lemma contains_double_cons c s :
  contains (py "//") (c :: s) = (is_char "/" c && startswith (py "/") s) || contains (py "//") s.
Proof.
  cbn [contains]. f_equal. change (py "//") with (chr "/" :: py "/"). cbn [startswith].
  unfold is_char. by rewrite N.eqb_sym.
Qed.

Lemma slash_dropped_no_double res s :
  slash_dropped res s -> contains (py "//") s = false -> contains (py "//") res = false.
Proof.
  induction 1 as [|c res s H IH|res s H IH]; [done| |].
  - rewrite !contains_double_cons. intros [H1 H2]%orb_false_iff.
    rewrite (IH H2), orb_false_r. destruct (is_char "/" c); [|done]. cbn [andb] in *.
    by apply (slash_dropped_start res s).
  - rewrite contains_double_cons. intros [_ H2]%orb_false_iff. by apply IH.
Qed.

(** A substitution by the empty string, for a pattern that matches runs of
    slashes only, drops slashes and nothing else. *)
Lemma sub_from_slash_dropped r :
  (forall b u v, matches r b u v -> forallb (is_char "/") u = true) ->
  forall m b n s, (length s <= m)%nat -> forallb (is_char "/") (take n s) = true ->
    slash_dropped (sub_from r [] b n s) s.
Proof.
  intros Hr. induction m as [|m IH]; intros b n s Hm Hn.
  - destruct s; [|simpl in Hm; lia]. destruct n; simpl; [|constructor].
    destruct (match_at r b []); constructor.
  - destruct s as [|c s].
    { destruct n; simpl; [|constructor]. destruct (match_at r b []); constructor. }
    simpl in Hm. destruct n as [|n]; cbn [sub_from].
    + destruct (match_at r b (c :: s)) as [rest|] eqn:E.
      * apply match_at_Some in E as (u & Eu & Hu%Hr).
        assert (length (c :: s) - length rest = length u)%nat as ->.
        { rewrite Eu, length_app. lia. }
        destruct u as [|d u]; cbn [length app].
        -- constructor. apply IH; [lia | done].
        -- injection Eu as <- Es. simpl in Hu. apply andb_true_iff in Hu as [Hc Hu].
           unfold is_char in Hc. apply N.eqb_eq in Hc as ->. apply sd_drop.
           apply IH; [lia|]. rewrite Es, take_app_length. done.
      * constructor. apply IH; [lia | done].
    + cbn [take forallb] in Hn. apply andb_true_iff in Hn as [Hc Hn].
      unfold is_char in Hc. apply N.eqb_eq in Hc as ->. apply sd_drop.
      apply IH; [lia | done].
Qed.

Lemma re_sub_slash_dropped r s :
  (forall b u v, matches r b u v -> forallb (is_char "/") u = true) ->
  slash_dropped (re_sub r [] s) s.
Proof. intros Hr. by apply (sub_from_slash_dropped r Hr (length s)). Qed.

Lemma contains_prefix p s t : contains p s = true -> contains p (s ++ t) = true.
Proof.
  induction s as [|c s IH]; simpl.
  - destruct p; [|done]. by destruct t.
  - intros [H|H]%orb_true_iff; apply orb_true_iff; [left | right; by apply IH].
    destruct (startswith_decomp _ _ H) as (y & Ey).
    change (c :: s ++ t) with ((c :: s) ++ t). rewrite Ey, <- app_assoc. apply startswith_app.
Qed.

Lemma contains_suffix p s t : contains p t = true -> contains p (s ++ t) = true.
Proof.
  intros H. induction s as [|c s IH]; [done|]. simpl. rewrite IH. apply orb_true_r.
Qed.

Lemma contains_strip f p s : contains p s = false -> contains p (strip_by f s) = false.
Proof.
  intros H. destruct (contains p (strip_by f s)) eqn:E; [|done].
  unfold strip_by in E.
  destruct (lstrip_by_decomp f s) as (ws & Es & _).
  destruct (rstrip_by_decomp f (lstrip_by f s)) as (ws' & Es' & _).
  rewrite Es, Es' in H. rewrite contains_suffix in H; [done|]. by apply contains_prefix.
Qed.

Lemma endswith_cons x c d s : endswith [x] (c :: d :: s) = endswith [x] (d :: s).
Proof.
  unfold endswith. change (rev (c :: d :: s)) with (rev (d :: s) ++ [c]).
  destruct (rev (d :: s)) as [|n l] eqn:E; [|done].
  apply (f_equal length) in E. rewrite length_rev in E. done.
Qed.

Lemma contains_double_snoc s :
  contains (py "//") s = false -> endswith (py "/") s = false ->
  contains (py "//") (s ++ py "/") = false.
Proof.
  induction s as [|c s IH]; [done|]. rewrite contains_double_cons.
  intros [H1 H2]%orb_false_iff Hend. cbn [app]. rewrite contains_double_cons.
  destruct s as [|d s].
  - cbn [app]. assert (is_char "/" c = false) as ->; [|done].
    unfold endswith in Hend. simpl in Hend. unfold is_char.
    rewrite N.eqb_sym. by rewrite andb_true_r in Hend.
  - change (py "/") with [chr "/"] in Hend. rewrite endswith_cons in Hend.
    rewrite IH by done. rewrite orb_false_r. cbn [app].
    rewrite startswith_slash_cons in *. done.
Qed.

Section ApiSlashes.
Import CleanApi.
Context {U : PyUnicode}.

Lemma api_normalized_no_double o raw line :
  collapse_slashes_opt o = true -> lower o = false ->
  normalized o raw = Some line -> contains (py "//") line = false.
Proof.
  intros Hc Hlow. unfold normalized. cbv zeta. rewrite Hc, Hlow.
  destruct (is_empty _); [done|]. destruct (strip_comments o && _); [done|].
  destruct (is_empty (strip_by _ _)); [done|].
  set (x := py_nfkc _).
  assert (contains (py "//") (collapse_slashes x) = false) as H2.
  { change (collapse_slashes x) with (CleanDirectory.collapse_slashes x).
    rewrite collapse_slashes_squeeze. apply squeeze_no_double. }
  set (line2 := collapse_slashes x) in *.
  assert (contains (py "//") (remove_trailing_slash line2) = false) as H3.
  { unfold remove_trailing_slash. destruct (bool_decide _); [done|].
    eapply slash_dropped_no_double; [|exact H2]. apply re_sub_slash_dropped.
    intros b u v (u1 & u2 & -> & [_ Hu]%matches_plus_cls & [-> _]%matches_eol)%matches_seq.
    by rewrite app_nil_r. }
  set (line3 := remove_trailing_slash line2) in *.
  set (line4 := if leading_slash o then _ else _).
  assert (contains (py "//") line4 = false) as H4.
  { unfold line4. destruct (leading_slash o).
    - destruct (startswith (py "/") line3) eqn:E; cbn [negb].
      + rewrite sub_leading_slashes, E. change (py "/" ++ ?y) with (chr "/" :: y).
        rewrite contains_double_cons, startswith_slash_lstrip, andb_false_r. cbn [orb].
        destruct (contains (py "//") (lstrip_by (is_char "/") line3)) eqn:E'; [|done].
        destruct (lstrip_by_decomp (is_char "/") line3) as (ws & Es & _).
        rewrite Es, contains_suffix in H3; done.
      + by rewrite contains_double_cons, E, andb_false_r.
    - destruct (no_leading_slash o); [|done].
      eapply slash_dropped_no_double; [|exact H3]. apply re_sub_slash_dropped.
      intros b u v (u1 & u2 & -> & [-> _]%matches_bol & [_ Hu]%matches_plus_cls)%matches_seq.
      done. }
  assert (contains (py "//") (if percent o then percent_encode_keep_slash line4 else line4)
          = false) as H5.
  { destruct (percent o); [|done]. by rewrite contains_quote. }
  destruct (is_empty _); [done|]. intros [= <-]. by apply contains_strip.
Qed.

(** X26.  With the collapsing of slashes left on (and without [--lower]),
    no entry of [process_lines] has two slashes side by side, whatever the
    input and the other options: not after the removal of the trailing
    slash, the leading-slash rules, the encoding or the last trimming, and
    not in a trailing-slash variant. *)
Theorem X26_api_entries_hold_no_double_slash (o : opts) (lines : list str) :
  collapse_slashes_opt o = true -> lower o = false ->
  Forall (fun e => contains (py "//") e = false) (process_lines lines o).
Proof.
  intros Hc Hlow. apply api_entries_Forall. intros raw line _ Hn.
  pose proof (api_normalized_no_double o raw line Hc Hlow Hn) as H.
  constructor; [done|]. unfold api_variant.
  destruct (add_trailing_variant o); cbn [andb]; [|constructor].
  destruct (endswith (py "/") line) eqn:E; cbn [negb]; constructor; [|constructor].
  by apply contains_double_snoc.
Qed.

End ApiSlashes.

Lemma X26_witness :
  Forall (fun e => contains (py "//") e = false)
    (CleanApi.process_lines (U := ascii_only)
       [py "//api///v1//users//"; py "http://host//x"; py "/"] api_with_variants).
Proof. apply (X26_api_entries_hold_no_double_slash (U := ascii_only)); reflexivity. Defined.

(** * The slashes of an entry, for a line of printable ASCII *)

(** A printable ASCII character, the space included. *)
Definition printable (c : char) : bool := (32 <=? c) && (c <=? 126).

Lemma printable_facts c :
  printable c = true ->
  is_ascii c = true /\ ascii_control c = false /\ is_char "010" c = false.
Proof.
  unfold printable, is_ascii, ascii_control, is_char, chr. cbn.
  intros [H1 H2]%andb_true_iff. apply N.leb_le in H1, H2. split_and!.
  - apply N.ltb_lt. lia.
  - apply orb_false_iff. split; [apply N.ltb_ge | apply N.eqb_neq]; lia.
  - apply N.eqb_neq. lia.
Qed.

Lemma printable_ascii s : forallb printable s = true -> forallb is_ascii s = true.
Proof. apply forallb_impl. intros c Hc. by apply printable_facts. Qed.

Lemma printable_no_newline s : forallb printable s = true -> chr "010" ∉ s.
Proof.
  intros H. apply (forallb_not_elem_of printable); [done|]. by vm_compute.
Qed.

Lemma startswith_slash_squeeze s :
  startswith (py "/") (squeeze false s) = startswith (py "/") s.
Proof.
  destruct s as [|c s]; [done|]. cbn [squeeze].
  destruct (is_char "/" c); by rewrite !startswith_slash_cons.
Qed.

Lemma endswith_cons_nonempty x c u : u <> [] -> endswith [x] (c :: u) = endswith [x] u.
Proof. destruct u as [|d u]; [done|]. intros _. apply endswith_cons. Qed.

Lemma endswith_squeeze prev s :
  s <> [] -> endswith (py "/") s = false ->
  squeeze prev s <> [] /\ endswith (py "/") (squeeze prev s) = false.
Proof.
  change (py "/") with [chr "/"].
  revert prev. induction s as [|c s IH]; intros prev Hne Hend; [done|].
  destruct s as [|d s].
  - assert (is_char "/" c = false) as Hc.
    { unfold endswith in Hend. simpl in Hend. unfold is_char.
      rewrite N.eqb_sym. by rewrite andb_true_r in Hend. }
    cbn [squeeze]. rewrite Hc. split; [done | exact Hend].
  - rewrite endswith_cons in Hend.
    assert (d :: s <> []) as Hrest by done. revert IH Hend Hrest.
    generalize (d :: s). intros rest IH Hend Hrest. cbn [squeeze].
    destruct (is_char "/" c); [destruct prev|].
    + by apply IH.
    + destruct (IH true Hrest Hend) as [H1 H2]. split; [done|].
      by rewrite endswith_cons_nonempty.
    + destruct (IH false Hrest Hend) as [H1 H2]. split; [done|].
      by rewrite endswith_cons_nonempty.
Qed.

Lemma endswith_char_snoc x w c : endswith [x] (w ++ [c]) = (x =? c).
Proof.
  unfold endswith. rewrite rev_app_distr. cbn [rev app startswith]. apply andb_true_r.
Qed.

Section MorphismEnd.
Variable h : char -> str.
Hypothesis h_copy : forall c, dot_or_slash c = true -> h c = [c].
Hypothesis h_other : forall c, dot_or_slash c = false ->
  h c <> [] /\ forallb (fun d => negb (dot_or_slash d)) (h c) = true.

Lemma endswith_flat_map s :
  endswith (py "/") (flat_map h s) = endswith (py "/") s.
Proof.
  change (py "/") with [chr "/"].
  destruct s as [|c s _] using rev_ind; [done|].
  rewrite flat_map_app. cbn [flat_map]. rewrite app_nil_r, (endswith_char_snoc _ s c).
  destruct (dot_or_slash c) eqn:Ec.
  - rewrite (h_copy c Ec). apply endswith_char_snoc.
  - destruct (h_other c Ec) as [Hne Hall].
    destruct (h c) as [|d w _] using rev_ind; [done|].
    rewrite app_assoc, endswith_char_snoc.
    rewrite forallb_app in Hall. apply andb_true_iff in Hall as [_ Hd]. simpl in Hd.
    rewrite andb_true_r in Hd. apply negb_true_iff in Hd.
    unfold dot_or_slash, is_char in *. apply orb_false_iff in Ec as [_ Ec], Hd as [_ Hd].
    by rewrite (N.eqb_sym _ d), (N.eqb_sym _ c), Ec, Hd.
Qed.

End MorphismEnd.

(** What the slashes of a string are to the two steps before the length
    check: lower-casing in ASCII and encoding move none. *)
Lemma slashes_of_encoded (keep : bool) s :
  forallb is_ascii s = true ->
  let enc := percent_encode_keep_slash (if keep then s else map ascii_lower s) in
  startswith (py "/") enc = startswith (py "/") s /\
  contains (py "//") enc = contains (py "//") s /\
  endswith (py "/") enc = endswith (py "/") s /\
  (s <> [] -> enc <> []).
Proof.
  intros Ha enc. destruct lower_morphism as [L1 L2].
  assert (startswith (py "/") (map ascii_lower s) = startswith (py "/") s /\
          contains (py "//") (map ascii_lower s) = contains (py "//") s /\
          endswith (py "/") (map ascii_lower s) = endswith (py "/") s) as (M1 & M2 & M3).
  { rewrite lower_as_flat_map. split_and!.
    - by apply startswith_flat_map.
    - by apply contains_flat_map.
    - by apply endswith_flat_map. }
  unfold enc, percent_encode_keep_slash. rewrite !quote_flat_map. split_and!.
  - rewrite startswith_flat_map; [|apply quote_one_copy|apply quote_one_other|done..].
    by destruct keep.
  - rewrite contains_flat_map; [|apply quote_one_copy|apply quote_one_other|done..].
    by destruct keep.
  - rewrite endswith_flat_map; [|apply quote_one_copy|apply quote_one_other].
    by destruct keep.
  - intros Hne H. rewrite <- quote_flat_map in H.
    pose proof (quote_length (if keep then s else map ascii_lower s)) as Hl.
    rewrite H in Hl. simpl in Hl. destruct keep, s; simpl in Hl; done || lia.
Qed.

Section DirectoryShape.
Import CleanDirectory.
Context {U : PyUnicode}.

Lemma normalize_and_map_printable s :
  forallb printable s = true -> normalize_and_map s = s.
Proof.
  intros H. rewrite normalize_and_map_ascii by by apply printable_ascii.
  induction s as [|c s IH]; [done|]. simpl in H. apply andb_true_iff in H as [Hc Hs].
  rewrite filter_cons_True by by apply printable_facts. f_equal. by apply IH.
Qed.

Lemma candidate_printable raw s :
  forallb printable (chomp raw) = true -> candidate raw = Some s ->
  s <> [] /\ forallb printable s = true /\ startswith (py "/") s = false /\
  contains (py "//") s = false /\ endswith (py "/") s = false.
Proof.
  intros Hraw. unfold candidate. cbv zeta.
  destruct (is_empty _); [done|]. destruct (re_match _ _); [done|].
  set (x4 := strip_by py_isspace (re_sub QUERY_FRAGMENT_RE [] _)).
  assert (forallb printable x4 = true) as H4.
  { eapply forallb_sublist; [|exact Hraw]. unfold x4.
    etrans; [apply strip_by_sublist|]. etrans; [apply re_sub_sublist|].
    etrans; [apply re_sub_sublist|]. apply strip_by_sublist. }
  destruct (is_empty x4); [done|].
  assert (re_sub LEADING_SLASHES [] x4 = lstrip_by (is_char "/") x4) as ->.
  { unfold LEADING_SLASHES. rewrite sub_leading_slashes.
    destruct (startswith (py "/") x4) eqn:E; [done|]. symmetry.
    destruct x4 as [|c x]; [done|]. rewrite startswith_slash_cons in E. simpl. by rewrite E. }
  set (x5 := lstrip_by (is_char "/") x4).
  assert (forallb printable x5 = true) as H5
    by (eapply forallb_sublist; [apply lstrip_by_sublist | done]).
  assert (re_sub TRAILING_SLASHES [] x5 = rstrip_by (is_char "/") x5) as ->
    by (apply sub_trailing_slashes; by apply printable_no_newline).
  set (x6 := rstrip_by (is_char "/") x5).
  assert (forallb printable x6 = true) as H6
    by (eapply forallb_sublist; [apply rstrip_by_sublist | done]).
  destruct (is_empty x6) eqn:E6; [done|].
  rewrite collapse_slashes_squeeze.
  assert (forallb printable (squeeze false x6) = true) as H7
    by (eapply forallb_sublist; [apply squeeze_sublist | done]).
  rewrite normalize_and_map_printable by done.
  destruct (is_empty (squeeze false x6)) eqn:E7; [done|]. intros [= <-].
  split_and!; [by intros E; rewrite E in E7 | done | | apply squeeze_no_double |].
  - rewrite startswith_slash_squeeze. apply startswith_slash_rstrip, startswith_slash_lstrip.
  - apply endswith_squeeze; [by destruct x6 | apply (endswith_rstrip (chr "/"))].
Qed.

(** X27.  For a line of printable ASCII whose candidate has no leading
    dot, the trimming and collapsing of slashes reach the output: no entry
    of the line starts with a slash or has two slashes side by side, and
    none ends in a slash but the variant that [--add-trailing-variant]
    adds. *)
Theorem X27_printable_line_gives_clean_slashes (a : args) (raw s e : str) :
  forallb printable (chomp raw) = true ->
  candidate raw = Some s ->
  startswith (py ".") s = false ->
  e ∈ entries a [raw] ->
  startswith (py "/") e = false /\
  contains (py "//") e = false /\
  (add_trailing_variant a = false -> endswith (py "/") e = false).
Proof.
  intros Hraw Hc Hdot He.
  destruct (candidate_printable raw s Hraw Hc) as (Hne & Hp & Hs1 & Hs2 & Hs3).
  apply elem_of_entries_handed in He as (raw' & ->%list_elem_of_singleton & He).
  unfold line_handed in He. rewrite Hc in He. unfold handed in He. rewrite Hdot in He.
  unfold nondot_handed in He. destruct (has_lfi s); [by apply elem_of_nil in He|].
  cbv zeta in He. destruct (_ && _); [by apply elem_of_nil in He|].
  destruct (too_long a _); [by apply elem_of_nil in He|].
  assert ((if iis a then s else py_lower s) = (if iis a then s else map ascii_lower s)) as E.
  { destruct (iis a); [done|]. unfold py_lower. by rewrite printable_ascii. }
  rewrite E in He. clear E.
  destruct (slashes_of_encoded (iis a) s (printable_ascii s Hp)) as (E1 & E2 & E3 & E4).
  set (enc := percent_encode_keep_slash _) in *.
  rewrite Hs1 in E1. rewrite Hs2 in E2. rewrite Hs3 in E3.
  unfold trailing_variants in He. apply elem_of_cons in He as [-> | He]; [done|].
  destruct (add_trailing_variant a); cbn [andb] in He; [|by apply elem_of_nil in He].
  destruct (_ && _); [|by apply elem_of_nil in He].
  apply list_elem_of_singleton in He as ->. split_and!; [| |done].
  - destruct enc as [|c enc]; [by destruct (E4 Hne) | exact E1].
  - by apply contains_double_snoc.
Qed.

End DirectoryShape.

Lemma X27_witness :
  startswith (py "/") (py "my%20api/v2") = false /\
  contains (py "//") (py "my%20api/v2") = false /\
  (CleanDirectory.add_trailing_variant CleanDirectory.default_args = false ->
   endswith (py "/") (py "my%20api/v2") = false).
Proof.
  refine (X27_printable_line_gives_clean_slashes (U := ascii_only)
            CleanDirectory.default_args
            (py "  https://host//My API///v2//?page=1") (py "My API/v2") (py "my%20api/v2")
            _ _ _ _).
  - reflexivity.
  - reflexivity.
  - reflexivity.
  - apply (bool_decide_unpack _). by vm_compute.
Defined.

(** * What a dot entry gives, under any options *)

Section DotShape.
Import CleanDirectory CleanDirectoryFacts.
Context {U : PyUnicode}.

Lemma encode_dot_cons core :
  percent_encode_keep_slash (chr "." :: core) = chr "." :: percent_encode_keep_slash core.
Proof. unfold percent_encode_keep_slash. by rewrite quote_cons, quote_one_kept. Qed.

Lemma too_long_shorter a c e : too_long a e = true -> too_long a (c :: e) = true.
Proof.
  unfold too_long. intros H%bool_decide_eq_true. apply bool_decide_eq_true.
  simpl length. lia.
Qed.

Lemma add_all_one v : out_order (add_all empty_output [v]) = [v].
Proof.
  unfold add_all, add_entry. simpl. by rewrite decide_False by apply not_elem_of_empty.
Qed.

Lemma add_all_two v w : v <> w -> out_order (add_all empty_output [v; w]) = [v; w].
Proof.
  intros Hne. unfold add_all. cbn [foldl]. unfold add_entry at 2.
  rewrite decide_False by apply not_elem_of_empty. unfold add_entry. cbn [seen out_order].
  rewrite decide_False; [done|]. rewrite elem_of_union, elem_of_singleton.
  intros [->|[]%elem_of_empty]. done.
Qed.

(** X28.  A candidate with a leading dot gives nothing, its core alone, or
    the dot form followed by the core, under any options: the dot form
    never comes without the core (it is one character longer, so the
    length check that lets it pass lets the core pass), and with
    [--drop-leading-dot] it does not come at all. *)
Theorem X28_dot_form_never_comes_alone (a : args) (raw s : str) :
  candidate raw = Some s ->
  startswith (py ".") s = true ->
  let bare := percent_encode_keep_slash (dot_core a s) in
  entries a [raw] = [] \/
  entries a [raw] = [bare] \/
  (drop_leading_dot a = false /\ entries a [raw] = [chr "." :: bare; bare]).
Proof.
  intros Hc Hdot bare. unfold entries. rewrite out_run. cbn [flat_map].
  rewrite app_nil_r. unfold line_handed. rewrite Hc. unfold handed. rewrite Hdot.
  destruct (_ || _); [by left|]. unfold dot_variants, gated.
  destruct (drop_leading_dot a); cbn [app map].
  - fold bare. destruct (too_long a bare) eqn:E.
    + left. by rewrite filter_cons_False by (by rewrite E).
    + right. left. rewrite filter_cons_True by done. apply add_all_one.
  - rewrite encode_dot_cons. fold bare.
    destruct (too_long a bare) eqn:E.
    + left. rewrite (filter_cons_False _ (chr "." :: bare))
        by (rewrite (too_long_shorter a _ bare E); done).
      by rewrite filter_cons_False by (by rewrite E).
    + right. destruct (too_long a (chr "." :: bare)) eqn:E'.
      * left. rewrite (filter_cons_False _ (chr "." :: bare)) by (by rewrite E').
        rewrite filter_cons_True by done. apply add_all_one.
      * right. split; [done|]. rewrite !filter_cons_True by done.
        apply add_all_two. intros H. apply (f_equal length) in H. simpl in H. lia.
Qed.

End DotShape.

Lemma X28_witness :
  CleanDirectory.entries (U := ascii_only) CleanDirectory.default_args [py "/.Git/config.bak"]
  = [py ".git/config"; py "git/config"].
Proof.
  destruct (X28_dot_form_never_comes_alone (U := ascii_only) CleanDirectory.default_args
              (py "/.Git/config.bak") (py ".Git/config.bak") eq_refl eq_refl)
    as [H | [H | [_ H]]].
  - discriminate H.
  - discriminate H.
  - exact H.
Defined.

(** * C2: the dot branch and the other branch exclude each other *)

Section C2.
Import CleanDirectory CleanDirectoryFacts.
Context {U : PyUnicode}.







End C2.

